(** * Amazon Q Developer third-party logging setup: a shallow embedding

    The repository consists of four Python modules that drive the AWS
    control plane through boto3:

    - [setup_q_developer_3p_metrcis.py]        (command-line setup),
    - [q_developer_3p_metrics_setup_lambda.py] (setup as a Lambda handler),
    - [iam_identity_center_user_extract_lambda.py] (directory export),
    - [cleanup_q_developer_3p_metrics.py]      (teardown).

    Every method is straight-line orchestration with [try]/[except]
    around provider calls.  The embedding below keeps that shape: a
    provider is an arbitrary deterministic oracle answering each call
    with a reply or an exception, and a method is a computation in a
    small monad that threads the provider state, can raise, and records
    the calls it issued (with their answers) and the lines it printed. *)

From stdpp Require Import gmap strings list pretty.

Set Warnings "-register-all".
Set Warnings "-automation".

(** ** Python values

    The Lambda handlers receive a JSON object and pass its members on
    untouched, so the values of a payload are modelled as dynamic values.
    JSON numbers are restricted to integers. *)

Inductive pyval :=
  | PNone
  | PBool (b : bool)
  | PInt (z : Z)
  | PStr (s : string)
  | PList (items : list pyval)
  | PDict (items : list (string * pyval)).

(** Truth value testing ([if x:], [not x]). *)
Definition truthy (v : pyval) : bool :=
  match v with
  | PNone => false
  | PBool b => b
  | PInt z => negb (Z.eqb z 0)
  | PStr s => negb (String.eqb s "")
  | PList items => match items with [] => false | _ => true end
  | PDict items => match items with [] => false | _ => true end
  end.

(** [v == 'literal'] for a string literal on the right. *)
Definition py_eq_str (v : pyval) (s : string) : bool :=
  match v with
  | PStr s' => String.eqb s' s
  | _ => false
  end.

(** Truth value of an optional string such as [response.get('NextToken')]. *)
Definition truthy_str (o : option string) : bool :=
  match o with
  | Some s => negb (String.eqb s "")
  | None => false
  end.

(** Truth value of an optional list such as [instances.get('Instances')]. *)
Definition truthy_list {A} (o : option (list A)) : bool :=
  match o with
  | Some (_ :: _) => true
  | _ => false
  end.

(** The parts of the Python runtime the modules use but do not define:
    [repr] of containers (needed by f-strings on a list or a dict) and
    [json.dumps]. *)
Class Runtime := {
    py_repr : pyval -> string;
    json_dumps : pyval -> string
}.

(** [str(v)], as an f-string placeholder evaluates it. *)
Definition py_str `{Runtime} (v : pyval) : string :=
  match v with
  | PStr s => s
  | PNone => "None"
  | PBool true => "True"
  | PBool false => "False"
  | PInt z => pretty z
  | PList _ | PDict _ => py_repr v
  end.

(** [s * n] on strings. *)
Fixpoint str_repeat (s : string) (n : nat) : string :=
  match n with
  | 0 => ""
  | S k => s +:+ str_repeat s k
  end.

(** ** Exceptions

    [ClientError] carries [e.response['Error']['Code']]; every exception
    carries the text [str(e)] that an f-string prints.  [OtherError] is any
    other subclass of [Exception], named by its class. *)
Inductive exn :=
  | ClientError (code : string) (text : string)
  | OtherError (cls : string) (text : string).

Definition exn_text (e : exn) : string :=
  match e with
  | ClientError _ text => text
  | OtherError _ text => text
  end.

(** [except OSError]: the class itself and its built-in subclasses
    ([IOError] and [EnvironmentError] are other names of [OSError]). *)
Definition os_error_classes : list string :=
  [ "OSError"; "BlockingIOError"; "ChildProcessError"; "ConnectionError";
    "BrokenPipeError"; "ConnectionAbortedError"; "ConnectionRefusedError";
    "ConnectionResetError"; "FileExistsError"; "FileNotFoundError";
    "InterruptedError"; "IsADirectoryError"; "NotADirectoryError";
    "PermissionError"; "ProcessLookupError"; "TimeoutError" ].

Definition is_os_error (cls : string) : bool :=
  bool_decide (cls ∈ os_error_classes).

(** ** Provider data

    Response dictionaries are records; a member read with [.get] is
    optional, a member read by subscript is required. *)

Record caller_identity := { Account : option string }.

Record trail := { trail_Name : option string }.
Record trails_response := { trailList : option (list trail) }.

Record sso_instance := { InstanceArn : string; IdentityStoreId : string }.
Record instances_response := { Instances : option (list sso_instance) }.

Record email := { Value : string; Primary : option bool }.
Record person_name := { GivenName : option string; FamilyName : option string }.
Record user := {
    UserId : option string;
    UserName : option string;
    Name : option person_name;
    Emails : option (list email)
}.
Record users_response := { Users : option (list user); NextToken : option string }.

Record target := { Id : string }.
Record targets_response := { Targets : option (list target) }.

Record s3_object := { Key : string }.
Record objects_page := { Contents : option (list s3_object) }.
Record s3_version := { version_Key : string; VersionId : string }.
Record versions_page := {
    Versions : option (list s3_version);
    DeleteMarkers : option (list s3_version)
}.

(** What iterating a paginator produces: the pages it yields and, when the
    iteration stops on an error, the exception raised after the last page. *)
Record paged (A : Type) := { pages : list A; failure : option exn }.
Arguments pages {A} _.
Arguments failure {A} _.

(** An entry of [Delete={'Objects': [...]}]. *)
Record object_id := { oid_Key : string; oid_VersionId : option string }.

(** An advanced event selector: its name and its field selectors
    ([Field], [Equals]). *)
Record field_selector := { Field : string; Equals : list string }.
Record event_selector := { selector_Name : string; FieldSelectors : list field_selector }.

(** ** Provider calls *)

Inductive call :=
  (* sts *)
  | GetCallerIdentity
  (* s3 *)
  | HeadBucket (Bucket : pyval)
  | CreateBucket (Bucket : pyval) (LocationConstraint : option pyval)
  | PutBucketPolicy (Bucket : pyval) (Policy : string)
  | PutObject (Bucket : pyval) (Key : string) (Body : string)
  | UploadFile (Filename : string) (Content : string) (Bucket : pyval) (Key : string)
  | ListObjectsV2 (Bucket : pyval)
  | ListObjectVersions (Bucket : pyval)
  | DeleteObjects (Bucket : pyval) (Objects : list object_id)
  | DeleteBucket (Bucket : pyval)
  (* cloudtrail *)
  | DescribeTrails
  | CreateTrail (Name : string) (S3BucketName : pyval) (S3KeyPrefix : string)
                (IsMultiRegionTrail EnableLogFileValidation : bool)
  | PutEventSelectors (TrailName : string) (AdvancedEventSelectors : list event_selector)
  | StartLogging (Name : string)
  | DeleteTrail (Name : string)
  (* sso-admin, identitystore *)
  | ListInstances
  | ListUsers (IdentityStoreId : string) (NextToken : option string)
  (* lambda, iam, events *)
  | DeleteFunction (FunctionName : string)
  | DeleteRolePolicy (RoleName PolicyName : string)
  | DeleteRole (RoleName : string)
  | ListTargetsByRule (Rule : string)
  | RemoveTargets (Rule : string) (Ids : list string)
  | DeleteRule (Name : string)
  (* the operating system: builtins.input, tempfile, os *)
  | Input
  | NamedTemporaryFile
  | PathExists (path : string)
  | OsRemove (path : string).

(** The type of a successful answer.  [UploadFile] records in [Content]
    the bytes of the local file it ships; the two paginated listings stand
    for the whole iteration of the page iterator. *)
Definition reply (c : call) : Type :=
  match c with
  | GetCallerIdentity => caller_identity
  | DescribeTrails => trails_response
  | ListInstances => instances_response
  | ListUsers _ _ => users_response
  | ListTargetsByRule _ => targets_response
  | ListObjectsV2 _ => paged objects_page
  | ListObjectVersions _ => paged versions_page
  | Input => string
  | NamedTemporaryFile => string
  | PathExists _ => bool
  | _ => unit
  end.

(** A provider: the account and operating system behind the clients.  It
    answers a call in a state with a reply or an exception and moves to a
    new state. *)
Class Provider := {
    account : Type;
    respond : forall c : call, account -> (exn + reply c) * account
}.

(** One issued call together with its answer. *)
Inductive event := Invoked (c : call) (answer : exn + reply c).

Definition ev_call (e : event) : call :=
  match e with Invoked c _ => c end.

Definition ev_ok (e : event) : bool :=
  match e with
  | Invoked _ (inr _) => true
  | Invoked _ (inl _) => false
  end.

(** ** The monad of a method body *)

Inductive outcome (A : Type) :=
  | Returns (a : A)
  | Raises (e : exn)
  | Timeout.
Arguments Returns {A} a.
Arguments Raises {A} e.
Arguments Timeout {A}.

Section Effects.
Context `{Provider}.

Record run (A : Type) := Run {
    value : outcome A;
    final : account;
    calls : list event;
    stdout : list string
}.
Global Arguments Run {A} _ _ _ _.
Global Arguments value {A} _.
Global Arguments final {A} _.
Global Arguments calls {A} _.
Global Arguments stdout {A} _.

Definition M (A : Type) : Type := account -> run A.

Definition ret {A} (a : A) : M A := fun s => Run (Returns a) s [] [].

Definition raise {A} (e : exn) : M A := fun s => Run (Raises e) s [] [].

(** The marker of a loop that was cut off; no handler catches it. *)
Definition timeout {A} : M A := fun s => Run Timeout s [] [].

(** A run that continues another: the calls and lines of the first part come
    before its own. *)
Definition after {A} (cs : list event) (out : list string) (r : run A) : run A :=
  match r with
  | Run v s cs' out' => Run v s (cs ++ cs') (out ++ out')
  end.

Definition bind {A B} (m : M A) (k : A -> M B) : M B := fun s =>
  match m s with
  | Run (Returns a) s' cs out => after cs out (k a s')
  | Run (Raises e) s' cs out => Run (Raises e) s' cs out
  | Run Timeout s' cs out => Run Timeout s' cs out
  end.

(** [try: m except ...: h e]; a handler re-raises what its clauses do
    not match. *)
Definition try_except {A} (m : M A) (h : exn -> M A) : M A := fun s =>
  match m s with
  | Run (Raises e) s' cs out => after cs out (h e s')
  | r => r
  end.

(** [try: m finally: fin]. *)
Definition try_finally {A} (m : M A) (fin : M unit) : M A := fun s =>
  match m s with
  | Run Timeout s' cs out => Run Timeout s' cs out
  | Run v s' cs out =>
      match fin s' with
      | Run (Returns _) s'' cs' out' => Run v s'' (cs ++ cs') (out ++ out')
      | Run (Raises e) s'' cs' out' => Run (Raises e) s'' (cs ++ cs') (out ++ out')
      | Run Timeout s'' cs' out' => Run Timeout s'' (cs ++ cs') (out ++ out')
      end
  end.

Definition invoke (c : call) : M (reply c) := fun s =>
  let (answer, s') := respond c s in
  Run (match answer with inl e => Raises e | inr a => Returns a end)
      s' [Invoked c answer] [].

Definition print (line : string) : M unit := fun s =>
  Run (Returns tt) s [] [line].

End Effects.

Declare Scope method_scope.
Delimit Scope method_scope with method.
Notation "x <- m ;; k" := (bind m (fun x => k))
  (at level 20, m at level 99, k at level 200, only parsing) : method_scope.
Notation "m ;; k" := (bind m (fun _ => k))
  (at level 100, k at level 200, only parsing, right associativity) : method_scope.
Open Scope method_scope.

(** Characters that string literals of the sources spell with escapes. *)
Definition nl : string := String (Ascii.ascii_of_nat 10) "".
Definition cr : string := String (Ascii.ascii_of_nat 13) "".
Definition dquote : Ascii.ascii := Ascii.ascii_of_nat 34.

(** The [for] statement over a list; the body runs for its effects. *)
Fixpoint for_each `{Provider} {A} (items : list A) (body : A -> M unit) : M unit :=
  match items with
  | [] => ret tt
  | x :: rest => body x ;; for_each rest body
  end.

(** A [for] statement whose body updates a local variable.  The variable
    keeps the value of the last completed iteration when the body raises,
    so the loop returns it together with the exception that ended it. *)
Fixpoint for_each_with `{Provider} {A S} (items : list A) (body : A -> S -> M S)
         (local : S) : M (S * option exn) :=
  match items with
  | [] => ret (local, None)
  | x :: rest =>
      step <- try_except (updated <- body x local ;; ret (inl updated))
                         (fun e => ret (inr e)) ;;
      match step with
      | inl updated => for_each_with rest body updated
      | inr e => ret (local, Some e)
      end
  end.

(** The same over a page iterator, which may itself stop on an error. *)
Definition for_each_page_with `{Provider} {A S} (it : paged A) (body : A -> S -> M S)
           (local : S) : M (S * option exn) :=
  r <- for_each_with (pages it) body local ;;
  match snd r with
  | Some e => ret r
  | None => ret (fst r, failure it)
  end.

(** Leaving such a loop: an exception that ended it propagates. *)
Definition reraise `{Provider} (exit : option exn) : M unit :=
  match exit with
  | Some e => raise e
  | None => ret tt
  end.

(** A global name of a module: bound when the module imported it, a
    [NameError] otherwise. *)
Definition global_name `{Provider} (imports : list string) (name : string) : M unit :=
  if bool_decide (name ∈ imports) then ret tt
  else raise (OtherError "NameError" ("name '" +:+ name +:+ "' is not defined")).

(** ** The directory listing and the CSV rows

    The three exporters ([export_identity_center_users] of both setup
    modules and [extract_users]) share, line for line, the pagination loop
    and the row construction.  They are embedded once. *)

Module Directory.
Section Directory.
Context `{Provider}.

(** [while True:] around [list_users]; [fuel] bounds the iterations. *)
Fixpoint list_users_loop (fuel : nat) (identity_store_id : string)
         (users : list user) (next_token : option string) : M (list user) :=
  match fuel with
  | 0 => timeout
  | S fuel' =>
      response <- (if truthy_str next_token
                   then invoke (ListUsers identity_store_id next_token)
                   else invoke (ListUsers identity_store_id None) : M users_response) ;;
      let users := users ++ default [] (Users response) in
      let next_token := NextToken response in
      if negb (truthy_str next_token) then ret users
      else list_users_loop fuel' identity_store_id users next_token
  end.

(** [next((e['Value'] for e in user.get('Emails', []) if e.get('Primary', False)), '')] *)
Fixpoint first_primary (emails : list email) : string :=
  match emails with
  | [] => ""
  | e :: rest => if default false (Primary e) then Value e else first_primary rest
  end.

Definition primary_email (u : user) : string :=
  first_primary (default [] (Emails u)).

Definition fieldnames : list string :=
  ["UserId"; "Username"; "Email"; "GivenName"; "FamilyName"].

(** The dictionary given to [writer.writerow], in [fieldnames] order. *)
Definition user_row (u : user) : list string :=
  [ default "" (UserId u);
    default "" (UserName u);
    primary_email u;
    default "" (Name u ≫= GivenName);
    default "" (Name u ≫= FamilyName) ].

(** [csv.writer] in the default dialect: a field is quoted when it holds
    the delimiter, the quote character or a line break, with its quote
    characters doubled; a record ends in CR LF. *)
Definition csv_special (a : Ascii.ascii) : bool :=
  bool_decide (a ∈ [Ascii.ascii_of_nat 44; dquote; Ascii.ascii_of_nat 13; Ascii.ascii_of_nat 10]).

Fixpoint csv_needs_quotes (s : string) : bool :=
  match s with
  | EmptyString => false
  | String a rest => csv_special a || csv_needs_quotes rest
  end.

Fixpoint csv_double_quotes (s : string) : string :=
  match s with
  | EmptyString => EmptyString
  | String a rest =>
      if bool_decide (a = dquote) then String a (String a (csv_double_quotes rest))
      else String a (csv_double_quotes rest)
  end.

Definition csv_field (s : string) : string :=
  if csv_needs_quotes s
  then String dquote (csv_double_quotes s) +:+ String dquote EmptyString
  else s.

Fixpoint csv_join (fields : list string) : string :=
  match fields with
  | [] => ""
  | [f] => f
  | f :: rest => f +:+ "," +:+ csv_join rest
  end.

Definition csv_record (fields : list string) : string :=
  csv_join (map csv_field fields) +:+ cr +:+ nl.

(** The text in the buffer after [writeheader] and one [writerow] per user. *)
Definition csv_text (users : list user) : string :=
  String.concat "" (map csv_record (fieldnames :: map user_row users)).

End Directory.
End Directory.

(** ** The setup class

    [QDeveloper3PSetup] is defined twice, in the command-line module and in
    the Lambda module; [__init__], [create_s3_bucket] and [setup_cloudtrail]
    are the same text in both and are embedded once. *)

Module Setup.

Record QDeveloper3PSetup := {
  bucket_name : pyval;
  region : pyval;
  account_id : option string
}.

Section Setup.
Context `{Provider} `{Runtime}.

(** [__init__]: creating the clients issues no request; the account id
    comes from [sts.get_caller_identity].  The region is taken to be one
    the client constructors accept: on a malformed region they raise before
    anything else happens, which is outside this embedding. *)
Definition init (bucket_name region : pyval) : M QDeveloper3PSetup :=
  identity <- invoke GetCallerIdentity ;;
  print ("Initializing Amazon Q Developer to 3P setup in " +:+ py_str region) ;;
  ret {| bucket_name := bucket_name; region := region; account_id := Account identity |}.

Definition bucket_policy (bucket_name : pyval) : pyval :=
  PDict [
    ("Version", PStr "2012-10-17");
    ("Statement", PList [
      PDict [
        ("Sid", PStr "AllowAmazonQAccess");
        ("Effect", PStr "Allow");
        ("Principal", PDict [("Service", PStr "q.amazonaws.com")]);
        ("Action", PList [PStr "s3:GetObject"; PStr "s3:ListBucket"; PStr "s3:PutObject"]);
        ("Resource", PList [
           PStr ("arn:aws:s3:::" +:+ py_str bucket_name);
           PStr ("arn:aws:s3:::" +:+ py_str bucket_name +:+ "/*")])
      ];
      PDict [
        ("Sid", PStr "AWSCloudTrailAclCheck");
        ("Effect", PStr "Allow");
        ("Principal", PDict [("Service", PStr "cloudtrail.amazonaws.com")]);
        ("Action", PStr "s3:GetBucketAcl");
        ("Resource", PStr ("arn:aws:s3:::" +:+ py_str bucket_name))
      ];
      PDict [
        ("Sid", PStr "AWSCloudTrailWrite");
        ("Effect", PStr "Allow");
        ("Principal", PDict [("Service", PStr "cloudtrail.amazonaws.com")]);
        ("Action", PStr "s3:PutObject");
        ("Resource", PStr ("arn:aws:s3:::" +:+ py_str bucket_name +:+ "/cloudtrail/*"));
        ("Condition", PDict [
           ("StringEquals", PDict [("s3:x-amz-acl", PStr "bucket-owner-full-control")])])
      ]
    ])
  ].

Definition create_s3_bucket (self : QDeveloper3PSetup) : M bool :=
  try_except
    (try_except
       (invoke (HeadBucket (bucket_name self)) ;;
        print ("Bucket " +:+ py_str (bucket_name self) +:+ " already exists"))
       (fun e =>
          match e with
          | ClientError code _ =>
              if String.eqb code "404" then
                (if py_eq_str (region self) "us-east-1"
                 then invoke (CreateBucket (bucket_name self) None)
                 else invoke (CreateBucket (bucket_name self) (Some (region self)))
                 : M unit) ;;
                print ("Created bucket: " +:+ py_str (bucket_name self))
              else raise e
          | _ => raise e
          end) ;;
     invoke (PutBucketPolicy (bucket_name self)
               (json_dumps (bucket_policy (bucket_name self)))) ;;
     print ("Updated bucket policy for " +:+ py_str (bucket_name self)
            +:+ " with Amazon Q and CloudTrail permissions") ;;
     ret true)
    (fun e =>
       match e with
       | ClientError _ _ =>
           print ("Error creating S3 bucket: " +:+ exn_text e) ;;
           ret false
       | _ => raise e
       end).

Definition default_trail_name : string := "QDeveloper3PTrail".

(** The [for]/[break] scan of [trails.get('trailList', [])]. *)
Fixpoint trail_exists (trail_list : list trail) (trail_name : string) : bool :=
  match trail_list with
  | [] => false
  | t :: rest =>
      if match trail_Name t with
         | Some n => String.eqb n trail_name
         | None => false
         end
      then true
      else trail_exists rest trail_name
  end.

Definition data_selector (name resource_type : string) : event_selector :=
  {| selector_Name := name;
     FieldSelectors := [
       {| Field := "eventCategory"; Equals := ["Data"] |};
       {| Field := "resources.type"; Equals := [resource_type] |} ] |}.

Definition advanced_event_selectors : list event_selector :=
  [ data_selector "Log CodeWhisperer events" "AWS::CodeWhisperer::Profile";
    data_selector "Log Q Developer Integration events" "AWS::QDeveloper::Integration";
    data_selector "Log CodeWhisperer Customization events" "AWS::CodeWhisperer::Customization" ].

Definition setup_cloudtrail_named (self : QDeveloper3PSetup) (trail_name : string) : M bool :=
  try_except
    (trails <- invoke DescribeTrails ;;
     (if negb (trail_exists (default [] (trailList trails)) trail_name)
      then
        invoke (CreateTrail trail_name (bucket_name self) "cloudtrail" true true) ;;
        print ("Created CloudTrail trail: " +:+ trail_name)
      else
        print ("CloudTrail trail " +:+ trail_name +:+ " already exists")) ;;
     invoke (PutEventSelectors trail_name advanced_event_selectors) ;;
     print ("Configured data events for CloudTrail trail: " +:+ trail_name) ;;
     invoke (StartLogging trail_name) ;;
     print ("Started logging for CloudTrail trail: " +:+ trail_name) ;;
     ret true)
    (fun e =>
       match e with
       | ClientError _ _ =>
           print ("Error setting up CloudTrail: " +:+ exn_text e) ;;
           ret false
       | _ => raise e
       end).

(** [setup_cloudtrail(self, trail_name="QDeveloper3PTrail")]; every caller
    uses the default. *)
Definition setup_cloudtrail (self : QDeveloper3PSetup) : M bool :=
  setup_cloudtrail_named self default_trail_name.

End Setup.
End Setup.

(** ** [setup_q_developer_3p_metrcis.py]: the command-line setup *)

Module SetupScript.
Import Setup.
Section SetupScript.
Context `{Provider} `{Runtime}.

Definition display_q_developer_instructions (self : QDeveloper3PSetup) : M bool :=
  print (nl +:+ str_repeat "=" 80) ;;
  print "MANUAL STEP: Amazon Q Developer Configuration" ;;
  print (str_repeat "=" 80) ;;
  print "Please complete the following steps manually:" ;;
  print (nl +:+ "1. Subscribe to Amazon Q Developer Pro") ;;
  print "2. Go to: https://us-east-1.console.aws.amazon.com/amazonq/developer/home?region=us-east-1#/settings?region=us-east-1" ;;
  print "3. Edit Preferences – Enable prompt logging:" ;;
  print ("   - Set S3 location to: s3://" +:+ py_str (bucket_name self)
         +:+ "/q-developer/prompt-logs/") ;;
  print "4. Edit Amazon Q Developer usage activity:" ;;
  print "   - Enable 'Collect granular metrics per user'" ;;
  print ("   - Set S3 location to: s3://" +:+ py_str (bucket_name self)
         +:+ "/q-developer/metrics/") ;;
  print (nl +:+ "After completing these steps, press Enter to continue...") ;;
  invoke Input ;;
  ret true.

(** The export through a named temporary file.  Writing to the local
    file is buffered text output and does not fail here, so the file is
    always closed when the [finally] block runs; creating, probing and
    removing the file go to the operating system. *)
Definition export_identity_center_users (fuel : nat) (self : QDeveloper3PSetup)
           (output_file : pyval) : M bool :=
  try_except
    (instances <- invoke ListInstances ;;
     match Instances instances with
     | Some (first :: _) =>
         let instance_arn := InstanceArn first in
         let identity_store_id := IdentityStoreId first in
         print ("Found IAM Identity Center instance: " +:+ instance_arn) ;;
         print ("Identity Store ID: " +:+ identity_store_id) ;;
         users <- Directory.list_users_loop fuel identity_store_id [] None ;;
         temp_file <- invoke NamedTemporaryFile ;;
         upload_success <-
           try_finally
             (let content := Directory.csv_text users in
              let temp_file_path := temp_file in
              try_except
                (let s3_key := "users/" +:+ py_str output_file in
                 invoke (UploadFile temp_file_path content (bucket_name self) s3_key) ;;
                 print ("Exported " +:+ pretty (length users) +:+ " users to s3://"
                        +:+ py_str (bucket_name self) +:+ "/" +:+ s3_key) ;;
                 ret true)
                (fun upload_error =>
                   match upload_error with
                   | ClientError _ _ =>
                       print ("Error uploading to S3: " +:+ exn_text upload_error) ;;
                       ret false
                   | _ => raise upload_error
                   end))
             (try_except
                (present <- invoke (PathExists temp_file) ;;
                 if (present : bool) then invoke (OsRemove temp_file) else ret tt)
                (fun cleanup_error =>
                   match cleanup_error with
                   | OtherError cls _ =>
                       if is_os_error cls
                       then print ("Warning: Could not clean up temporary file "
                                   +:+ temp_file +:+ ": " +:+ exn_text cleanup_error)
                       else raise cleanup_error
                   | ClientError _ _ => raise cleanup_error
                   end)) ;;
         ret upload_success
     | _ =>
         print "No IAM Identity Center instances found" ;;
         ret false
     end)
    (fun e =>
       match e with
       | ClientError _ _ =>
           print ("Error exporting IAM Identity Center users: " +:+ exn_text e) ;;
           ret false
       | OtherError _ _ =>
           print ("Unexpected error exporting users: " +:+ exn_text e) ;;
           ret false
       end).

Definition run_setup (fuel : nat) (self : QDeveloper3PSetup)
           (export_users output_file : pyval) : M bool :=
  print "Starting Amazon Q Developer to 3P setup..." ;;
  created <- create_s3_bucket self ;;
  if negb created then
    print "Failed to create S3 bucket. Aborting setup." ;;
    ret false
  else
    display_q_developer_instructions self ;;
    trail_ready <- setup_cloudtrail self ;;
    if negb trail_ready then
      print "Failed to setup CloudTrail. Aborting setup." ;;
      ret false
    else
      (if truthy export_users then
         exported <- export_identity_center_users fuel self output_file ;;
         if negb exported
         then print "Failed to export IAM Identity Center users."
         else ret tt
       else ret tt) ;;
      print (nl +:+ "Setup completed successfully!") ;;
      print ("S3 bucket '" +:+ py_str (bucket_name self)
             +:+ "' is configured for Amazon Q Developer data ingestion") ;;
      print ("CloudTrail is configured to log Q Developer events to '"
             +:+ py_str (bucket_name self) +:+ "/cloudtrail/'") ;;
      (if truthy export_users then
         print ("IAM Identity Center users exported to s3://" +:+ py_str (bucket_name self)
                +:+ "/users/" +:+ py_str output_file)
       else ret tt) ;;
      ret true.

End SetupScript.
End SetupScript.

(** What a Lambda handler returns: [{'statusCode': ..., 'body': ...}]. *)
Record response := { statusCode : Z; body : string }.

(** ** [q_developer_3p_metrics_setup_lambda.py]: setup as a Lambda handler *)

Module SetupLambda.
Import Setup.

(** The names the module binds with [import] and [from ... import]. *)
Definition imports : list string :=
  ["json"; "csv"; "time"; "os"; "ClientError"; "boto3"].

Section SetupLambda.
Context `{Provider} `{Runtime}.

(** The export through an in-memory buffer, [io.StringIO()]. *)
Definition export_identity_center_users (fuel : nat) (self : QDeveloper3PSetup)
           (output_file : pyval) : M bool :=
  try_except
    (instances <- invoke ListInstances ;;
     match Instances instances with
     | Some (first :: _) =>
         let instance_arn := InstanceArn first in
         let identity_store_id := IdentityStoreId first in
         print ("Found IAM Identity Center instance: " +:+ instance_arn) ;;
         print ("Identity Store ID: " +:+ identity_store_id) ;;
         users <- Directory.list_users_loop fuel identity_store_id [] None ;;
         global_name imports "io" ;;
         global_name imports "csv" ;;
         let csv_buffer := Directory.csv_text users in
         let s3_key := "users/" +:+ py_str output_file in
         invoke (PutObject (bucket_name self) s3_key csv_buffer) ;;
         print ("Exported " +:+ pretty (length users) +:+ " users to s3://"
                +:+ py_str (bucket_name self) +:+ "/" +:+ s3_key) ;;
         ret true
     | _ =>
         print "No IAM Identity Center instances found" ;;
         ret false
     end)
    (fun e =>
       match e with
       | ClientError _ _ =>
           print ("Error exporting IAM Identity Center users: " +:+ exn_text e) ;;
           ret false
       | OtherError _ _ =>
           print ("Unexpected error exporting users: " +:+ exn_text e) ;;
           ret false
       end).

Definition run_setup (fuel : nat) (self : QDeveloper3PSetup)
           (export_users output_file : pyval) : M bool :=
  print "Starting Amazon Q Developer to 3P setup..." ;;
  created <- create_s3_bucket self ;;
  if negb created then
    print "Failed to create S3 bucket. Aborting setup." ;;
    ret false
  else
    trail_ready <- setup_cloudtrail self ;;
    if negb trail_ready then
      print "Failed to setup CloudTrail. Aborting setup." ;;
      ret false
    else
      (if truthy export_users then
         exported <- export_identity_center_users fuel self output_file ;;
         if negb exported
         then print "Failed to export IAM Identity Center users."
         else ret tt
       else ret tt) ;;
      print (nl +:+ "Setup completed successfully!") ;;
      print ("S3 bucket '" +:+ py_str (bucket_name self)
             +:+ "' is configured for Amazon Q Developer data ingestion") ;;
      print ("CloudTrail is configured to log Q Developer events to '"
             +:+ py_str (bucket_name self) +:+ "/cloudtrail/'") ;;
      (if truthy export_users then
         print ("IAM Identity Center users exported to s3://" +:+ py_str (bucket_name self)
                +:+ "/users/" +:+ py_str output_file)
       else ret tt) ;;
      ret true.

Definition lambda_handler (fuel : nat) (event : gmap string pyval) : M response :=
  let bucket_name := default PNone (event !! "bucket_name") in
  let region := default (PStr "us-east-1") (event !! "region") in
  let export_users := default (PBool false) (event !! "export_users") in
  let output_file := default (PStr "users.csv") (event !! "output_file") in
  if negb (truthy bucket_name) then
    ret {| statusCode := 400;
           body := json_dumps (PDict [
             ("message", PStr "Missing required parameter: bucket_name")]) |}
  else
    setup <- init bucket_name region ;;
    result <- run_setup fuel setup export_users output_file ;;
    ret {| statusCode := if result then 200 else 500;
           body := json_dumps (PDict [
             ("message", PStr (if result then "Setup completed successfully"
                               else "Setup failed"));
             ("bucket_name", bucket_name);
             ("region", region);
             ("export_users", export_users);
             ("output_file", if truthy export_users then output_file else PNone)]) |}.

End SetupLambda.
End SetupLambda.

(** ** [iam_identity_center_user_extract_lambda.py]: the directory export *)

Module UserExtract.

Definition imports : list string :=
  ["json"; "csv"; "io"; "boto3"; "ClientError"].

Record IAMIdentityCenterUserExtractor := {
  bucket_name : pyval;
  region : pyval
}.

(** The dictionary [extract_users] returns; [user_count] is set on success
    only. *)
Record extract_result := {
  success : bool;
  message : string;
  user_count : option nat
}.

Section UserExtract.
Context `{Provider} `{Runtime}.

(** [__init__], for a region the client constructors accept (see
    [Setup.init]). *)
Definition init (bucket_name region : pyval) : M IAMIdentityCenterUserExtractor :=
  print ("Initializing IAM Identity Center User Extractor in " +:+ py_str region) ;;
  ret {| bucket_name := bucket_name; region := region |}.

Definition extract_users (fuel : nat) (self : IAMIdentityCenterUserExtractor)
           (output_file : pyval) : M extract_result :=
  try_except
    (instances <- invoke ListInstances ;;
     match Instances instances with
     | Some (first :: _) =>
         let instance_arn := InstanceArn first in
         let identity_store_id := IdentityStoreId first in
         print ("Found IAM Identity Center instance: " +:+ instance_arn) ;;
         print ("Identity Store ID: " +:+ identity_store_id) ;;
         users <- Directory.list_users_loop fuel identity_store_id [] None ;;
         global_name imports "io" ;;
         global_name imports "csv" ;;
         let csv_buffer := Directory.csv_text users in
         let s3_key := "users/" +:+ py_str output_file in
         invoke (PutObject (bucket_name self) s3_key csv_buffer) ;;
         print ("Exported " +:+ pretty (length users) +:+ " users to s3://"
                +:+ py_str (bucket_name self) +:+ "/" +:+ s3_key) ;;
         ret {| success := true;
                message := "Successfully exported " +:+ pretty (length users)
                           +:+ " users to S3";
                user_count := Some (length users) |}
     | _ =>
         print "No IAM Identity Center instances found" ;;
         ret {| success := false;
                message := "No IAM Identity Center instances found";
                user_count := None |}
     end)
    (fun e =>
       match e with
       | ClientError _ _ =>
           let error_message := "Error exporting IAM Identity Center users: " +:+ exn_text e in
           print error_message ;;
           ret {| success := false; message := error_message; user_count := None |}
       | OtherError _ _ =>
           let error_message := "Unexpected error exporting users: " +:+ exn_text e in
           print error_message ;;
           ret {| success := false; message := error_message; user_count := None |}
       end).

Definition lambda_handler (fuel : nat) (event : gmap string pyval) : M response :=
  let bucket_name := default PNone (event !! "bucket_name") in
  let region := default (PStr "us-east-1") (event !! "region") in
  let output_file := default (PStr "users.csv") (event !! "output_file") in
  if negb (truthy bucket_name) then
    ret {| statusCode := 400;
           body := json_dumps (PDict [
             ("message", PStr "Missing required parameter: bucket_name")]) |}
  else
    extractor <- init bucket_name region ;;
    result <- extract_users fuel extractor output_file ;;
    ret {| statusCode := if success result then 200 else 500;
           body := json_dumps (PDict [
             ("message", PStr (message result));
             ("bucket_name", bucket_name);
             ("region", region);
             ("output_file", output_file);
             ("user_count", PInt (Z.of_nat (default 0 (user_count result))))]) |}.

End UserExtract.
End UserExtract.

(** ** [cleanup_q_developer_3p_metrics.py]: the teardown *)

Module Cleanup.

Record QDeveloper3PCleanup := {
  bucket_name : pyval;
  region : pyval
}.

Definition rules_to_delete : list string :=
  ["QDeveloper3PSetupSchedule"; "IAMIdentityCenterUserExtractSchedule"].

Definition functions_to_delete : list string :=
  ["QDeveloper3PSetup"; "IAMIdentityCenterUserExtract"].

Record role_info := { role_name : string; policy_name : string }.

Definition roles_to_delete : list role_info :=
  [ {| role_name := "lambda-q-developer-role";
       policy_name := "QDeveloper3PPermissions" |};
    {| role_name := "lambda-iam-identity-center-extract-role";
       policy_name := "IAMIdentityCenterExtractPermissions" |} ].

Section Cleanup.
Context `{Provider} `{Runtime}.

(** [__init__], for a region the client constructors accept (see
    [Setup.init]). *)
Definition init (bucket_name region : pyval) : M QDeveloper3PCleanup :=
  print ("Initializing cleanup for region " +:+ py_str region) ;;
  ret {| bucket_name := bucket_name; region := region |}.

(** The body of the loop of [delete_eventbridge_rules]. *)
Definition delete_eventbridge_rule (rule_name : string) : M unit :=
  try_except
    (targets_response <- invoke (ListTargetsByRule rule_name) ;;
     (if truthy_list (Targets targets_response) then
        let target_ids := map Id (default [] (Targets targets_response)) in
        invoke (RemoveTargets rule_name target_ids) ;;
        print ("Removed targets from EventBridge rule: " +:+ rule_name)
      else ret tt) ;;
     invoke (DeleteRule rule_name) ;;
     print ("Deleted EventBridge rule: " +:+ rule_name))
    (fun e =>
       match e with
       | ClientError code _ =>
           if String.eqb code "ResourceNotFoundException"
           then print ("EventBridge rule " +:+ rule_name +:+ " not found (already deleted)")
           else print ("Error deleting EventBridge rule " +:+ rule_name +:+ ": "
                       +:+ exn_text e)
       | _ => raise e
       end).

Definition delete_eventbridge_rules (self : QDeveloper3PCleanup) : M unit :=
  for_each rules_to_delete delete_eventbridge_rule.

(** The body of the loop of [delete_lambda_functions]. *)
Definition delete_lambda_function (function_name : string) : M unit :=
  try_except
    (invoke (DeleteFunction function_name) ;;
     print ("Deleted Lambda function: " +:+ function_name))
    (fun e =>
       match e with
       | ClientError code _ =>
           if String.eqb code "ResourceNotFoundException"
           then print ("Lambda function " +:+ function_name +:+ " not found (already deleted)")
           else print ("Error deleting Lambda function " +:+ function_name +:+ ": "
                       +:+ exn_text e)
       | _ => raise e
       end).

Definition delete_lambda_functions (self : QDeveloper3PCleanup) : M unit :=
  for_each functions_to_delete delete_lambda_function.

(** The body of the loop of [delete_iam_roles_and_policies]. *)
Definition delete_iam_role_and_policy (info : role_info) : M unit :=
  let role_name := role_name info in
  let policy_name := policy_name info in
  try_except
    (try_except
       (invoke (DeleteRolePolicy role_name policy_name) ;;
        print ("Deleted inline policy " +:+ policy_name +:+ " from role " +:+ role_name))
       (fun e =>
          match e with
          | ClientError code _ =>
              if negb (String.eqb code "NoSuchEntity")
              then print ("Error deleting policy " +:+ policy_name +:+ ": " +:+ exn_text e)
              else ret tt
          | _ => raise e
          end) ;;
     invoke (DeleteRole role_name) ;;
     print ("Deleted IAM role: " +:+ role_name))
    (fun e =>
       match e with
       | ClientError code _ =>
           if String.eqb code "NoSuchEntity"
           then print ("IAM role " +:+ role_name +:+ " not found (already deleted)")
           else print ("Error deleting IAM role " +:+ role_name +:+ ": " +:+ exn_text e)
       | _ => raise e
       end).

Definition delete_iam_roles_and_policies (self : QDeveloper3PCleanup) : M unit :=
  for_each roles_to_delete delete_iam_role_and_policy.

Definition trail_name (self : QDeveloper3PCleanup) : string :=
  "q-developer-3p-trail-" +:+ py_str (bucket_name self).

Definition delete_cloudtrail (self : QDeveloper3PCleanup) : M unit :=
  let trail_name := trail_name self in
  try_except
    (invoke (DeleteTrail trail_name) ;;
     print ("Deleted CloudTrail: " +:+ trail_name))
    (fun e =>
       match e with
       | ClientError code _ =>
           if String.eqb code "TrailNotFoundException"
           then print ("CloudTrail " +:+ trail_name +:+ " not found (already deleted)")
           else print ("Error deleting CloudTrail " +:+ trail_name +:+ ": " +:+ exn_text e)
       | _ => raise e
       end).

(** The body of the loop over the pages of [list_objects_v2]. *)
Definition delete_current_objects (self : QDeveloper3PCleanup)
           (page : objects_page) (objects_deleted : nat) : M nat :=
  match Contents page with
  | Some contents =>
      let objects_to_delete :=
        map (fun obj => {| oid_Key := Key obj; oid_VersionId := None |}) contents in
      match objects_to_delete with
      | _ :: _ =>
          invoke (DeleteObjects (bucket_name self) objects_to_delete) ;;
          ret (objects_deleted + length objects_to_delete)
      | [] => ret objects_deleted
      end
  | None => ret objects_deleted
  end.

(** The body of the loop over the pages of [list_object_versions]. *)
Definition delete_object_versions (self : QDeveloper3PCleanup)
           (page : versions_page) (objects_deleted : nat) : M nat :=
  let as_id := fun obj =>
    {| oid_Key := version_Key obj; oid_VersionId := Some (VersionId obj) |} in
  let versions_to_delete :=
    map as_id (default [] (Versions page)) ++ map as_id (default [] (DeleteMarkers page)) in
  match versions_to_delete with
  | _ :: _ =>
      invoke (DeleteObjects (bucket_name self) versions_to_delete) ;;
      ret (objects_deleted + length versions_to_delete)
  | [] => ret objects_deleted
  end.

Definition empty_s3_bucket (self : QDeveloper3PCleanup) : M unit :=
  try_except
    (invoke (HeadBucket (bucket_name self)) ;;
     pages <- invoke (ListObjectsV2 (bucket_name self)) ;;
     current <- for_each_page_with pages (delete_current_objects self) 0 ;;
     reraise (snd current) ;;
     let objects_deleted := fst current in
     versions <-
       try_except
         (pages <- invoke (ListObjectVersions (bucket_name self)) ;;
          for_each_page_with pages (delete_object_versions self) objects_deleted)
         (fun e => ret (objects_deleted, Some e)) ;;
     match snd versions with
     | Some (OtherError cls text) => raise (OtherError cls text)
     | _ => ret tt
     end ;;
     let objects_deleted := fst versions in
     print ("Emptied S3 bucket " +:+ py_str (bucket_name self) +:+ " ("
            +:+ pretty objects_deleted +:+ " objects deleted)"))
    (fun e =>
       match e with
       | ClientError code _ =>
           if String.eqb code "404"
           then print ("S3 bucket " +:+ py_str (bucket_name self)
                       +:+ " not found (already deleted)")
           else print ("Error emptying S3 bucket " +:+ py_str (bucket_name self) +:+ ": "
                       +:+ exn_text e)
       | _ => raise e
       end).

Definition delete_s3_bucket (self : QDeveloper3PCleanup) : M unit :=
  try_except
    (invoke (DeleteBucket (bucket_name self)) ;;
     print ("Deleted S3 bucket: " +:+ py_str (bucket_name self)))
    (fun e =>
       match e with
       | ClientError code _ =>
           if String.eqb code "NoSuchBucket"
           then print ("S3 bucket " +:+ py_str (bucket_name self)
                       +:+ " not found (already deleted)")
           else print ("Error deleting S3 bucket " +:+ py_str (bucket_name self) +:+ ": "
                       +:+ exn_text e)
       | _ => raise e
       end).

Definition run_cleanup (self : QDeveloper3PCleanup) : M unit :=
  print "Starting cleanup for Q Developer 3P integration..." ;;
  print ("Bucket: " +:+ py_str (bucket_name self)) ;;
  print ("Region: " +:+ py_str (region self)) ;;
  print (str_repeat "-" 50) ;;
  print "1. Deleting EventBridge rules..." ;;
  delete_eventbridge_rules self ;;
  print (nl +:+ "2. Deleting Lambda functions...") ;;
  delete_lambda_functions self ;;
  print (nl +:+ "3. Deleting IAM roles and policies...") ;;
  delete_iam_roles_and_policies self ;;
  print (nl +:+ "4. Deleting CloudTrail...") ;;
  delete_cloudtrail self ;;
  print (nl +:+ "5. Emptying S3 bucket...") ;;
  empty_s3_bucket self ;;
  print (nl +:+ "6. Deleting S3 bucket...") ;;
  delete_s3_bucket self ;;
  print (nl +:+ str_repeat "=" 50) ;;
  print "Cleanup completed!" ;;
  print (nl +:+ "IMPORTANT: Manual steps required:") ;;
  print "1. Go to Amazon Q Developer console" ;;
  print "2. Disable prompt logging in Preferences" ;;
  print "3. Disable 'Collect granular metrics per user' in usage activity" ;;
  print "4. Remove S3 location configurations".

End Cleanup.
End Cleanup.

(** ** Reading a recorded trace *)

(** The targets a successful [list_targets_by_rule] reported. *)
Definition listed_targets (e : event) : option (list target) :=
  match e with
  | Invoked (ListTargetsByRule _) (inr listing) => Targets listing
  | _ => None
  end.

(** The pages a listing of current objects, or of versions, yielded. *)
Definition listed_objects (e : event) : option (paged objects_page) :=
  match e with
  | Invoked (ListObjectsV2 _) (inr it) => Some it
  | _ => None
  end.

Definition listed_versions (e : event) : option (paged versions_page) :=
  match e with
  | Invoked (ListObjectVersions _) (inr it) => Some it
  | _ => None
  end.


Definition is_put_object (c : call) : bool :=
  match c with PutObject _ _ _ => true | UploadFile _ _ _ _ => true | _ => false end.

(** How many of the recorded calls satisfy a test. *)
Definition count_calls (test : call -> bool) (trace : list event) : nat :=
  length (filter (fun e => test (ev_call e) = true) trace).

(** What both handlers return on a payload they reject. *)
Definition missing_parameter `{Runtime} : response :=
  {| statusCode := 400;
     body := json_dumps (PDict [("message", PStr "Missing required parameter: bucket_name")]) |}.

(** ** Sample providers

    Concrete providers on which the statements below are exercised.  A
    stateless provider answers by the call alone. *)

Definition accept (c : call) : exn + reply c :=
  inr (match c return reply c with
       | GetCallerIdentity => {| Account := Some "123456789012" |}
       | DescribeTrails => {| trailList := Some [] |}
       | ListInstances => {| Instances := Some [] |}
       | ListUsers _ _ => {| Users := Some []; NextToken := None |}
       | ListTargetsByRule _ => {| Targets := Some [] |}
       | ListObjectsV2 _ => {| pages := []; failure := None |}
       | ListObjectVersions _ => {| pages := []; failure := None |}
       | Input => ""
       | NamedTemporaryFile => "/tmp/tmpk3v9x2.csv"
       | PathExists _ => true
       | _ => tt
       end).

Definition stateless (answer : forall c : call, option (exn + reply c)) : Provider :=
  {| account := unit;
     respond := fun c s => (default (accept c) (answer c), s) |}.

Definition sample_runtime : Runtime :=
  {| py_repr := fun _ => "[...]"; json_dumps := fun _ => "{...}" |}.

(** Every call is accepted. *)
Definition obliging : Provider := stateless (fun _ => None).

(** The bucket is absent and may not be created. *)
Definition creation_denied : Provider :=
  stateless (fun c =>
    match c return option (exn + reply c) with
    | HeadBucket _ => Some (inl (ClientError "404" "Not Found"))
    | CreateBucket _ _ => Some (inl (ClientError "AccessDenied" "Access Denied"))
    | _ => None
    end).

(** The bucket is absent and can be created. *)
Definition bucket_absent : Provider :=
  stateless (fun c =>
    match c return option (exn + reply c) with
    | HeadBucket _ => Some (inl (ClientError "404" "Not Found"))
    | _ => None
    end).

(** No trail exists and the bucket policy does not let CloudTrail write. *)
Definition trail_refused : Provider :=
  stateless (fun c =>
    match c return option (exn + reply c) with
    | CreateTrail _ _ _ _ _ =>
        Some (inl (ClientError "InsufficientS3BucketPolicyException" "Incorrect S3 bucket policy"))
    | _ => None
    end).

(** The trail of the setup already exists. *)
Definition trail_present : Provider :=
  stateless (fun c =>
    match c return option (exn + reply c) with
    | DescribeTrails =>
        Some (inr {| trailList := Some [ {| trail_Name := Some "QDeveloper3PTrail" |} ] |})
    | _ => None
    end).

Definition sample_setup : Setup.QDeveloper3PSetup :=
  {| Setup.bucket_name := PStr "q-logs";
     Setup.region := PStr "us-east-1";
     Setup.account_id := Some "123456789012" |}.

Definition sample_setup_west : Setup.QDeveloper3PSetup :=
  {| Setup.bucket_name := PStr "q-logs";
     Setup.region := PStr "us-west-2";
     Setup.account_id := Some "123456789012" |}.

(** Payloads of the Lambda handlers. *)
Definition sample_event : gmap string pyval :=
  {[ "bucket_name" := PStr "q-logs" ]}.

Definition empty_name_event : gmap string pyval :=
  {[ "bucket_name" := PStr ""; "region" := PStr "eu-west-1" ]}.

(** ** The pages of a directory listing *)

(** The provider answers the requests of the listing loop with the given
    pages: the first request carries [token], each later one the token of
    the page before it, and only the last page carries no token the loop
    would follow. *)
Inductive served `{Provider} (store : string) :
  option string -> list users_response -> account -> account -> Prop :=
| served_last token page s s' :
    respond (ListUsers store token) s = (inr page, s') ->
    truthy_str (NextToken page) = false ->
    served store token [page] s s'
| served_more token page rest s s' s'' :
    respond (ListUsers store token) s = (inr page, s') ->
    truthy_str (NextToken page) = true ->
    served store (NextToken page) rest s' s'' ->
    served store token (page :: rest) s s''.

(** The requests that fetch these pages, with their answers. *)
Fixpoint listing_trace (store : string) (token : option string)
         (pages : list users_response) : list event :=
  match pages with
  | [] => []
  | page :: rest =>
      Invoked (ListUsers store token) (inr page)
      :: listing_trace store (NextToken page) rest
  end.

(** The users of all pages, in order. *)
Definition users_of (pages : list users_response) : list user :=
  concat (map (fun page => default [] (Users page)) pages).

Definition total_users (pages : list users_response) : nat :=
  list_sum (map (fun page => length (default [] (Users page))) pages).

(** An email entry that [e.get('Primary', False)] does not select. *)
Definition not_primary (e : email) : Prop := Primary e <> Some true.

(** A directory of two users listed in two pages. *)
Definition first_user : user :=
  {| UserId := Some "user-1";
     UserName := Some "testuser1";
     Name := Some {| GivenName := Some "Test1"; FamilyName := Some "User1" |};
     Emails := Some [ {| Value := "test1@example.com"; Primary := Some true |} ] |}.

Definition second_user : user :=
  {| UserId := Some "user-2";
     UserName := Some "testuser2";
     Name := Some {| GivenName := Some "Test2"; FamilyName := None |};
     Emails := Some [ {| Value := "old@example.com"; Primary := None |} ] |}.

Definition first_page : users_response :=
  {| Users := Some [first_user]; NextToken := Some "token123" |}.

Definition second_page : users_response :=
  {| Users := Some [second_user]; NextToken := None |}.

Definition sample_instance : sso_instance :=
  {| InstanceArn := "arn:aws:sso:::instance/ssoins-12345"; IdentityStoreId := "d-12345" |}.

Definition two_pages : Provider :=
  stateless (fun c =>
    match c return option (exn + reply c) with
    | ListInstances => Some (inr {| Instances := Some [sample_instance] |})
    | ListUsers _ None => Some (inr first_page)
    | ListUsers _ (Some _) => Some (inr second_page)
    | _ => None
    end).

Definition sample_extractor : UserExtract.IAMIdentityCenterUserExtractor :=
  {| UserExtract.bucket_name := PStr "q-logs"; UserExtract.region := PStr "us-east-1" |}.

(** ** Footprints *)

(** A method issues only calls that satisfy [allowed], from every state. *)
Definition only `{Provider} {A} (allowed : call -> Prop) (m : M A) : Prop :=
  forall s : account, Forall (fun e => allowed (ev_call e)) (calls (m s)).

(** A call that ships no object to the bucket. *)
Definition no_upload (c : call) : Prop := is_put_object c = false.


(** ** Absent resources *)

(** The error code by which the provider reports that the resource a
    teardown call addresses does not exist. *)
Definition not_found_code (c : call) : option string :=
  match c with
  | ListTargetsByRule _ => Some "ResourceNotFoundException"
  | DeleteFunction _ => Some "ResourceNotFoundException"
  | DeleteRolePolicy _ _ => Some "NoSuchEntity"
  | DeleteRole _ => Some "NoSuchEntity"
  | DeleteTrail _ => Some "TrailNotFoundException"
  | HeadBucket _ => Some "404"
  | DeleteBucket _ => Some "NoSuchBucket"
  | _ => None
  end.

(** An account in which nothing of the setup exists. *)
Definition nothing_exists : Provider :=
  stateless (fun c =>
    match not_found_code c with
    | Some code => Some (inl (ClientError code "An error occurred: not found"))
    | None => None
    end).

Definition sample_cleanup : Cleanup.QDeveloper3PCleanup :=
  {| Cleanup.bucket_name := PStr "q-logs"; Cleanup.region := PStr "us-east-1" |}.

(** ** Orderings of a teardown trace *)

(** The client object through which the sources issue a call. *)
Inductive client :=
| StsClient | S3Client | CloudTrailClient | SsoAdminClient | IdentityStoreClient
| LambdaClient | IamClient | EventsClient | OperatingSystem.

Definition client_of (c : call) : client :=
  match c with
  | GetCallerIdentity => StsClient
  | HeadBucket _ | CreateBucket _ _ | PutBucketPolicy _ _ | PutObject _ _ _
  | UploadFile _ _ _ _ | ListObjectsV2 _ | ListObjectVersions _
  | DeleteObjects _ _ | DeleteBucket _ => S3Client
  | DescribeTrails | CreateTrail _ _ _ _ _ | PutEventSelectors _ _
  | StartLogging _ | DeleteTrail _ => CloudTrailClient
  | ListInstances => SsoAdminClient
  | ListUsers _ _ => IdentityStoreClient
  | DeleteFunction _ => LambdaClient
  | DeleteRolePolicy _ _ | DeleteRole _ => IamClient
  | ListTargetsByRule _ | RemoveTargets _ _ | DeleteRule _ => EventsClient
  | Input | NamedTemporaryFile | PathExists _ | OsRemove _ => OperatingSystem
  end.

Definition uses_s3 (e : event) : bool :=
  match client_of (ev_call e) with S3Client => true | _ => false end.

Definition answered (e : event) : Prop := ev_ok e = true.

(** Every [delete_rule] comes after a successful listing of the targets of
    that rule and, when the listing showed targets, after a successful
    [remove_targets] of exactly those targets in between. *)
Definition targets_before_rule (trace : list event) : Prop :=
  forall before e after rule,
    trace = before ++ e :: after ->
    ev_call e = DeleteRule rule ->
    exists earlier listing between,
      before = earlier ++ listing :: between /\
      ev_call listing = ListTargetsByRule rule /\
      answered listing /\
      (forall targets,
         listed_targets listing = Some targets -> targets <> [] ->
         exists removal,
           In removal between /\
           ev_call removal = RemoveTargets rule (map Id targets) /\
           answered removal).

(** Every [delete_role] comes after a [delete_role_policy] on that role. *)
Definition policy_before_role (trace : list event) : Prop :=
  forall before e after role,
    trace = before ++ e :: after ->
    ev_call e = DeleteRole role ->
    exists removal policy,
      In removal before /\ ev_call removal = DeleteRolePolicy role policy.

(** The entries [empty_s3_bucket] deletes for a page of current objects and
    for a page of versions and delete markers. *)
Definition current_batch (page : objects_page) : list object_id :=
  match Contents page with
  | Some contents => map (fun obj => {| oid_Key := Key obj; oid_VersionId := None |}) contents
  | None => []
  end.

Definition version_batch (page : versions_page) : list object_id :=
  let as_id := fun obj =>
    {| oid_Key := version_Key obj; oid_VersionId := Some (VersionId obj) |} in
  map as_id (default [] (Versions page)) ++ map as_id (default [] (DeleteMarkers page)).

(** Pages without entries cause no call. *)
Fixpoint nonempty {A} (batches : list (list A)) : list (list A) :=
  match batches with
  | [] => []
  | [] :: rest => nonempty rest
  | batch :: rest => batch :: nonempty rest
  end.

(** [events] delete the given batches one call each, in order; they may stop
    early, but only at a call that failed. *)
Definition batches_deleted (bucket : pyval) (batches : list (list object_id))
           (events : list event) : Prop :=
  map ev_call events `prefix_of` map (DeleteObjects bucket) batches /\
  (Forall answered events ->
   map ev_call events = map (DeleteObjects bucket) batches).

(** The part of the emptying that deals with versions and delete markers:
    their listing, then the deletion of its pages. *)
Definition versions_run (bucket : pyval) (events : list event) : Prop :=
  exists listing deleted,
    events = listing :: deleted /\
    ev_call listing = ListObjectVersions bucket /\
    match listed_versions listing with
    | Some it => batches_deleted bucket (nonempty (map version_batch (pages it))) deleted
    | None => deleted = []
    end.

(** The current objects of a listing were all deleted: no deletion failed and
    the listing itself ended normally. *)
Definition all_deleted {A} (it : paged A) (deleted : list event) : Prop :=
  Forall answered deleted /\ failure it = None.

(** The calls of one emptying of the bucket: the probe; then, when the probe
    found the bucket, the listing of current objects and the deletion of its
    pages; then, exactly when all of them were deleted, the versions and
    delete markers. *)
Definition emptying_run (bucket : pyval) (events : list event) : Prop :=
  exists probe rest,
    events = probe :: rest /\
    ev_call probe = HeadBucket bucket /\
    if ev_ok probe
    then exists listing current versions,
        rest = listing :: current ++ versions /\
        ev_call listing = ListObjectsV2 bucket /\
        match listed_objects listing with
        | Some it =>
            batches_deleted bucket (nonempty (map current_batch (pages it))) current /\
            (all_deleted it current /\ versions_run bucket versions \/
             ~ all_deleted it current /\ versions = [])
        | None => current = [] /\ versions = []
        end
    else rest = [].

(** [delete_bucket] is the last call of the run, and the emptying of the
    bucket is what the S3 client did before it. *)
Definition emptied_before_bucket (bucket : pyval) (trace : list event) : Prop :=
  forall before e after,
    trace = before ++ e :: after ->
    ev_call e = DeleteBucket bucket ->
    after = [] /\
    exists others emptying,
      before = others ++ emptying /\
      Forall (fun x => client_of (ev_call x) <> S3Client) others /\
      emptying_run bucket emptying.

(** A bucket with two pages of current objects (the second empty) and one
    page of versions and delete markers; rules with targets. *)
Definition stocked_bucket : Provider :=
  stateless (fun c =>
    match c return option (exn + reply c) with
    | ListTargetsByRule _ =>
        Some (inr {| Targets := Some [ {| Id := "1" |}; {| Id := "2" |} ] |})
    | ListObjectsV2 _ =>
        Some (inr {| pages := [ {| Contents := Some [ {| Key := "file1.txt" |};
                                                      {| Key := "file2.txt" |} ] |};
                                {| Contents := None |} ];
                     failure := None |})
    | ListObjectVersions _ =>
        Some (inr {| pages := [ {| Versions := Some [ {| version_Key := "file1.txt";
                                                         VersionId := "v1" |} ];
                                   DeleteMarkers := Some [ {| version_Key := "old.txt";
                                                              VersionId := "v7" |} ] |} ];
                     failure := None |})
    | _ => None
    end).

(** A bucket with two current objects that may not be deleted. *)
Definition deletion_refused : Provider :=
  stateless (fun c =>
    match c return option (exn + reply c) with
    | ListObjectsV2 _ =>
        Some (inr {| pages := [ {| Contents := Some [ {| Key := "file1.txt" |};
                                                      {| Key := "file2.txt" |} ] |} ];
                     failure := None |})
    | DeleteObjects _ _ => Some (inl (ClientError "AccessDenied" "Access Denied"))
    | DeleteBucket _ =>
        Some (inl (ClientError "BucketNotEmpty"
                               "The bucket you tried to delete is not empty"))
    | _ => None
    end).

(** A method whose calls, from every state, form a trace with property [P]. *)
Definition always `{Provider} {A} (P : list event -> Prop) (m : M A) : Prop :=
  forall s : account, P (calls (m s)).

(** ** Reading a CSV text

    What the exporters write is meant for a reader of CSV.  [read] is the
    reading of the default dialect of the [csv] module: the delimiter is
    the comma, a field that opens with the double quote runs to the next
    double quote that is not doubled, a doubled one standing for the
    character itself, and a record ends at a line end outside quotes.  It
    follows the states of that parser and builds the records from the end
    of the text backwards: [add_char] puts a character in front of the
    field being read, [save_field] opens a new field in front of the
    record being read.  The programs never read the file; [rows] serves to
    say what the written text holds. *)

Module CsvReader.

Inductive state : Type :=
| StartRecord | StartField | InField | InQuotedField | QuoteInQuotedField | AfterCR.

Definition comma : Ascii.ascii := Ascii.ascii_of_nat 44.
Definition line_feed : Ascii.ascii := Ascii.ascii_of_nat 10.
Definition carriage_return : Ascii.ascii := Ascii.ascii_of_nat 13.

Definition add_char (a : Ascii.ascii) (rows : list (list string)) : list (list string) :=
  match rows with
  | (field :: fields) :: rest => (String a field :: fields) :: rest
  | _ => rows
  end.

Definition save_field (rows : list (list string)) : list (list string) :=
  match rows with
  | fields :: rest => ("" :: fields) :: rest
  | [] => [[""]]
  end.

Fixpoint read (st : state) (text : string) : list (list string) :=
  match text with
  | EmptyString =>
      match st with
      | StartRecord | AfterCR => []
      | _ => [[""]]
      end
  | String a rest =>
      match st with
      | AfterCR =>
          if bool_decide (a = line_feed) then read StartRecord rest
          else if bool_decide (a = carriage_return) then [] :: read AfterCR rest
          else if bool_decide (a = dquote) then read InQuotedField rest
          else if bool_decide (a = comma) then save_field (read StartField rest)
          else add_char a (read InField rest)
      | StartRecord =>
          if bool_decide (a = line_feed) then [] :: read StartRecord rest
          else if bool_decide (a = carriage_return) then [] :: read AfterCR rest
          else if bool_decide (a = dquote) then read InQuotedField rest
          else if bool_decide (a = comma) then save_field (read StartField rest)
          else add_char a (read InField rest)
      | StartField =>
          if bool_decide (a = line_feed) then [""] :: read StartRecord rest
          else if bool_decide (a = carriage_return) then [""] :: read AfterCR rest
          else if bool_decide (a = dquote) then read InQuotedField rest
          else if bool_decide (a = comma) then save_field (read StartField rest)
          else add_char a (read InField rest)
      | InField =>
          if bool_decide (a = line_feed) then [""] :: read StartRecord rest
          else if bool_decide (a = carriage_return) then [""] :: read AfterCR rest
          else if bool_decide (a = comma) then save_field (read StartField rest)
          else add_char a (read InField rest)
      | InQuotedField =>
          if bool_decide (a = dquote) then read QuoteInQuotedField rest
          else add_char a (read InQuotedField rest)
      | QuoteInQuotedField =>
          if bool_decide (a = dquote) then add_char a (read InQuotedField rest)
          else if bool_decide (a = line_feed) then [""] :: read StartRecord rest
          else if bool_decide (a = carriage_return) then [""] :: read AfterCR rest
          else if bool_decide (a = comma) then save_field (read StartField rest)
          else add_char a (read InField rest)
      end
  end.

Fixpoint add_string (s : string) (rows : list (list string)) : list (list string) :=
  match s with
  | EmptyString => rows
  | String a rest => add_char a (add_string rest rows)
  end.

Definition rows (text : string) : list (list string) := read StartRecord text.

End CsvReader.

(** * Further parts of the modules *)

(** ** The entry points of the two scripts

    [main] of either script parses the command line with [argparse] and
    hands the parsed values on; the embedding starts from the parsed
    arguments. *)

(** [str.lower] on the letters A to Z.  The scripts apply it to a console
    answer that is then compared with ['yes']; no character outside A to Z
    has y, e or s as its lower case, so the comparison comes out the same. *)
Definition ascii_lower (a : Ascii.ascii) : Ascii.ascii :=
  let n := Ascii.nat_of_ascii a in
  if Nat.leb 65 n && Nat.leb n 90 then Ascii.ascii_of_nat (n + 32) else a.

Fixpoint py_lower (s : string) : string :=
  match s with
  | EmptyString => EmptyString
  | String a rest => String (ascii_lower a) (py_lower rest)
  end.

Module CleanupScript.

(** [args] of the teardown: [--bucket-name] (required), [--region]
    (default us-east-1) and the flag [--confirm]. *)
Record arguments := {
  bucket_name : string;
  region : string;
  confirm : bool
}.

Section CleanupScript.
Context `{Provider} `{Runtime}.

(** The confirmation dialogue; [false] stands for the early [return].  The
    prompt of [input] is an argument of the console read and is not a
    printed line. *)
Definition confirmed (args : arguments) : M bool :=
  if negb (confirm args) then
    print "This will delete the following resources:" ;;
    print ("- S3 bucket: " +:+ bucket_name args +:+ " (and ALL its contents)") ;;
    print ("- CloudTrail: q-developer-3p-trail-" +:+ bucket_name args) ;;
    print "- Lambda functions: QDeveloper3PSetup, IAMIdentityCenterUserExtract" ;;
    print "- IAM roles: lambda-q-developer-role, lambda-iam-identity-center-extract-role" ;;
    print "- EventBridge rules: QDeveloper3PSetupSchedule, IAMIdentityCenterUserExtractSchedule" ;;
    print ("- Region: " +:+ region args) ;;
    print (nl +:+ "This action cannot be undone!") ;;
    confirmation <- invoke Input ;;
    if negb (String.eqb (py_lower confirmation) "yes")
    then print "Cleanup cancelled." ;; ret false
    else ret true
  else ret true.

Definition main (args : arguments) : M unit :=
  proceed <- confirmed args ;;
  if (proceed : bool) then
    cleanup <- Cleanup.init (PStr (bucket_name args)) (PStr (region args)) ;;
    Cleanup.run_cleanup cleanup
  else ret tt.

End CleanupScript.
End CleanupScript.

Module SetupCommand.

(** [args] of the setup: [--bucket-name] (required), [--region],
    the flag [--export-users] and [--output-file] (default users.csv). *)
Record arguments := {
  bucket_name : string;
  region : string;
  export_users : bool;
  output_file : string
}.

Section SetupCommand.
Context `{Provider} `{Runtime}.

(** The value of [run_setup] is dropped. *)
Definition main (fuel : nat) (args : arguments) : M unit :=
  setup <- Setup.init (PStr (bucket_name args)) (PStr (region args)) ;;
  SetupScript.run_setup fuel setup (PBool (export_users args)) (PStr (output_file args)) ;;
  ret tt.

End SetupCommand.
End SetupCommand.

(** ** Further providers *)

(** The caller may not look at the bucket. *)
Definition probe_refused : Provider :=
  stateless (fun c =>
    match c return option (exn + reply c) with
    | HeadBucket _ => Some (inl (ClientError "403" "Forbidden"))
    | _ => None
    end).

(** ** Orderings of a setup trace *)

(** Every call of the kind [trigger] comes after an event that satisfies
    [guard]. *)
Definition preceded_by (trigger : call -> Prop) (guard : event -> Prop)
           (trace : list event) : Prop :=
  forall before e after,
    trace = before ++ e :: after ->
    trigger (ev_call e) ->
    exists g, In g before /\ guard g.

(** [put_bucket_policy] on the bucket, answered. *)
Definition policy_written (bucket : pyval) (e : event) : Prop :=
  answered e /\ exists policy, ev_call e = PutBucketPolicy bucket policy.

(** [start_logging] on the trail of the setup, answered. *)
Definition logging_started (e : event) : Prop :=
  answered e /\ ev_call e = StartLogging Setup.default_trail_name.

(** The console read that ends the manual step, answered. *)
Definition operator_continued (e : event) : Prop :=
  answered e /\ ev_call e = Input.

(** A call of the export: the directory, a temporary file, an upload. *)
Definition export_call (c : call) : Prop :=
  match c with
  | ListInstances | ListUsers _ _ | PutObject _ _ _ | UploadFile _ _ _ _
  | NamedTemporaryFile | PathExists _ | OsRemove _ => True
  | _ => False
  end.

Definition trail_call (c : call) : Prop := client_of c = CloudTrailClient.

(** ** The confirmation of the teardown *)

(** The console answers that [confirmation.lower() != 'yes'] lets pass. *)
Definition affirmative_answers : list string :=
  ["yes"; "yeS"; "yEs"; "yES"; "Yes"; "YeS"; "YEs"; "YES"].

(** The console read was answered with one of them. *)
Definition consent (e : event) : Prop :=
  exists answer : string, e = Invoked Input (inr answer) /\ In answer affirmative_answers.

(** What [main] of the teardown prints before it asks. *)
Definition preview `{Runtime} (args : CleanupScript.arguments) : list string :=
  [ "This will delete the following resources:";
    "- S3 bucket: " +:+ CleanupScript.bucket_name args +:+ " (and ALL its contents)";
    "- CloudTrail: q-developer-3p-trail-" +:+ CleanupScript.bucket_name args;
    "- Lambda functions: QDeveloper3PSetup, IAMIdentityCenterUserExtract";
    "- IAM roles: lambda-q-developer-role, lambda-iam-identity-center-extract-role";
    "- EventBridge rules: QDeveloper3PSetupSchedule, IAMIdentityCenterUserExtractSchedule";
    "- Region: " +:+ CleanupScript.region args;
    nl +:+ "This action cannot be undone!" ].

(** The operator types [answer] at every prompt; every other call is
    accepted. *)
Definition operator_types (answer : string) : Provider :=
  stateless (fun c =>
    match c return option (exn + reply c) with
    | Input => Some (inr answer)
    | _ => None
    end).

Definition sample_arguments : CleanupScript.arguments :=
  {| CleanupScript.bucket_name := "q-logs";
     CleanupScript.region := "us-east-1";
     CleanupScript.confirm := false |}.

(** ** Failures that a teardown survives *)

(** The exception that ended a loop, if any, is a [ClientError]. *)
Definition benign (exit : option exn) : Prop :=
  match exit with
  | Some (OtherError _ _) => False
  | _ => True
  end.

(** A listing that breaks off does so with a [ClientError]. *)
Definition sound_reply (c : call) : reply c -> Prop :=
  match c return reply c -> Prop with
  | ListObjectsV2 _ => fun it => benign (failure it)
  | ListObjectVersions _ => fun it => benign (failure it)
  | _ => fun _ => True
  end.

(** The provider fails with [ClientError] only, as boto3 does when the
    service refuses a request. *)
Definition client_errors_only `{Provider} : Prop :=
  forall (c : call) (s : account),
    match fst (respond c s) with
    | inl e => exists code text, e = ClientError code text
    | inr a => sound_reply c a
    end.

(** A method that returns a value satisfying [post] or raises a
    [ClientError], from every state. *)
Definition tame `{Provider} {A} (post : A -> Prop) (m : M A) : Prop :=
  forall s : account,
    match value (m s) with
    | Returns a => post a
    | Raises (ClientError _ _) => True
    | Raises (OtherError _ _) => False
    | Timeout => False
    end.

(** The calls by which the teardown addresses a resource: the first call of
    each step, and [delete_role]. *)
Definition resource_attempt (e : event) : bool :=
  match ev_call e with
  | ListTargetsByRule _ | DeleteFunction _ | DeleteRolePolicy _ _ | DeleteRole _
  | DeleteTrail _ | HeadBucket _ | DeleteBucket _ => true
  | _ => false
  end.

(** A method that returns normally from every state, having addressed the
    resources [expected], in this order. *)
Definition attempts `{Provider} {A} (m : M A) (expected : list call) : Prop :=
  forall s : account,
    (exists a, value (m s) = Returns a) /\
    map ev_call (List.filter resource_attempt (calls (m s))) = expected.

(** Every request is refused. *)
Definition all_denied : Provider :=
  {| account := unit;
     respond := fun c s => (inl (ClientError "AccessDenied" "Access Denied"), s) |}.

(** ** What a run may touch *)

(** The calls of a teardown: listings and deletions on the fixed rules,
    functions and roles, on the trail named after the bucket and on the
    bucket itself. *)
Definition teardown_target `{Runtime} (self : Cleanup.QDeveloper3PCleanup)
           (c : call) : Prop :=
  match c with
  | ListTargetsByRule rule | RemoveTargets rule _ | DeleteRule rule =>
      In rule Cleanup.rules_to_delete
  | DeleteFunction name => In name Cleanup.functions_to_delete
  | DeleteRolePolicy role policy =>
      In {| Cleanup.role_name := role; Cleanup.policy_name := policy |}
         Cleanup.roles_to_delete
  | DeleteRole role => In role (map Cleanup.role_name Cleanup.roles_to_delete)
  | DeleteTrail name => name = Cleanup.trail_name self
  | HeadBucket bucket | ListObjectsV2 bucket | ListObjectVersions bucket
  | DeleteObjects bucket _ | DeleteBucket bucket => bucket = Cleanup.bucket_name self
  | _ => False
  end.

(** The calls of a setup: the bucket and its policy, the trail of the fixed
    name on that bucket, the directory, the upload under [users/], the
    console and the temporary file. *)
Definition setup_target `{Runtime} (self : Setup.QDeveloper3PSetup)
           (output_file : pyval) (c : call) : Prop :=
  match c with
  | HeadBucket bucket | CreateBucket bucket _ | PutBucketPolicy bucket _ =>
      bucket = Setup.bucket_name self
  | DescribeTrails => True
  | CreateTrail name bucket prefix _ _ =>
      name = Setup.default_trail_name /\ bucket = Setup.bucket_name self
      /\ prefix = "cloudtrail"
  | PutEventSelectors name _ | StartLogging name => name = Setup.default_trail_name
  | ListInstances | ListUsers _ _ => True
  | PutObject bucket key _ | UploadFile _ _ bucket key =>
      bucket = Setup.bucket_name self /\ key = "users/" +:+ py_str output_file
  | Input | NamedTemporaryFile | PathExists _ | OsRemove _ => True
  | _ => False
  end.

(** ** The count the emptying reports *)

(** The entries of a [delete_objects] call that succeeded. *)
Definition deleted_by (e : event) : nat :=
  if ev_ok e
  then match ev_call e with
       | DeleteObjects _ batch => length batch
       | _ => 0
       end
  else 0.

Definition deleted_entries (trace : list event) : nat :=
  list_sum (map deleted_by trace).

(** What a run of the emptying printed: nothing when it ended in an
    exception; otherwise one line, which is the notice of a missing bucket,
    the report of a [ClientError], or the summary with the number of entries
    deleted so far, [already] before this run and the rest in it. *)
Definition emptying_report `{Provider} `{Runtime} (bucket : pyval) (already : nat)
           (r : run unit) : Prop :=
  match value r with
  | Returns _ =>
      stdout r = ["S3 bucket " +:+ py_str bucket +:+ " not found (already deleted)"] \/
      (exists text,
         stdout r = ["Error emptying S3 bucket " +:+ py_str bucket +:+ ": " +:+ text]) \/
      stdout r = ["Emptied S3 bucket " +:+ py_str bucket +:+ " ("
                  +:+ pretty (already + deleted_entries (calls r))
                  +:+ " objects deleted)"]
  | _ => stdout r = []
  end.

(** The caller is not known to the account. *)
Definition identity_refused : Provider :=
  stateless (fun c =>
    match c return option (exn + reply c) with
    | GetCallerIdentity =>
        Some (inl (ClientError "ExpiredToken" "The security token is expired"))
    | _ => None
    end).

(** The directory of [two_pages]; the upload is refused and the temporary
    file is there to be removed. *)
Definition upload_refused : Provider :=
  stateless (fun c =>
    match c return option (exn + reply c) with
    | ListInstances => Some (inr {| Instances := Some [sample_instance] |})
    | ListUsers _ None => Some (inr first_page)
    | ListUsers _ (Some _) => Some (inr second_page)
    | UploadFile _ _ _ _ => Some (inl (ClientError "AccessDenied" "Access Denied"))
    | PutObject _ _ _ => Some (inl (ClientError "AccessDenied" "Access Denied"))
    | _ => None
    end).

(** The inline policies may not be deleted. *)
Definition policy_protected : Provider :=
  stateless (fun c =>
    match c return option (exn + reply c) with
    | DeleteRolePolicy _ _ => Some (inl (ClientError "AccessDenied" "Access Denied"))
    | _ => None
    end).

(** Standard input is closed. *)
Definition no_console : Provider :=
  stateless (fun c =>
    match c return option (exn + reply c) with
    | Input => Some (inl (OtherError "EOFError" "EOF when reading a line"))
    | _ => None
    end).

Definition setup_arguments : SetupCommand.arguments :=
  {| SetupCommand.bucket_name := "q-logs";
     SetupCommand.region := "us-east-1";
     SetupCommand.export_users := false;
     SetupCommand.output_file := "users.csv" |}.

(** ** Refused calls *)

(** The exception a call was answered with. *)
Definition ev_error (e : event) : option exn :=
  match e with
  | Invoked _ (inl x) => Some x
  | Invoked _ (inr _) => None
  end.

(** ** How a teardown ends *)

(** A method that always comes to an end. *)
Definition halts `{Provider} {A} (m : M A) : Prop :=
  forall s : account, value (m s) <> Timeout.

(** A method that a [ClientError] never leaves: it returns, or an exception
    of another class leaves it. *)
Definition sturdy `{Provider} {A} (m : M A) : Prop :=
  forall s : account,
    match value (m s) with
    | Returns _ => True
    | Raises (ClientError _ _) => False
    | Raises (OtherError _ _) => True
    | Timeout => False
    end.

(** A run in which a call refused with a [ClientError] is the last call,
    and which then returns. *)
Definition stops_at_refusal `{Provider} (r : run unit) : Prop :=
  forall before e after code text,
    calls r = before ++ e :: after ->
    ev_error e = Some (ClientError code text) ->
    after = [] /\ value r = Returns tt.

(** [delete_bucket] is the last call of the trace. *)
Definition ends_with_delete_bucket (bucket : pyval) (trace : list event) : Prop :=
  exists before answer, trace = before ++ [Invoked (DeleteBucket bucket) answer].

(** After a call of the emptying that was refused with a [ClientError],
    what follows is [delete_bucket] and nothing else. *)
Definition delete_bucket_follows_refusal (bucket : pyval) (trace : list event) : Prop :=
  forall before e after code text,
    trace = before ++ e :: after ->
    ev_error e = Some (ClientError code text) ->
    client_of (ev_call e) = S3Client ->
    (forall other, ev_call e <> DeleteBucket other) ->
    exists answer, after = [Invoked (DeleteBucket bucket) answer].

(** * Verification *)

(** ** Running a method step by step *)

Ltac unfold_method :=
  unfold bind, try_except, try_finally, ret, raise, print, timeout, reraise, invoke.

(** Splits on the answer of the next provider call, and on the tests a
    handler performs on the exception it caught. *)
Ltac step :=
  cbn [value final calls stdout fst snd];
  match goal with
  | |- context [respond ?c ?s] =>
      let E := fresh "E" in
      destruct (respond c s) as [[?|?] ?] eqn:E
  | |- context [match ?e with ClientError _ _ => _ | OtherError _ _ => _ end] =>
      is_var e; destruct e
  | |- context [String.eqb ?c ?lit] =>
      is_var c; let E := fresh "E" in destruct (String.eqb c lit) eqn:E
  end.


Ltac simpl_run := cbn [after value final calls stdout fst snd app negb].

Ltac norm_trace :=
  simpl_run; rewrite <- ?app_assoc, ?app_nil_r; simpl_run.

Section Stepping.
Context `{Provider}.

Lemma bind_returns {A B} (m : M A) (k : A -> M B) (s : account) (a : A) :
  value (m s) = Returns a ->
  bind m k s = after (calls (m s)) (stdout (m s)) (k a (final (m s))).
Proof. unfold bind. destruct (m s) as [v ? ? ?]. cbn. intros ->. reflexivity. Qed.

Lemma invoke_answer (c : call) (s s' : account) (answer : exn + reply c) :
  respond c s = (answer, s') ->
  invoke c s =
  Run (match answer with inl e => Raises e | inr a => Returns a end)
      s' [Invoked c answer] [].
Proof. intros E. unfold invoke. rewrite E. reflexivity. Qed.

Lemma calls_after {A} (cs : list event) (out : list string) (r : run A) :
  calls (after cs out r) = cs ++ calls r.
Proof. destruct r; reflexivity. Qed.

Lemma stdout_after {A} (cs : list event) (out : list string) (r : run A) :
  stdout (after cs out r) = out ++ stdout r.
Proof. destruct r; reflexivity. Qed.

Lemma value_after {A} (cs : list event) (out : list string) (r : run A) :
  value (after cs out r) = value r.
Proof. destruct r; reflexivity. Qed.

Lemma final_after {A} (cs : list event) (out : list string) (r : run A) :
  final (after cs out r) = final r.
Proof. destruct r; reflexivity. Qed.

End Stepping.

(** ** Trail names (C2) *)

Section TrailNames.
Context `{Provider} `{Runtime}.


End TrailNames.

(** ** Bucket provisioning (C6) *)

Section BucketProvisioning.
Context `{Provider} `{Runtime}.
Import Setup.

(** C6, amended: when the probe answers 404, the next call is create_bucket,
    without a location constraint in us-east-1 and with the region as
    LocationConstraint elsewhere.  If that call succeeds the fixed policy is
    applied next, and the method returns True exactly when both calls
    succeed; a ClientError from either makes it return False. *)
Theorem create_s3_bucket_absent (self : QDeveloper3PSetup) (s s1 : account) (text : string) :
  respond (HeadBucket (bucket_name self)) s = (inl (ClientError "404" text), s1) ->
  let probe := Invoked (HeadBucket (bucket_name self)) (inl (ClientError "404" text)) in
  let creation :=
    CreateBucket (bucket_name self)
      (if py_eq_str (region self) "us-east-1" then None else Some (region self)) in
  let policy :=
    PutBucketPolicy (bucket_name self) (json_dumps (bucket_policy (bucket_name self))) in
  let r := create_s3_bucket self s in
  match respond creation s1 with
  | (inl e, _) =>
      calls r = [probe; Invoked creation (inl e)] /\
      value r = match e with ClientError _ _ => Returns false | _ => Raises e end
  | (inr done, s2) =>
      match respond policy s2 with
      | (inl e, _) =>
          calls r = [probe; Invoked creation (inr done); Invoked policy (inl e)] /\
          value r = match e with ClientError _ _ => Returns false | _ => Raises e end
      | (inr applied, _) =>
          calls r = [probe; Invoked creation (inr done); Invoked policy (inr applied)] /\
          value r = Returns true
      end
  end.
Proof.
  intros Hprobe. cbn zeta.
  unfold create_s3_bucket. unfold_method. rewrite Hprobe. cbn.
  destruct (py_eq_str (region self) "us-east-1"); cbn.
  - destruct (respond (CreateBucket (bucket_name self) None) s1) as [[e|done] s2]; cbn.
    + destruct e; auto.
    + destruct (respond (PutBucketPolicy _ _) s2) as [[e|applied] s3]; cbn; auto.
      destruct e; auto.
  - destruct (respond (CreateBucket (bucket_name self) (Some (region self))) s1)
      as [[e|done] s2]; cbn.
    + destruct e; auto.
    + destruct (respond (PutBucketPolicy _ _) s2) as [[e|applied] s3]; cbn; auto.
      destruct e; auto.
Qed.

End BucketProvisioning.

(** The amended statement on an absent bucket outside us-east-1: the region
    travels as the location constraint and the run succeeds. *)
Lemma create_s3_bucket_absent_witness :
  calls (@Setup.create_s3_bucket bucket_absent sample_runtime sample_setup_west tt) =
    [ Invoked (HeadBucket (PStr "q-logs")) (inl (ClientError "404" "Not Found"));
      Invoked (CreateBucket (PStr "q-logs") (Some (PStr "us-west-2"))) (inr tt);
      Invoked (PutBucketPolicy (PStr "q-logs") "{...}") (inr tt) ] /\
  value (@Setup.create_s3_bucket bucket_absent sample_runtime sample_setup_west tt) =
    Returns true.
Proof.
  exact (@create_s3_bucket_absent bucket_absent sample_runtime sample_setup_west
           tt tt "Not Found" eq_refl).
Defined.

(** C6 as stated fails: the probe answers 404, the creation call is refused,
    and the method returns False without applying the policy. *)
Lemma create_s3_bucket_absent_may_fail :
  fst (@respond creation_denied (HeadBucket (PStr "q-logs")) tt) =
    inl (ClientError "404" "Not Found") /\
  value (@Setup.create_s3_bucket creation_denied sample_runtime sample_setup tt) =
    Returns false /\
  calls (@Setup.create_s3_bucket creation_denied sample_runtime sample_setup tt) =
    [ Invoked (HeadBucket (PStr "q-logs")) (inl (ClientError "404" "Not Found"));
      Invoked (CreateBucket (PStr "q-logs") None)
              (inl (ClientError "AccessDenied" "Access Denied")) ].
Proof. repeat split. Qed.

(** ** Trail provisioning (C7) *)

Section TrailProvisioning.
Context `{Provider} `{Runtime}.
Import Setup.




End TrailProvisioning.



(** ** The setup sequence (C5) *)

Section SetupSequence.
Context `{Provider} `{Runtime}.
Import Setup.

(** C5: when create_s3_bucket returns False, run_setup (of the script and of
    the Lambda module) returns False having issued no call and printed no
    line of a later step: no pause for the manual instructions, no trail
    setup, no user export.  And whether the export is requested never
    changes the value run_setup returns (short of the listing loop not
    ending), so its failure never does. *)
Theorem run_setup_aborts_on_bucket_failure (fuel : nat) (self : QDeveloper3PSetup)
        (export_users output_file : pyval) (s : account) :
  (value (create_s3_bucket self s) = Returns false ->
   SetupScript.run_setup fuel self export_users output_file s =
     Run (Returns false) (final (create_s3_bucket self s))
         (calls (create_s3_bucket self s))
         ("Starting Amazon Q Developer to 3P setup..."
          :: stdout (create_s3_bucket self s)
          ++ ["Failed to create S3 bucket. Aborting setup."]) /\
   SetupLambda.run_setup fuel self export_users output_file s =
     Run (Returns false) (final (create_s3_bucket self s))
         (calls (create_s3_bucket self s))
         ("Starting Amazon Q Developer to 3P setup..."
          :: stdout (create_s3_bucket self s)
          ++ ["Failed to create S3 bucket. Aborting setup."])) /\
  (value (SetupScript.run_setup fuel self export_users output_file s) = Timeout \/
   value (SetupScript.run_setup fuel self export_users output_file s) =
   value (SetupScript.run_setup fuel self (PBool false) output_file s)) /\
  (value (SetupLambda.run_setup fuel self export_users output_file s) = Timeout \/
   value (SetupLambda.run_setup fuel self export_users output_file s) =
   value (SetupLambda.run_setup fuel self (PBool false) output_file s)).
Proof.
  split; [|split].
  - intros Hfail.
    unfold SetupScript.run_setup, SetupLambda.run_setup, bind, print, ret.
    destruct (create_s3_bucket self s) as [created s1 c1 o1].
    cbn in Hfail. subst created. cbn. rewrite !app_nil_r. split; reflexivity.
  - unfold SetupScript.run_setup, bind, print, ret.
    destruct (create_s3_bucket self s) as [[[|]| |] s1 c1 o1]; simpl_run; auto.
    destruct (SetupScript.display_q_developer_instructions self s1)
      as [[shown| |] s2 c2 o2]; simpl_run; auto.
    destruct (setup_cloudtrail self s2) as [[[|]| |] s3 c3 o3]; simpl_run; auto.
    destruct (truthy export_users); simpl_run; auto.
    destruct (SetupScript.export_identity_center_users fuel self output_file s3)
      as [[[|]|e|] s4 c4 o4] eqn:Hexport; simpl_run; auto.
    exfalso. revert Hexport.
    unfold SetupScript.export_identity_center_users, try_except.
    destruct (bind _ _ _) as [[?|[]|] ? ? ?]; unfold bind, print, ret;
      simpl_run; discriminate.
  - unfold SetupLambda.run_setup, bind, print, ret.
    destruct (create_s3_bucket self s) as [[[|]| |] s1 c1 o1]; simpl_run; auto.
    destruct (setup_cloudtrail self s1) as [[[|]| |] s3 c3 o3]; simpl_run; auto.
    destruct (truthy export_users); simpl_run; auto.
    destruct (SetupLambda.export_identity_center_users fuel self output_file s3)
      as [[[|]|e|] s4 c4 o4] eqn:Hexport; simpl_run; auto.
    exfalso. revert Hexport.
    unfold SetupLambda.export_identity_center_users, try_except.
    destruct (bind _ _ _) as [[?|[]|] ? ? ?]; unfold bind, print, ret;
      simpl_run; discriminate.
Qed.

End SetupSequence.

(** The bucket cannot be created, so run_setup stops after the first step. *)
Lemma run_setup_aborts_on_bucket_failure_witness :
  @SetupScript.run_setup creation_denied sample_runtime 3 sample_setup
     (PBool true) (PStr "users.csv") tt =
  @Run creation_denied bool (Returns false) tt
      [ Invoked (HeadBucket (PStr "q-logs")) (inl (ClientError "404" "Not Found"));
        Invoked (CreateBucket (PStr "q-logs") None)
                (inl (ClientError "AccessDenied" "Access Denied")) ]
      [ "Starting Amazon Q Developer to 3P setup...";
        "Error creating S3 bucket: Access Denied";
        "Failed to create S3 bucket. Aborting setup." ].
Proof.
  exact (proj1 (proj1 (@run_setup_aborts_on_bucket_failure creation_denied sample_runtime
                         3 sample_setup (PBool true) (PStr "users.csv") tt)
                      eq_refl)).
Defined.

(** ** The Lambda handlers (C8, C10) *)

Section Handlers.
Context `{Provider} `{Runtime}.

(** C8: a payload without bucket_name makes either handler return status
    400 with a body that names the missing parameter.  With a bucket name
    the handler accepts, region, export_users and output_file default to
    us-east-1, False and users.csv; the setup handler answers 200 when
    run_setup returns True and 500 when it returns False, the export handler
    200 or 500 by the success member of what extract_users returns, and the
    body carries message, bucket_name and region. *)
Theorem lambda_handler_status (fuel : nat) (event : gmap string pyval) (s : account) :
  (event !! "bucket_name" = None ->
   SetupLambda.lambda_handler fuel event s = Run (Returns missing_parameter) s [] [] /\
   UserExtract.lambda_handler fuel event s = Run (Returns missing_parameter) s [] []) /\
  (forall bucket_name : pyval,
     event !! "bucket_name" = Some bucket_name ->
     truthy bucket_name = true ->
     let region := default (PStr "us-east-1") (event !! "region") in
     let export_users := default (PBool false) (event !! "export_users") in
     let output_file := default (PStr "users.csv") (event !! "output_file") in
     (forall setup result,
        value (Setup.init bucket_name region s) = Returns setup ->
        value (SetupLambda.run_setup fuel setup export_users output_file
                 (final (Setup.init bucket_name region s))) = Returns result ->
        value (SetupLambda.lambda_handler fuel event s) =
        Returns {| statusCode := if result then 200 else 500;
                   body := json_dumps (PDict [
                     ("message", PStr (if result then "Setup completed successfully"
                                       else "Setup failed"));
                     ("bucket_name", bucket_name);
                     ("region", region);
                     ("export_users", export_users);
                     ("output_file", if truthy export_users then output_file else PNone)]) |}) /\
     (forall extractor result,
        value (UserExtract.init bucket_name region s) = Returns extractor ->
        value (UserExtract.extract_users fuel extractor output_file
                 (final (UserExtract.init bucket_name region s))) = Returns result ->
        value (UserExtract.lambda_handler fuel event s) =
        Returns {| statusCode := if UserExtract.success result then 200 else 500;
                   body := json_dumps (PDict [
                     ("message", PStr (UserExtract.message result));
                     ("bucket_name", bucket_name);
                     ("region", region);
                     ("output_file", output_file);
                     ("user_count",
                      PInt (Z.of_nat (default 0 (UserExtract.user_count result))))]) |})).
Proof.
  split.
  - intros Hmissing.
    unfold SetupLambda.lambda_handler, UserExtract.lambda_handler.
    rewrite Hmissing. split; reflexivity.
  - intros bucket_name Hpresent Htruthy. cbn zeta. split.
    + intros setup result Hinit Hrun.
      unfold SetupLambda.lambda_handler.
      rewrite Hpresent. cbn [from_option id]. rewrite Htruthy. cbn [negb].
      rewrite (bind_returns _ _ _ _ Hinit), value_after.
      rewrite (bind_returns _ _ _ _ Hrun), value_after. reflexivity.
    + intros extractor result Hinit Hrun.
      unfold UserExtract.lambda_handler.
      rewrite Hpresent. cbn [from_option id]. rewrite Htruthy. cbn [negb].
      rewrite (bind_returns _ _ _ _ Hinit), value_after.
      rewrite (bind_returns _ _ _ _ Hrun), value_after. reflexivity.
Qed.

(** C10: a bucket_name that is present but falsy (the empty string, None,
    0, False, an empty list or dictionary) is handled by both handlers
    exactly as an absent one: status 400 with the missing-parameter body,
    and no provider call at all. *)
Theorem lambda_handler_falsy_bucket_name (fuel : nat) (event : gmap string pyval)
        (s : account) (bucket_name : pyval) :
  event !! "bucket_name" = Some bucket_name ->
  truthy bucket_name = false ->
  SetupLambda.lambda_handler fuel event s = Run (Returns missing_parameter) s [] [] /\
  UserExtract.lambda_handler fuel event s = Run (Returns missing_parameter) s [] [] /\
  SetupLambda.lambda_handler fuel event s =
    SetupLambda.lambda_handler fuel (delete "bucket_name" event) s /\
  UserExtract.lambda_handler fuel event s =
    UserExtract.lambda_handler fuel (delete "bucket_name" event) s.
Proof.
  intros Hpresent Hfalsy.
  assert (Hsetup : SetupLambda.lambda_handler fuel event s
                   = Run (Returns missing_parameter) s [] []).
  { unfold SetupLambda.lambda_handler. rewrite Hpresent. cbn [from_option id].
    rewrite Hfalsy. reflexivity. }
  assert (Hextract : UserExtract.lambda_handler fuel event s
                     = Run (Returns missing_parameter) s [] []).
  { unfold UserExtract.lambda_handler. rewrite Hpresent. cbn [from_option id].
    rewrite Hfalsy. reflexivity. }
  repeat split; auto.
  - rewrite Hsetup. unfold SetupLambda.lambda_handler.
    rewrite lookup_delete_eq. reflexivity.
  - rewrite Hextract. unfold UserExtract.lambda_handler.
    rewrite lookup_delete_eq. reflexivity.
Qed.

End Handlers.

(** A payload with only a bucket name, on a provider that accepts every
    call: the setup handler answers 200 and echoes the defaults. *)
Lemma lambda_handler_status_witness :
  value (@SetupLambda.lambda_handler obliging sample_runtime 3 sample_event tt) =
  Returns {| statusCode := 200; body := "{...}" |}.
Proof.
  exact (proj1 (proj2 (@lambda_handler_status obliging sample_runtime 3 sample_event tt)
                      (PStr "q-logs") eq_refl eq_refl)
               sample_setup true eq_refl eq_refl).
Defined.

(** An empty bucket name next to a region: both handlers answer 400 and
    call nothing. *)
Lemma lambda_handler_falsy_bucket_name_witness :
  @SetupLambda.lambda_handler obliging sample_runtime 3 empty_name_event tt =
    @Run obliging response (Returns (@missing_parameter sample_runtime)) tt [] [] /\
  @UserExtract.lambda_handler obliging sample_runtime 3 empty_name_event tt =
    @Run obliging response (Returns (@missing_parameter sample_runtime)) tt [] [].
Proof.
  pose proof (@lambda_handler_falsy_bucket_name obliging sample_runtime 3
                empty_name_event tt (PStr "") eq_refl eq_refl) as W.
  exact (conj (proj1 W) (proj1 (proj2 W))).
Defined.


(** ** The directory listing and the CSV rows (C1) *)

Section Listing.
Context `{Provider}.

Lemma list_users_loop_step (fuel : nat) (store : string) (users : list user)
      (token : option string) (s s' : account) (page : users_response) :
  token = None \/ truthy_str token = true ->
  respond (ListUsers store token) s = (inr page, s') ->
  Directory.list_users_loop (S fuel) store users token s =
  after [Invoked (ListUsers store token) (inr page)] []
        (if truthy_str (NextToken page)
         then Directory.list_users_loop fuel store
                (users ++ default [] (Users page)) (NextToken page) s'
         else Run (Returns (users ++ default [] (Users page))) s' [] []).
Proof.
  intros Htoken Hanswer.
  cbn [Directory.list_users_loop]. unfold bind.
  assert (Hsent : (if truthy_str token
                   then invoke (ListUsers store token)
                   else invoke (ListUsers store None) : M users_response) s
                  = Run (Returns page) s' [Invoked (ListUsers store token) (inr page)] []).
  { destruct Htoken as [Hnone | Hsome].
    - subst token. cbn [truthy_str]. apply (invoke_answer _ _ _ _ Hanswer).
    - rewrite Hsome. apply (invoke_answer _ _ _ _ Hanswer). }
  rewrite Hsent. destruct (truthy_str (NextToken page)); reflexivity.
Qed.

Lemma list_users_loop_served (store : string) (token : option string)
      (pages : list users_response) (s s' : account) :
  served store token pages s s' ->
  forall (fuel : nat) (users : list user),
    token = None \/ truthy_str token = true ->
    length pages <= fuel ->
    Directory.list_users_loop fuel store users token s =
    Run (Returns (users ++ users_of pages)) s' (listing_trace store token pages) [].
Proof.
  induction 1 as [token page s s' Hanswer Hlast
                 |token page rest s s' s'' Hanswer Hmore Hrest IH];
    intros fuel users Htoken Hfuel.
  - destruct fuel as [|fuel]; [cbn in Hfuel; lia|].
    rewrite (list_users_loop_step _ _ _ _ _ _ _ Htoken Hanswer), Hlast.
    unfold users_of. cbn. rewrite app_nil_r. reflexivity.
  - destruct fuel as [|fuel]; [cbn in Hfuel; lia|].
    rewrite (list_users_loop_step _ _ _ _ _ _ _ Htoken Hanswer), Hmore.
    rewrite (IH fuel (users ++ default [] (Users page))); [|auto|cbn in Hfuel; lia].
    unfold users_of. cbn. rewrite app_assoc. reflexivity.
Qed.

(** The loop only ever lists users, and prints nothing. *)
Lemma list_users_loop_calls (fuel : nat) (store : string) (users : list user)
      (token : option string) (s : account) :
  Forall (fun e => exists sent, ev_call e = ListUsers store sent)
         (calls (Directory.list_users_loop fuel store users token s)).
Proof.
  revert users token s.
  induction fuel as [|fuel IH]; intros users token s; [constructor|].
  cbn [Directory.list_users_loop]. unfold bind.
  destruct (truthy_str token).
  - unfold invoke.
    destruct (respond (ListUsers store token) s) as [[e|page] s1]; simpl_run.
    + repeat constructor. eauto.
    + rewrite calls_after. constructor; [cbn; eauto|].
      destruct (negb (truthy_str (NextToken page))); [constructor|apply IH].
  - unfold invoke.
    destruct (respond (ListUsers store None) s) as [[e|page] s1]; simpl_run.
    + repeat constructor. eauto.
    + rewrite calls_after. constructor; [cbn; eauto|].
      destruct (negb (truthy_str (NextToken page))); [constructor|apply IH].
Qed.

End Listing.

Section Rows.

Lemma first_primary_found (before after : list email) (e : email) :
  Forall not_primary before ->
  Primary e = Some true ->
  Directory.first_primary (before ++ e :: after) = Value e.
Proof.
  intros Hbefore Hprimary.
  induction Hbefore as [|x before Hx _ IH]; cbn.
  - rewrite Hprimary. reflexivity.
  - unfold not_primary in Hx.
    destruct (Primary x) as [[|]|]; cbn; [congruence|exact IH|exact IH].
Qed.

Lemma first_primary_absent (emails : list email) :
  Forall not_primary emails ->
  Directory.first_primary emails = "".
Proof.
  induction 1 as [|x emails Hx _ IH]; cbn; [reflexivity|].
  unfold not_primary in Hx.
  destruct (Primary x) as [[|]|]; cbn; [congruence|exact IH|exact IH].
Qed.

Lemma concat_records (first : string) (rest : list string) :
  String.concat "" (first :: rest) = first +:+ String.concat "" rest.
Proof.
  destruct rest as [|second rest]; cbn.
  - induction first as [|a first IH]; [reflexivity|].
    change (String a first = String a (first +:+ "")). f_equal. exact IH.
  - reflexivity.
Qed.

Lemma length_users_of (pages : list users_response) :
  length (users_of pages) = total_users pages.
Proof.
  unfold users_of, total_users.
  induction pages as [|page pages IH]; cbn; [reflexivity|].
  rewrite length_app, IH. reflexivity.
Qed.

End Rows.

(** *** What a reader finds in the written text *)

Section ReadBack.
Import CsvReader.

Lemma append_assoc (a b c : string) : (a +:+ b) +:+ c = a +:+ (b +:+ c).
Proof.
  induction a as [|x a IH]; [reflexivity|].
  change (String x ((a +:+ b) +:+ c) = String x (a +:+ (b +:+ c))).
  rewrite IH. reflexivity.
Qed.

Lemma append_empty (a : string) : a +:+ "" = a.
Proof.
  induction a as [|x a IH]; [reflexivity|].
  change (String x (a +:+ "") = String x a). rewrite IH. reflexivity.
Qed.

Lemma append_cons (x : Ascii.ascii) (a b : string) :
  String x a +:+ b = String x (a +:+ b).
Proof. reflexivity. Qed.

Lemma append_nil (b : string) : "" +:+ b = b.
Proof. reflexivity. Qed.

Ltac open_text := rewrite ?append_assoc, ?append_cons, ?append_nil.

Lemma add_string_head (f g : string) (fields : list string) (rest : list (list string)) :
  add_string f ((g :: fields) :: rest) = ((f +:+ g) :: fields) :: rest.
Proof.
  induction f as [|a f IH]; [reflexivity|].
  cbn [add_string]. rewrite IH. reflexivity.
Qed.

Lemma plain_char (a : Ascii.ascii) :
  Directory.csv_special a = false ->
  a <> comma /\ a <> dquote /\ a <> carriage_return /\ a <> line_feed.
Proof.
  unfold Directory.csv_special. intros Hspecial.
  apply bool_decide_eq_false in Hspecial.
  repeat split; intros ->; apply Hspecial; unfold comma, carriage_return, line_feed;
    set_solver.
Qed.

Lemma read_plain_chars (f k : string) :
  Directory.csv_needs_quotes f = false ->
  read InField (f +:+ k) = add_string f (read InField k).
Proof.
  induction f as [|a f IH]; intros Hplain; [reflexivity|].
  cbn in Hplain. apply orb_false_iff in Hplain as [Ha Hf].
  destruct (plain_char a Ha) as (Hcomma & Hquote & Hcr & Hlf).
  open_text. cbn [read add_string].
  rewrite !bool_decide_eq_false_2 by assumption.
  rewrite (IH Hf). reflexivity.
Qed.

Lemma read_until_quote (f k : string) :
  read InQuotedField (Directory.csv_double_quotes f +:+ String dquote k) =
  add_string f (read QuoteInQuotedField k).
Proof.
  induction f as [|a f IH].
  - cbn [Directory.csv_double_quotes add_string]. open_text. cbn [read].
    rewrite bool_decide_eq_true_2 by reflexivity. reflexivity.
  - cbn [Directory.csv_double_quotes add_string].
    destruct (bool_decide (a = dquote)) eqn:Hquote.
    + apply bool_decide_eq_true in Hquote. subst a.
      open_text. cbn [read].
      rewrite !bool_decide_eq_true_2 by reflexivity.
      rewrite IH. reflexivity.
    + open_text. cbn [read]. rewrite Hquote. rewrite IH. reflexivity.
Qed.

(** A written field is read back as it was, whatever it holds, up to the
    comma or line end that follows it. *)
Lemma read_field (f : string) (a : Ascii.ascii) (k : string) :
  a = comma \/ a = carriage_return ->
  read StartField (Directory.csv_field f +:+ String a k) =
  add_string f (read InField (String a k)).
Proof.
  intros Hend. unfold Directory.csv_field.
  destruct (Directory.csv_needs_quotes f) eqn:Hquotes.
  - open_text. cbn [read].
    rewrite bool_decide_eq_false_2 by discriminate.
    rewrite bool_decide_eq_false_2 by discriminate.
    rewrite bool_decide_eq_true_2 by reflexivity.
    rewrite read_until_quote. f_equal.
    destruct Hend as [->| ->]; reflexivity.
  - destruct f as [|b f].
    + destruct Hend as [->| ->]; reflexivity.
    + cbn in Hquotes. apply orb_false_iff in Hquotes as [Hb Hf].
      destruct (plain_char b Hb) as (Hcomma & Hquote & Hcr & Hlf).
      open_text. cbn [read add_string].
      rewrite !bool_decide_eq_false_2 by assumption.
      rewrite (read_plain_chars _ _ Hf). reflexivity.
Qed.

(** At the start of a record the reader treats a written field that is
    followed by a comma as it does at the start of a field. *)
Lemma read_first_field (f k : string) :
  read StartRecord (Directory.csv_field f +:+ String comma k) =
  read StartField (Directory.csv_field f +:+ String comma k).
Proof.
  unfold Directory.csv_field.
  destruct (Directory.csv_needs_quotes f) eqn:Hquotes; [reflexivity|].
  destruct f as [|b f]; [reflexivity|].
  cbn in Hquotes. apply orb_false_iff in Hquotes as [Hb Hf].
  destruct (plain_char b Hb) as (Hcomma & Hquote & Hcr & Hlf).
  open_text. cbn [read].
  rewrite !bool_decide_eq_false_2 by assumption. reflexivity.
Qed.

Lemma join_more (f g : string) (fields : list string) :
  Directory.csv_join (f :: g :: fields) = f +:+ String comma (Directory.csv_join (g :: fields)).
Proof. reflexivity. Qed.

Lemma read_fields (f : string) (fields : list string) (k : string) :
  read StartField
       (Directory.csv_join (map Directory.csv_field (f :: fields)) +:+ String carriage_return (String line_feed k)) =
  (f :: fields) :: read StartRecord k.
Proof.
  revert f. induction fields as [|g fields IH]; intros f.
  - cbn [map Directory.csv_join].
    rewrite read_field by (right; reflexivity).
    cbn [read]. rewrite bool_decide_eq_false_2 by discriminate.
    rewrite bool_decide_eq_true_2 by reflexivity.
    rewrite bool_decide_eq_true_2 by reflexivity.
    rewrite add_string_head, append_empty. reflexivity.
  - cbn [map]. rewrite join_more. open_text.
    rewrite read_field by (left; reflexivity).
    cbn [read]. rewrite bool_decide_eq_false_2 by discriminate.
    rewrite bool_decide_eq_false_2 by discriminate.
    rewrite bool_decide_eq_true_2 by reflexivity.
    change (Directory.csv_field g :: map Directory.csv_field fields)
      with (map Directory.csv_field (g :: fields)).
    rewrite IH. cbn [save_field]. rewrite add_string_head, append_empty. reflexivity.
Qed.

(** A written record of two or more fields is read back as these fields. *)
Lemma read_record (f g : string) (fields : list string) (k : string) :
  read StartRecord (Directory.csv_record (f :: g :: fields) +:+ k) =
  (f :: g :: fields) :: read StartRecord k.
Proof.
  rewrite <- (read_fields f (g :: fields) k).
  unfold Directory.csv_record. cbn [map]. rewrite !join_more.
  unfold cr, nl. open_text. apply read_first_field.
Qed.

Lemma read_records (records : list (list string)) :
  Forall (fun fields => 2 <= length fields) records ->
  rows (String.concat "" (map Directory.csv_record records)) = records.
Proof.
  unfold rows. induction 1 as [|fields records Hfields _ IH]; [reflexivity|].
  cbn [map]. rewrite concat_records.
  destruct fields as [|f [|g fields]]; cbn in Hfields; try lia.
  rewrite read_record, IH. reflexivity.
Qed.

Lemma read_csv_text (users : list user) :
  rows (Directory.csv_text users) = Directory.fieldnames :: map Directory.user_row users.
Proof.
  unfold Directory.csv_text. apply read_records.
  constructor; [cbn; lia|].
  induction users as [|u users IH]; constructor; [cbn; lia|exact IH].
Qed.

End ReadBack.

Section ExportedCsv.
Context `{Provider} `{Runtime}.

Lemma io_bound : global_name UserExtract.imports "io" = ret tt.
Proof. reflexivity. Qed.

Lemma csv_bound : global_name UserExtract.imports "csv" = ret tt.
Proof. reflexivity. Qed.

(** C1: when the instance is found and the provider serves a sequence of
    pages of which only the last carries no continuation token, the exporter
    (extract_users, and export_identity_center_users of the script once its
    temporary file exists) requests exactly these pages, the first without a
    token and each later one with the token of the page before, and then
    ships a CSV text made of the header record UserId, Username, Email,
    GivenName, FamilyName followed by one record per user of all pages, in
    order: a reader of the dialect finds in the shipped text the header and
    then, for each user, one record of five fields, whatever characters the
    fields hold, so one more record than the pages hold users.  A record
    holds the user id, user name, the value of the first email flagged
    primary (the empty string when none is), given name and family name,
    absent members written as the empty string. *)
Theorem export_follows_tokens_and_writes_every_user
        (fuel : nat) (output_file : pyval) (s s1 s2 : account)
        (instances : instances_response) (first : sso_instance)
        (others : list sso_instance) (pages : list users_response) :
  respond ListInstances s = (inr instances, s1) ->
  Instances instances = Some (first :: others) ->
  served (IdentityStoreId first) None pages s1 s2 ->
  length pages <= fuel ->
  let store := IdentityStoreId first in
  let users := users_of pages in
  let key := "users/" +:+ py_str output_file in
  (forall extractor, exists uploaded,
     calls (UserExtract.extract_users fuel extractor output_file s) =
     Invoked ListInstances (inr instances)
     :: listing_trace store None pages
     ++ [Invoked (PutObject (UserExtract.bucket_name extractor) key
                            (Directory.csv_text users)) uploaded]) /\
  (forall setup path s3,
     respond NamedTemporaryFile s2 = (inr path, s3) ->
     exists uploaded cleanup,
       calls (SetupScript.export_identity_center_users fuel setup output_file s) =
       Invoked ListInstances (inr instances)
       :: listing_trace store None pages
       ++ Invoked NamedTemporaryFile (inr path)
       :: Invoked (UploadFile path (Directory.csv_text users)
                              (Setup.bucket_name setup) key) uploaded
       :: cleanup) /\
  CsvReader.rows (Directory.csv_text users) =
    ["UserId"; "Username"; "Email"; "GivenName"; "FamilyName"]
    :: map Directory.user_row users /\
  length (CsvReader.rows (Directory.csv_text users)) = S (total_users pages) /\
  (forall u : user, exists address : string,
     Directory.user_row u =
       [ default "" (UserId u); default "" (UserName u); address;
         default "" (Name u ≫= GivenName); default "" (Name u ≫= FamilyName) ] /\
     (forall before e after,
        default [] (Emails u) = before ++ e :: after ->
        Forall not_primary before -> Primary e = Some true -> address = Value e) /\
     (Forall not_primary (default [] (Emails u)) -> address = "")).
Proof.
  intros Hinst Hsome Hserved Hfuel. cbn zeta.
  pose proof (list_users_loop_served _ _ _ _ _ Hserved fuel [] (or_introl eq_refl) Hfuel)
    as Hloop.
  cbn [app] in Hloop.
  split; [|split; [|split; [|split]]].
  - intros extractor.
    unfold UserExtract.extract_users, try_except, bind.
    rewrite (invoke_answer _ _ _ _ Hinst). simpl_run. rewrite Hsome.
    unfold print. simpl_run. rewrite Hloop. simpl_run.
    rewrite io_bound, csv_bound. unfold ret. simpl_run.
    unfold invoke.
    destruct (respond (PutObject _ _ _) s2) as [[[]|[]] s3]; norm_trace;
      eexists; reflexivity.
  - intros setup path s3 Htemp.
    unfold SetupScript.export_identity_center_users, try_except, bind.
    rewrite (invoke_answer _ _ _ _ Hinst). simpl_run. rewrite Hsome.
    unfold print. simpl_run. rewrite Hloop. simpl_run.
    rewrite (invoke_answer _ _ _ _ Htemp). simpl_run.
    match goal with |- context [try_finally _ ?fin _] => generalize fin end.
    intros fin. unfold try_finally, invoke, ret, raise.
    destruct (respond (UploadFile _ _ _ _) s3) as [[[]|[]] s4]; simpl_run;
      destruct (fin s4) as [[[]|[]|] s5 c5 o5]; norm_trace;
      do 2 eexists; reflexivity.
  - apply read_csv_text.
  - rewrite read_csv_text. cbn [length]. rewrite length_map, length_users_of.
    reflexivity.
  - intros u. exists (Directory.primary_email u). split; [reflexivity|split].
    + intros before e after Hemails Hbefore Hprimary.
      unfold Directory.primary_email. rewrite Hemails.
      apply first_primary_found; assumption.
    + intros Habsent. apply first_primary_absent. exact Habsent.
Qed.

End ExportedCsv.

(** Two pages of one user each, the first with a token: two requests, the
    second carrying that token, and a CSV of a header and two records. *)
Lemma export_follows_tokens_and_writes_every_user_witness :
  exists uploaded,
    calls (@UserExtract.extract_users two_pages sample_runtime 2 sample_extractor
             (PStr "users.csv") tt) =
    [ Invoked ListInstances (inr {| Instances := Some [sample_instance] |});
      Invoked (ListUsers "d-12345" None) (inr first_page);
      Invoked (ListUsers "d-12345" (Some "token123")) (inr second_page);
      Invoked (PutObject (PStr "q-logs") "users/users.csv"
                 ("UserId,Username,Email,GivenName,FamilyName" +:+ cr +:+ nl +:+
                  "user-1,testuser1,test1@example.com,Test1,User1" +:+ cr +:+ nl +:+
                  "user-2,testuser2,,Test2," +:+ cr +:+ nl))
              uploaded ].
Proof.
  assert (Hserved : @served two_pages "d-12345" None [first_page; second_page] tt tt).
  { apply (@served_more two_pages "d-12345" None first_page [second_page] tt tt tt);
      [reflexivity|reflexivity|].
    apply (@served_last two_pages "d-12345" (Some "token123") second_page tt tt);
      reflexivity. }
  destruct (proj1 (@export_follows_tokens_and_writes_every_user two_pages sample_runtime
                     2 (PStr "users.csv") tt tt tt
                     {| Instances := Some [sample_instance] |} sample_instance []
                     [first_page; second_page] eq_refl eq_refl Hserved (le_n 2))
                  sample_extractor) as [uploaded Hcalls].
  exists uploaded. rewrite Hcalls. reflexivity.
Defined.

(** ** Footprints of methods *)

Section Footprints.
Context `{Provider}.
Variable allowed : call -> Prop.

Lemma only_ret {A} (a : A) : only allowed (ret a).
Proof. intros s. constructor. Qed.

Lemma only_raise {A} (e : exn) : only allowed (@raise _ A e).
Proof. intros s. constructor. Qed.

Lemma only_timeout {A} : only allowed (@timeout _ A).
Proof. intros s. constructor. Qed.

Lemma only_print (line : string) : only allowed (print line).
Proof. intros s. constructor. Qed.

Lemma only_invoke (c : call) : allowed c -> only allowed (invoke c).
Proof.
  intros Hc s. unfold invoke.
  destruct (respond c s) as [answer s']. repeat constructor. exact Hc.
Qed.

Lemma only_bind {A B} (m : M A) (k : A -> M B) :
  only allowed m -> (forall a, only allowed (k a)) -> only allowed (bind m k).
Proof.
  intros Hm Hk s. unfold bind. specialize (Hm s).
  destruct (m s) as [[a|e|] s' cs out]; cbn in Hm; simpl_run; auto.
  rewrite calls_after. apply Forall_app. split; [exact Hm|apply Hk].
Qed.

Lemma only_try_except {A} (m : M A) (h : exn -> M A) :
  only allowed m -> (forall e, only allowed (h e)) -> only allowed (try_except m h).
Proof.
  intros Hm Hh s. unfold try_except. specialize (Hm s).
  destruct (m s) as [[a|e|] s' cs out]; cbn in Hm; simpl_run; auto.
  rewrite calls_after. apply Forall_app. split; [exact Hm|apply Hh].
Qed.

Lemma only_try_finally {A} (m : M A) (fin : M unit) :
  only allowed m -> only allowed fin -> only allowed (try_finally m fin).
Proof.
  intros Hm Hfin s. unfold try_finally. specialize (Hm s).
  destruct (m s) as [[a|e|] s' cs out]; cbn in Hm; simpl_run; auto;
    specialize (Hfin s'); destruct (fin s') as [[[]|e'|] s'' cs' out'];
    cbn in Hfin; simpl_run; apply Forall_app; split; assumption.
Qed.

Lemma only_for_each {A} (items : list A) (body : A -> M unit) :
  (forall x, only allowed (body x)) -> only allowed (for_each items body).
Proof.
  intros Hbody. induction items as [|x items IH]; cbn [for_each].
  - apply only_ret.
  - apply only_bind; [apply Hbody|intros _; exact IH].
Qed.

Lemma only_for_each_with {A S} (items : list A) (body : A -> S -> M S) (local : S) :
  (forall x l, only allowed (body x l)) -> only allowed (for_each_with items body local).
Proof.
  intros Hbody. revert local.
  induction items as [|x items IH]; intros local; cbn [for_each_with].
  - apply only_ret.
  - apply only_bind.
    + apply only_try_except.
      * apply only_bind; [apply Hbody|intros ?; apply only_ret].
      * intros ?; apply only_ret.
    + intros [updated|e]; [apply IH|apply only_ret].
Qed.

Lemma only_for_each_page_with {A S} (it : paged A) (body : A -> S -> M S) (local : S) :
  (forall x l, only allowed (body x l)) ->
  only allowed (for_each_page_with it body local).
Proof.
  intros Hbody. unfold for_each_page_with.
  apply only_bind; [apply only_for_each_with; exact Hbody|].
  intros r. destruct (snd r); apply only_ret.
Qed.

Lemma only_reraise (exit : option exn) : only allowed (reraise exit).
Proof. destruct exit; [apply only_raise|apply only_ret]. Qed.

Lemma only_global_name (imports : list string) (name : string) :
  only allowed (global_name imports name).
Proof.
  unfold global_name. destruct (bool_decide _); [apply only_ret|apply only_raise].
Qed.

Lemma only_list_users_loop (fuel : nat) (store : string) (users : list user)
      (token : option string) :
  (forall sent, allowed (ListUsers store sent)) ->
  only allowed (Directory.list_users_loop fuel store users token).
Proof.
  intros Hlist. revert users token.
  induction fuel as [|fuel IH]; intros users token; cbn [Directory.list_users_loop].
  - apply only_timeout.
  - apply only_bind.
    + destruct (truthy_str token);
        [apply (only_invoke (ListUsers store token))
        |apply (only_invoke (ListUsers store None))]; apply Hlist.
    + intros response. destruct (negb _); [apply only_ret|apply IH].
Qed.

End Footprints.

Lemma count_calls_none (test : call -> bool) (trace : list event) :
  Forall (fun e => test (ev_call e) = false) trace ->
  count_calls test trace = 0.
Proof.
  unfold count_calls. induction 1 as [|e trace He _ IH]; [reflexivity|].
  rewrite filter_cons_False; [exact IH|]. rewrite He. discriminate.
Qed.

(** Splits the footprint of a method along its structure. *)
Ltac footprint :=
  repeat first
    [ apply only_ret | apply only_raise | apply only_print | apply only_timeout
    | apply only_reraise | apply only_global_name
    | apply only_bind; [|intros ?]
    | apply only_try_except; [|intros ?]
    | apply only_try_finally
    | match goal with
      | |- only ?allowed (invoke ?c) => apply (only_invoke allowed c)
      | |- only _ (if ?b then _ else _) => destruct b
      | |- only _ (match ?x with _ => _ end) => destruct x
      end ].

(** ** The export of the setup Lambda (C9) *)

Section SetupLambdaExport.
Context `{Provider} `{Runtime}.
Import Setup.

Lemma create_s3_bucket_no_upload (self : QDeveloper3PSetup) :
  only no_upload (create_s3_bucket self).
Proof. unfold create_s3_bucket. footprint; reflexivity. Qed.

Lemma setup_cloudtrail_no_upload (self : QDeveloper3PSetup) :
  only no_upload (setup_cloudtrail self).
Proof. unfold setup_cloudtrail, setup_cloudtrail_named. footprint; reflexivity. Qed.

Lemma io_unbound :
  global_name SetupLambda.imports "io" =
  raise (OtherError "NameError" "name 'io' is not defined").
Proof. reflexivity. Qed.

Lemma export_no_upload (fuel : nat) (self : QDeveloper3PSetup) (output_file : pyval) :
  only no_upload (SetupLambda.export_identity_center_users fuel self output_file).
Proof.
  unfold SetupLambda.export_identity_center_users.
  apply only_try_except; [|intros []; footprint].
  apply only_bind; [apply only_invoke; reflexivity|].
  intros instances.
  destruct (Instances instances) as [[|first others]|]; [footprint| |footprint].
  apply only_bind; [apply only_print|intros _].
  apply only_bind; [apply only_print|intros _].
  apply only_bind; [apply only_list_users_loop; reflexivity|intros users].
  rewrite io_unbound. intros s. constructor.
Qed.

Lemma export_not_true (fuel : nat) (self : QDeveloper3PSetup) (output_file : pyval)
      (s : account) :
  value (SetupLambda.export_identity_center_users fuel self output_file s) <> Returns true.
Proof.
  unfold SetupLambda.export_identity_center_users, try_except, bind, invoke.
  destruct (respond ListInstances s) as [[[]|instances] s1]; simpl_run;
    [unfold print, ret; simpl_run; discriminate..|].
  destruct (Instances instances) as [[|first others]|];
    unfold print, ret; simpl_run; try discriminate.
  destruct (Directory.list_users_loop fuel (IdentityStoreId first) [] None s1)
    as [[users|[]|] s2 cs out]; simpl_run; discriminate.
Qed.

Lemma init_no_upload (bucket_name region : pyval) :
  only no_upload (init bucket_name region).
Proof. unfold init. footprint; reflexivity. Qed.

Lemma run_setup_no_upload (fuel : nat) (self : QDeveloper3PSetup)
      (export_users output_file : pyval) :
  only no_upload (SetupLambda.run_setup fuel self export_users output_file).
Proof.
  unfold SetupLambda.run_setup.
  apply only_bind; [apply only_print|intros _].
  apply only_bind; [apply create_s3_bucket_no_upload|intros created].
  destruct (negb created); [footprint|].
  apply only_bind; [apply setup_cloudtrail_no_upload|intros trail_ready].
  destruct (negb trail_ready); [footprint|].
  apply only_bind.
  - destruct (truthy export_users); [|footprint].
    apply only_bind; [apply export_no_upload|intros exported].
    destruct (negb exported); footprint.
  - intros _. footprint.
Qed.

(** C9: in the setup Lambda module, whenever an instance is found and the
    user list is retrieved, export_identity_center_users returns False: the
    name io is not bound in the module, the NameError is caught by the
    generic handler, and the last line printed is the unexpected-error
    message.  The method never returns True and no invocation of the handler
    ever issues put_object (or any upload).  run_setup nevertheless returns
    True whenever the bucket and trail steps return True and the export run
    ends. *)
Theorem setup_lambda_export_fails_on_unbound_io
        (fuel : nat) (self : QDeveloper3PSetup) (export_users output_file : pyval)
        (event : gmap string pyval) (s : account) :
  (forall s1 s2 instances first others pages,
     respond ListInstances s = (inr instances, s1) ->
     Instances instances = Some (first :: others) ->
     served (IdentityStoreId first) None pages s1 s2 ->
     length pages <= fuel ->
     SetupLambda.export_identity_center_users fuel self output_file s =
     Run (Returns false) s2
         (Invoked ListInstances (inr instances)
          :: listing_trace (IdentityStoreId first) None pages)
         [ "Found IAM Identity Center instance: " +:+ InstanceArn first;
           "Identity Store ID: " +:+ IdentityStoreId first;
           "Unexpected error exporting users: name 'io' is not defined" ]) /\
  (value (SetupLambda.export_identity_center_users fuel self output_file s)
   <> Returns true) /\
  (count_calls is_put_object (calls (SetupLambda.lambda_handler fuel event s)) = 0) /\
  (value (create_s3_bucket self s) = Returns true ->
   value (setup_cloudtrail self (final (create_s3_bucket self s))) = Returns true ->
   (value (SetupLambda.export_identity_center_users fuel self output_file
             (final (setup_cloudtrail self (final (create_s3_bucket self s)))))
    <> Timeout) ->
   value (SetupLambda.run_setup fuel self export_users output_file s) = Returns true).
Proof.
  split; [|split; [|split]].
  - intros s1 s2 instances first others pages Hinst Hsome Hserved Hfuel.
    pose proof (list_users_loop_served _ _ _ _ _ Hserved fuel [] (or_introl eq_refl) Hfuel)
      as Hloop.
    cbn [app] in Hloop.
    unfold SetupLambda.export_identity_center_users, try_except, bind.
    rewrite (invoke_answer _ _ _ _ Hinst). simpl_run. rewrite Hsome.
    unfold print. simpl_run. rewrite Hloop. simpl_run.
    rewrite io_unbound. unfold raise, ret. norm_trace. reflexivity.
  - apply export_not_true.
  - apply count_calls_none.
    unfold SetupLambda.lambda_handler.
    destruct (negb _); [constructor|].
    apply (only_bind no_upload); [apply init_no_upload|intros setup].
    apply (only_bind no_upload); [apply run_setup_no_upload|intros result].
    apply only_ret.
  - intros Hcreated Htrail Hends.
    unfold SetupLambda.run_setup, bind, print, ret.
    destruct (create_s3_bucket self s) as [created s1 c1 o1].
    cbn in Hcreated, Htrail, Hends. subst created. simpl_run.
    destruct (setup_cloudtrail self s1) as [ready s2 c2 o2].
    cbn in Htrail, Hends. subst ready. simpl_run.
    destruct (truthy export_users); simpl_run; [|reflexivity].
    pose proof (export_not_true fuel self output_file s2) as Hnot.
    destruct (SetupLambda.export_identity_center_users fuel self output_file s2)
      as [[[|]|e|] s3 c3 o3] eqn:Hexport; cbn in Hends, Hnot; simpl_run;
      try reflexivity; try congruence.
    exfalso. revert Hexport.
    unfold SetupLambda.export_identity_center_users, try_except.
    destruct (bind _ _ _) as [[?|[]|] ? ? ?]; unfold bind, print, ret;
      simpl_run; discriminate.
Qed.

End SetupLambdaExport.

(** Two pages are retrieved and the export still fails on the unbound name,
    without an upload. *)
Lemma setup_lambda_export_fails_on_unbound_io_witness :
  @SetupLambda.export_identity_center_users two_pages sample_runtime 2 sample_setup
     (PStr "users.csv") tt =
  @Run two_pages bool (Returns false) tt
       [ Invoked ListInstances (inr {| Instances := Some [sample_instance] |});
         Invoked (ListUsers "d-12345" None) (inr first_page);
         Invoked (ListUsers "d-12345" (Some "token123")) (inr second_page) ]
       [ "Found IAM Identity Center instance: arn:aws:sso:::instance/ssoins-12345";
         "Identity Store ID: d-12345";
         "Unexpected error exporting users: name 'io' is not defined" ].
Proof.
  assert (Hserved : @served two_pages "d-12345" None [first_page; second_page] tt tt).
  { apply (@served_more two_pages "d-12345" None first_page [second_page] tt tt tt);
      [reflexivity|reflexivity|].
    apply (@served_last two_pages "d-12345" (Some "token123") second_page tt tt);
      reflexivity. }
  exact (proj1 (@setup_lambda_export_fails_on_unbound_io two_pages sample_runtime
                  2 sample_setup (PBool true) (PStr "users.csv") sample_event tt)
               tt tt {| Instances := Some [sample_instance] |} sample_instance []
               [first_page; second_page] eq_refl eq_refl Hserved (le_n 2)).
Defined.

(** ** Teardown of absent resources (C4) *)

Section AbsentResources.
Context `{Provider} `{Runtime}.
Import Cleanup.

(** C4: each deletion of the teardown, run when the provider reports its
    target absent (ResourceNotFoundException for a schedule rule or a
    function, NoSuchEntity for an inline policy and its role,
    TrailNotFoundException for the trail, 404 for the bucket probe of the
    emptying, NoSuchBucket for the bucket), returns normally, prints the
    already-deleted notice instead of an error line (nothing for the
    policy), and issues no further call for that resource.  In an account
    where every such call is answered that way, run_cleanup as a whole
    returns normally after attempting all eleven deletions. *)
Theorem teardown_tolerates_absent_resources (self : QDeveloper3PCleanup) (s : account) :
  (forall rule text s',
     respond (ListTargetsByRule rule) s
       = (inl (ClientError "ResourceNotFoundException" text), s') ->
     delete_eventbridge_rule rule s =
     Run (Returns tt) s'
         [Invoked (ListTargetsByRule rule)
                  (inl (ClientError "ResourceNotFoundException" text))]
         ["EventBridge rule " +:+ rule +:+ " not found (already deleted)"]) /\
  (forall function_name text s',
     respond (DeleteFunction function_name) s
       = (inl (ClientError "ResourceNotFoundException" text), s') ->
     delete_lambda_function function_name s =
     Run (Returns tt) s'
         [Invoked (DeleteFunction function_name)
                  (inl (ClientError "ResourceNotFoundException" text))]
         ["Lambda function " +:+ function_name +:+ " not found (already deleted)"]) /\
  (forall info text text' s1 s2,
     respond (DeleteRolePolicy (role_name info) (policy_name info)) s
       = (inl (ClientError "NoSuchEntity" text), s1) ->
     respond (DeleteRole (role_name info)) s1
       = (inl (ClientError "NoSuchEntity" text'), s2) ->
     delete_iam_role_and_policy info s =
     Run (Returns tt) s2
         [Invoked (DeleteRolePolicy (role_name info) (policy_name info))
                  (inl (ClientError "NoSuchEntity" text));
          Invoked (DeleteRole (role_name info)) (inl (ClientError "NoSuchEntity" text'))]
         ["IAM role " +:+ role_name info +:+ " not found (already deleted)"]) /\
  (forall text s',
     respond (DeleteTrail (trail_name self)) s
       = (inl (ClientError "TrailNotFoundException" text), s') ->
     delete_cloudtrail self s =
     Run (Returns tt) s'
         [Invoked (DeleteTrail (trail_name self))
                  (inl (ClientError "TrailNotFoundException" text))]
         ["CloudTrail " +:+ trail_name self +:+ " not found (already deleted)"]) /\
  (forall text s',
     respond (HeadBucket (bucket_name self)) s = (inl (ClientError "404" text), s') ->
     empty_s3_bucket self s =
     Run (Returns tt) s'
         [Invoked (HeadBucket (bucket_name self)) (inl (ClientError "404" text))]
         ["S3 bucket " +:+ py_str (bucket_name self) +:+ " not found (already deleted)"]) /\
  (forall text s',
     respond (DeleteBucket (bucket_name self)) s
       = (inl (ClientError "NoSuchBucket" text), s') ->
     delete_s3_bucket self s =
     Run (Returns tt) s'
         [Invoked (DeleteBucket (bucket_name self)) (inl (ClientError "NoSuchBucket" text))]
         ["S3 bucket " +:+ py_str (bucket_name self) +:+ " not found (already deleted)"]) /\
  ((forall c s0 code,
      not_found_code c = Some code ->
      exists text s', respond c s0 = (inl (ClientError code text), s')) ->
   value (run_cleanup self s) = Returns tt /\
   map ev_call (calls (run_cleanup self s)) =
     [ ListTargetsByRule "QDeveloper3PSetupSchedule";
       ListTargetsByRule "IAMIdentityCenterUserExtractSchedule";
       DeleteFunction "QDeveloper3PSetup";
       DeleteFunction "IAMIdentityCenterUserExtract";
       DeleteRolePolicy "lambda-q-developer-role" "QDeveloper3PPermissions";
       DeleteRole "lambda-q-developer-role";
       DeleteRolePolicy "lambda-iam-identity-center-extract-role"
                        "IAMIdentityCenterExtractPermissions";
       DeleteRole "lambda-iam-identity-center-extract-role";
       DeleteTrail (trail_name self);
       HeadBucket (bucket_name self);
       DeleteBucket (bucket_name self) ] /\
   stdout (run_cleanup self s) =
     [ "Starting cleanup for Q Developer 3P integration...";
       "Bucket: " +:+ py_str (bucket_name self);
       "Region: " +:+ py_str (region self);
       str_repeat "-" 50;
       "1. Deleting EventBridge rules...";
       "EventBridge rule QDeveloper3PSetupSchedule not found (already deleted)";
       "EventBridge rule IAMIdentityCenterUserExtractSchedule not found (already deleted)";
       nl +:+ "2. Deleting Lambda functions...";
       "Lambda function QDeveloper3PSetup not found (already deleted)";
       "Lambda function IAMIdentityCenterUserExtract not found (already deleted)";
       nl +:+ "3. Deleting IAM roles and policies...";
       "IAM role lambda-q-developer-role not found (already deleted)";
       "IAM role lambda-iam-identity-center-extract-role not found (already deleted)";
       nl +:+ "4. Deleting CloudTrail...";
       "CloudTrail " +:+ trail_name self +:+ " not found (already deleted)";
       nl +:+ "5. Emptying S3 bucket...";
       "S3 bucket " +:+ py_str (bucket_name self) +:+ " not found (already deleted)";
       nl +:+ "6. Deleting S3 bucket...";
       "S3 bucket " +:+ py_str (bucket_name self) +:+ " not found (already deleted)";
       nl +:+ str_repeat "=" 50;
       "Cleanup completed!";
       nl +:+ "IMPORTANT: Manual steps required:";
       "1. Go to Amazon Q Developer console";
       "2. Disable prompt logging in Preferences";
       "3. Disable 'Collect granular metrics per user' in usage activity";
       "4. Remove S3 location configurations" ]).
Proof.
  repeat apply conj.
  - intros rule text s' Hanswer.
    unfold delete_eventbridge_rule, try_except, bind.
    rewrite (invoke_answer _ _ _ _ Hanswer). reflexivity.
  - intros function_name text s' Hanswer.
    unfold delete_lambda_function, try_except, bind.
    rewrite (invoke_answer _ _ _ _ Hanswer). reflexivity.
  - intros info text text' s1 s2 Hpolicy Hrole.
    unfold delete_iam_role_and_policy, try_except, bind.
    rewrite (invoke_answer _ _ _ _ Hpolicy). simpl_run.
    change (String.eqb "NoSuchEntity" "NoSuchEntity") with true. cbn [negb].
    unfold ret. simpl_run.
    rewrite (invoke_answer _ _ _ _ Hrole). reflexivity.
  - intros text s' Hanswer.
    unfold delete_cloudtrail, try_except, bind.
    rewrite (invoke_answer _ _ _ _ Hanswer). reflexivity.
  - intros text s' Hanswer.
    unfold empty_s3_bucket, try_except, bind.
    rewrite (invoke_answer _ _ _ _ Hanswer). reflexivity.
  - intros text s' Hanswer.
    unfold delete_s3_bucket, try_except, bind.
    rewrite (invoke_answer _ _ _ _ Hanswer). reflexivity.
  - intros Habsent.
    unfold run_cleanup, delete_eventbridge_rules, delete_lambda_functions,
      delete_iam_roles_and_policies, rules_to_delete, functions_to_delete,
      roles_to_delete, for_each,
      delete_eventbridge_rule, delete_lambda_function, delete_iam_role_and_policy,
      delete_cloudtrail, empty_s3_bucket, delete_s3_bucket.
    unfold try_except, bind, invoke, print, ret. cbn [role_name policy_name].
    repeat match goal with
           | |- context [respond ?c ?s0] =>
               let text := fresh "text" in
               let s' := fresh "s" in
               let E := fresh "E" in
               destruct (Habsent c s0 _ eq_refl) as (text & s' & E);
               rewrite E; clear E;
               cbn [after value final calls stdout fst snd app negb
                    String.eqb Ascii.eqb Bool.eqb andb]
           end.
    repeat split.
Qed.

End AbsentResources.

(** Nothing of the setup exists: the whole teardown runs through. *)
Lemma teardown_tolerates_absent_resources_witness :
  value (@Cleanup.run_cleanup nothing_exists sample_runtime sample_cleanup tt) = Returns tt /\
  length (calls (@Cleanup.run_cleanup nothing_exists sample_runtime sample_cleanup tt)) = 11.
Proof.
  destruct (@teardown_tolerates_absent_resources nothing_exists sample_runtime
              sample_cleanup tt) as (_ & _ & _ & _ & _ & _ & Hrun).
  destruct Hrun as (Hvalue & Hcalls & _).
  - intros c [] code Hcode.
    exists "An error occurred: not found", tt.
    unfold respond, nothing_exists, stateless. rewrite Hcode. reflexivity.
  - split; [exact Hvalue|].
    rewrite <- (length_map ev_call), Hcalls. reflexivity.
Defined.

(** ** The order of the teardown calls (C3) *)

(** *** Trace properties that compose *)

Section Always.
Context `{Provider}.
Variable P : list event -> Prop.
Hypothesis P_nil : P [].
Hypothesis P_app : forall t1 t2, P t1 -> P t2 -> P (t1 ++ t2).

Lemma always_quiet {A} (m : M A) :
  (forall s, calls (m s) = []) -> always P m.
Proof. intros Hm s. rewrite Hm. exact P_nil. Qed.

Lemma always_bind {A B} (m : M A) (k : A -> M B) :
  always P m -> (forall a, always P (k a)) -> always P (bind m k).
Proof.
  intros Hm Hk s. unfold bind. specialize (Hm s).
  destruct (m s) as [[a|e|] s' cs out]; cbn in Hm; simpl_run; auto.
  rewrite calls_after. apply P_app; [exact Hm|apply Hk].
Qed.

Lemma always_for_each {A} (items : list A) (body : A -> M unit) :
  (forall x, always P (body x)) -> always P (for_each items body).
Proof.
  intros Hbody. induction items as [|x items IH]; cbn [for_each].
  - apply always_quiet. reflexivity.
  - apply always_bind; [apply Hbody|intros _; exact IH].
Qed.

Lemma always_of_only {A} (allowed : call -> Prop) (m : M A) :
  (forall t, Forall (fun e => allowed (ev_call e)) t -> P t) ->
  only allowed m -> always P m.
Proof. intros Himp Hm s. apply Himp, Hm. Qed.

End Always.

(** *** Which client each step of the teardown uses *)

Section Clients.
Context `{Provider} `{Runtime}.
Import Cleanup.

Lemma only_weaken {A} (allowed allowed' : call -> Prop) (m : M A) :
  (forall c, allowed c -> allowed' c) -> only allowed m -> only allowed' m.
Proof.
  intros Himp Hm s. specialize (Hm s).
  induction Hm; constructor; auto.
Qed.

Lemma rule_step_client (rule : string) :
  only (fun c => client_of c = EventsClient) (delete_eventbridge_rule rule).
Proof. unfold delete_eventbridge_rule. footprint; reflexivity. Qed.

Lemma rules_client (self : QDeveloper3PCleanup) :
  only (fun c => client_of c = EventsClient) (delete_eventbridge_rules self).
Proof. apply only_for_each. intros rule. apply rule_step_client. Qed.

Lemma functions_client (self : QDeveloper3PCleanup) :
  only (fun c => client_of c = LambdaClient) (delete_lambda_functions self).
Proof.
  apply only_for_each. intros function_name.
  unfold delete_lambda_function. footprint; reflexivity.
Qed.

Lemma role_step_client (info : role_info) :
  only (fun c => client_of c = IamClient) (delete_iam_role_and_policy info).
Proof. unfold delete_iam_role_and_policy. footprint; reflexivity. Qed.

Lemma roles_client (self : QDeveloper3PCleanup) :
  only (fun c => client_of c = IamClient) (delete_iam_roles_and_policies self).
Proof. apply only_for_each. intros info. apply role_step_client. Qed.

Lemma trail_client (self : QDeveloper3PCleanup) :
  only (fun c => client_of c = CloudTrailClient) (delete_cloudtrail self).
Proof. unfold delete_cloudtrail. footprint; reflexivity. Qed.

Lemma emptying_client (self : QDeveloper3PCleanup) :
  only (fun c => client_of c = S3Client /\ forall bucket, c <> DeleteBucket bucket)
       (empty_s3_bucket self).
Proof.
  unfold empty_s3_bucket.
  apply only_try_except; [|intros e; footprint].
  apply only_bind; [apply only_invoke; split; [reflexivity|discriminate]|intros _].
  apply only_bind; [apply only_invoke; split; [reflexivity|discriminate]|intros it].
  apply only_bind.
  { apply only_for_each_page_with. intros page n.
    unfold delete_current_objects. footprint. split; [reflexivity|discriminate]. }
  intros current. apply only_bind; [apply only_reraise|intros _].
  apply only_bind.
  { apply only_try_except; [|intros e; apply only_ret].
    apply only_bind; [apply only_invoke; split; [reflexivity|discriminate]|intros vit].
    apply only_for_each_page_with. intros page n.
    unfold delete_object_versions. footprint. split; [reflexivity|discriminate]. }
  intros versions. footprint.
Qed.

End Clients.

(** *** Targets before rules, policies before roles *)

Lemma split_in_app {A} (t1 t2 before after : list A) (e : A) :
  t1 ++ t2 = before ++ e :: after ->
  (exists l, t1 = before ++ e :: l /\ after = l ++ t2) \/
  (exists l, before = t1 ++ l /\ t2 = l ++ e :: after).
Proof.
  revert before. induction t1 as [|x t1 IH]; intros before Hsplit.
  - right. exists before. split; [reflexivity|exact Hsplit].
  - destruct before as [|y before]; cbn in Hsplit.
    + injection Hsplit as Hx Hrest. subst. left. exists t1. split; reflexivity.
    + injection Hsplit as Hx Hrest. subst y.
      destruct (IH before Hrest) as [(l & -> & ->)|(l & -> & ->)].
      * left. exists l. split; reflexivity.
      * right. exists l. split; reflexivity.
Qed.

Lemma targets_before_rule_nil : targets_before_rule [].
Proof. intros [|x before] e after rule Hsplit; discriminate. Qed.

Lemma targets_before_rule_app (t1 t2 : list event) :
  targets_before_rule t1 -> targets_before_rule t2 -> targets_before_rule (t1 ++ t2).
Proof.
  intros H1 H2 before e after rule Hsplit Hcall.
  destruct (split_in_app _ _ _ _ _ Hsplit) as [(l & Ht1 & _)|(l & -> & Ht2)].
  - exact (H1 before e l rule Ht1 Hcall).
  - destruct (H2 l e after rule Ht2 Hcall)
      as (earlier & listing & between & -> & Hlisting).
    exists (t1 ++ earlier), listing, between.
    split; [rewrite app_assoc; reflexivity|exact Hlisting].
Qed.

Lemma targets_before_rule_other (t : list event) :
  Forall (fun e => client_of (ev_call e) <> EventsClient) t -> targets_before_rule t.
Proof.
  intros Hother before e after rule -> Hcall.
  apply Forall_app in Hother as [_ Hother].
  inversion Hother as [|? ? He _]. rewrite Hcall in He. contradiction He. reflexivity.
Qed.

Lemma policy_before_role_nil : policy_before_role [].
Proof. intros [|x before] e after role Hsplit; discriminate. Qed.

Lemma policy_before_role_app (t1 t2 : list event) :
  policy_before_role t1 -> policy_before_role t2 -> policy_before_role (t1 ++ t2).
Proof.
  intros H1 H2 before e after role Hsplit Hcall.
  destruct (split_in_app _ _ _ _ _ Hsplit) as [(l & Ht1 & _)|(l & -> & Ht2)].
  - exact (H1 before e l role Ht1 Hcall).
  - destruct (H2 l e after role Ht2 Hcall) as (removal & policy & Hin & Hremoval).
    exists removal, policy. split; [apply in_or_app; right; exact Hin|exact Hremoval].
Qed.

Lemma policy_before_role_other (t : list event) :
  Forall (fun e => client_of (ev_call e) <> IamClient) t -> policy_before_role t.
Proof.
  intros Hother before e after role -> Hcall.
  apply Forall_app in Hother as [_ Hother].
  inversion Hother as [|? ? He _]. rewrite Hcall in He. contradiction He. reflexivity.
Qed.

(** Where an event can sit in a trace of at most three calls. *)
Ltac place_event Hsplit :=
  match type of Hsplit with
  | _ = ?before ++ _ :: _ =>
      destruct before as [|? [|? [|? [|? ?]]]]; cbn in Hsplit; simplify_eq
  end.

Section Steps.
Context `{Provider} `{Runtime}.
Import Cleanup.

Lemma rule_step_order (rule : string) :
  always targets_before_rule (delete_eventbridge_rule rule).
Proof.
  intros s. unfold delete_eventbridge_rule, try_except, bind, invoke.
  destruct (respond (ListTargetsByRule rule) s) as [[e|listing] s1]; simpl_run.
  { destruct e as [code text|cls text]; unfold raise, print;
      [destruct (String.eqb code _)|]; simpl_run;
      intros before e' after rule' Hsplit Hcall; place_event Hsplit; discriminate. }
  destruct (Targets listing) as [[|target targets]|] eqn:Htargets;
    cbn [truthy_list]; unfold ret, print; simpl_run.
  - destruct (respond (DeleteRule rule) s1) as [[e|[]] s2]; simpl_run;
      [destruct e as [code text|cls text]; unfold raise, print;
       [destruct (String.eqb code _)|]; simpl_run|];
      intros before e' after rule' Hsplit Hcall; place_event Hsplit;
      try discriminate; cbn in Hcall; simplify_eq;
      exists [], (Invoked (ListTargetsByRule rule') (inr listing)), [];
      (split; [reflexivity|split; [reflexivity|split; [reflexivity|]]]);
      intros ? Hlisted Hsome; cbn in Hlisted; congruence.
  - destruct (respond (RemoveTargets rule _) s1) as [[e|[]] s2]; simpl_run.
    { destruct e as [code text|cls text]; unfold raise, print;
        [destruct (String.eqb code _)|]; simpl_run;
        intros before e' after rule' Hsplit Hcall; place_event Hsplit; discriminate. }
    destruct (respond (DeleteRule rule) s2) as [[e|[]] s3]; simpl_run;
      [destruct e as [code text|cls text]; unfold raise, print;
       [destruct (String.eqb code _)|]; simpl_run|];
      intros before e' after rule' Hsplit Hcall; place_event Hsplit;
      try discriminate; cbn in Hcall; simplify_eq;
      exists [], (Invoked (ListTargetsByRule rule') (inr listing)),
             [Invoked (RemoveTargets rule' (map Id (default [] (Targets listing))))
                      (inr tt)];
      (split; [rewrite Htargets; reflexivity
              |split; [reflexivity|split; [reflexivity|]]]);
      intros found Hlisted _; cbn in Hlisted;
      eexists; (split; [left; reflexivity|]);
      (split; [cbn; rewrite Hlisted; reflexivity|reflexivity]).
  - destruct (respond (DeleteRule rule) s1) as [[e|[]] s2]; simpl_run;
      [destruct e as [code text|cls text]; unfold raise, print;
       [destruct (String.eqb code _)|]; simpl_run|];
      intros before e' after rule' Hsplit Hcall; place_event Hsplit;
      try discriminate; cbn in Hcall; simplify_eq;
      exists [], (Invoked (ListTargetsByRule rule') (inr listing)), [];
      (split; [reflexivity|split; [reflexivity|split; [reflexivity|]]]);
      intros ? Hlisted Hsome; cbn in Hlisted; congruence.
Qed.

Lemma role_step_order (info : role_info) :
  always policy_before_role (delete_iam_role_and_policy info).
Proof.
  intros s. unfold delete_iam_role_and_policy, try_except, bind, invoke.
  destruct (respond (DeleteRolePolicy _ _) s) as [[e|[]] s1]; simpl_run.
  - destruct e as [code text|cls text]; unfold raise, print, ret;
      [destruct (negb (String.eqb code _))|]; simpl_run.
    3: { intros before e' after role Hsplit Hcall; place_event Hsplit; discriminate. }
    all: destruct (respond (DeleteRole _) s1) as [[e|[]] s2]; simpl_run;
      [destruct e as [code' text'|cls text']; unfold raise, print;
       [destruct (String.eqb code' _)|]; simpl_run|];
      intros before e' after role Hsplit Hcall; place_event Hsplit;
      try discriminate; cbn in Hcall; simplify_eq;
      eexists; exists (policy_name info);
      (split; [left; reflexivity|reflexivity]).
  - unfold print. simpl_run.
    destruct (respond (DeleteRole _) s1) as [[e|[]] s2]; simpl_run;
      [destruct e as [code' text'|cls text']; unfold raise, print;
       [destruct (String.eqb code' _)|]; simpl_run|];
      intros before e' after role Hsplit Hcall; place_event Hsplit;
      try discriminate; cbn in Hcall; simplify_eq;
      eexists; exists (policy_name info);
      (split; [left; reflexivity|reflexivity]).
Qed.

End Steps.

(** *** Emptying the bucket *)

Lemma batches_deleted_failed (bucket : pyval) (batch : list object_id)
      (rest : list (list object_id)) (e : event) :
  ev_call e = DeleteObjects bucket batch ->
  ev_ok e = false ->
  batches_deleted bucket (batch :: rest) [e].
Proof.
  intros Hcall Hfailed. split.
  - cbn. rewrite Hcall. apply prefix_cons, prefix_nil.
  - intros Hall. inversion Hall as [|? ? He _]. unfold answered in He. congruence.
Qed.

Lemma batches_deleted_cons (bucket : pyval) (batch : list object_id)
      (rest : list (list object_id)) (e : event) (events : list event) :
  ev_call e = DeleteObjects bucket batch ->
  batches_deleted bucket rest events ->
  batches_deleted bucket (batch :: rest) (e :: events).
Proof.
  intros Hcall [Hprefix Hall]. split.
  - cbn. rewrite Hcall. apply prefix_cons, Hprefix.
  - intros Hanswered. inversion Hanswered as [|? ? _ Hrest]. subst.
    cbn. rewrite Hcall, (Hall Hrest). reflexivity.
Qed.

Lemma batches_deleted_none (bucket : pyval) : batches_deleted bucket [] [].
Proof. split; [apply prefix_nil|reflexivity]. Qed.

Section Emptying.
Context `{Provider} `{Runtime}.
Import Cleanup.

Lemma for_each_with_step {A S} (x : A) (rest : list A) (body : A -> S -> M S)
      (local : S) (s : account) :
  for_each_with (x :: rest) body local s =
  match body x local s with
  | Run (Returns updated) s' cs out => after cs out (for_each_with rest body updated s')
  | Run (Raises e) s' cs out => Run (Returns (local, Some e)) s' cs out
  | Run Timeout s' cs out => Run Timeout s' cs out
  end.
Proof.
  cbn [for_each_with]. unfold bind, try_except, ret.
  destruct (body x local s) as [[updated|e|] s' cs out]; simpl_run;
    rewrite ?app_nil_r; reflexivity.
Qed.

Lemma delete_current_objects_run (self : QDeveloper3PCleanup) (page : objects_page)
      (n : nat) (s : account) :
  delete_current_objects self page n s =
  match current_batch page with
  | [] => Run (Returns n) s [] []
  | batch =>
      match respond (DeleteObjects (bucket_name self) batch) s with
      | (inl e, s') =>
          Run (Raises e) s' [Invoked (DeleteObjects (bucket_name self) batch) (inl e)] []
      | (inr done, s') =>
          Run (Returns (n + length batch)) s'
              [Invoked (DeleteObjects (bucket_name self) batch) (inr done)] []
      end
  end.
Proof.
  unfold delete_current_objects, current_batch.
  destruct (Contents page) as [[|obj contents]|]; cbn [map]; try reflexivity.
  unfold bind, invoke, ret.
  destruct (respond (DeleteObjects _ _) s) as [[e|[]] s1]; reflexivity.
Qed.

Lemma delete_object_versions_run (self : QDeveloper3PCleanup) (page : versions_page)
      (n : nat) (s : account) :
  delete_object_versions self page n s =
  match version_batch page with
  | [] => Run (Returns n) s [] []
  | batch =>
      match respond (DeleteObjects (bucket_name self) batch) s with
      | (inl e, s') =>
          Run (Raises e) s' [Invoked (DeleteObjects (bucket_name self) batch) (inl e)] []
      | (inr done, s') =>
          Run (Returns (n + length batch)) s'
              [Invoked (DeleteObjects (bucket_name self) batch) (inr done)] []
      end
  end.
Proof.
  unfold delete_object_versions. fold (version_batch page).
  destruct (version_batch page) as [|entry batch]; try reflexivity.
  unfold bind, invoke, ret.
  destruct (respond (DeleteObjects _ _) s) as [[e|[]] s1]; reflexivity.
Qed.

(** Both loops of the emptying, for a body that deletes one batch per page. *)
Lemma delete_batches_loop {A} (self : QDeveloper3PCleanup) (batch_of : A -> list object_id)
      (body : A -> nat -> M nat) :
  (forall page n s,
     body page n s =
     match batch_of page with
     | [] => Run (Returns n) s [] []
     | batch =>
         match respond (DeleteObjects (bucket_name self) batch) s with
         | (inl e, s') =>
             Run (Raises e) s'
                 [Invoked (DeleteObjects (bucket_name self) batch) (inl e)] []
         | (inr done, s') =>
             Run (Returns (n + length batch)) s'
                 [Invoked (DeleteObjects (bucket_name self) batch) (inr done)] []
         end
     end) ->
  forall (pages : list A) (n : nat) (s : account),
  exists n' exit s' cs,
    for_each_with pages body n s = Run (Returns (n', exit)) s' cs [] /\
    batches_deleted (bucket_name self) (nonempty (map batch_of pages)) cs /\
    match exit with
    | None => Forall answered cs
    | Some _ => ~ Forall answered cs
    end.
Proof.
  intros Hbody pages.
  induction pages as [|page pages IH]; intros n s.
  - exists n, None, s, []. repeat split; [apply prefix_nil|constructor].
  - rewrite for_each_with_step, Hbody. cbn [map].
    destruct (batch_of page) as [|entry batch]; cbn [nonempty].
    + destruct (IH n s) as (n' & exit & s' & cs & -> & Hdeleted & Hok).
      exists n', exit, s', cs. auto.
    + destruct (respond (DeleteObjects _ _) s) as [[e|[]] s1].
      * eexists n, (Some e), s1, _. split; [reflexivity|]. split.
        -- apply batches_deleted_failed; reflexivity.
        -- intros Hall. inversion Hall as [|? ? He _]. discriminate He.
      * destruct (IH (n + length (entry :: batch)) s1)
          as (n' & exit & s' & cs & -> & Hdeleted & Hok).
        eexists n', exit, s', _. split; [reflexivity|]. split.
        -- apply batches_deleted_cons; [reflexivity|exact Hdeleted].
        -- destruct exit as [e|]; simpl_run.
           ++ intros Hall. inversion Hall as [|? ? _ Hrest]. exact (Hok Hrest).
           ++ constructor; [reflexivity|exact Hok].
Qed.

Lemma calls_try_except_quiet {A} (m : M A) (h : exn -> M A) (s : account) :
  (forall e s', calls (h e s') = []) ->
  calls (try_except m h s) = calls (m s).
Proof.
  intros Hquiet. unfold try_except.
  destruct (m s) as [[a|e|] s' cs out]; simpl_run; try reflexivity.
  rewrite calls_after, Hquiet, app_nil_r. reflexivity.
Qed.

Lemma calls_bind {A B} (m : M A) (k : A -> M B) (s : account) :
  calls (bind m k s)
  = calls (m s) ++ match value (m s) with
                   | Returns a => calls (k a (final (m s)))
                   | _ => []
                   end.
Proof.
  unfold bind. destruct (m s) as [[a|e|] s' cs out]; simpl_run;
    rewrite ?calls_after, ?app_nil_r; reflexivity.
Qed.

Lemma delete_pages_run {A} (self : QDeveloper3PCleanup) (batch_of : A -> list object_id)
      (body : A -> nat -> M nat) (it : paged A) (n : nat) (s : account) :
  (forall page n s,
      body page n s
      = match batch_of page with
        | [] => Run (Returns n) s [] []
        | batch =>
            match respond (DeleteObjects (bucket_name self) batch) s with
            | (inl e, s') =>
                Run (Raises e) s'
                    [Invoked (DeleteObjects (bucket_name self) batch) (inl e)] []
            | (inr done, s') =>
                Run (Returns (n + length batch)) s'
                    [Invoked (DeleteObjects (bucket_name self) batch) (inr done)] []
            end
        end) ->
  exists n' exit s' cs,
    for_each_page_with it body n s = Run (Returns (n', exit)) s' cs [] /\
    batches_deleted (bucket_name self) (nonempty (map batch_of (pages it))) cs /\
    match exit with
    | None => all_deleted it cs
    | Some _ => ~ all_deleted it cs
    end.
Proof.
  intros Hbody.
  destruct (delete_batches_loop self batch_of body Hbody (pages it) n s)
    as (n1 & exit1 & s1 & cs1 & Hrun & Hdeleted & Hok).
  unfold for_each_page_with, bind. rewrite Hrun.
  destruct exit1 as [e|]; unfold ret; simpl_run; rewrite app_nil_r.
  - eexists _, _, _, _. split; [reflexivity|]. split; [exact Hdeleted|].
    intros [Hall _]. exact (Hok Hall).
  - eexists _, _, _, _. split; [reflexivity|]. split; [exact Hdeleted|].
    destruct (failure it) as [e|] eqn:Hfailure.
    + intros [_ Hnone]. congruence.
    + split; [exact Hok|exact Hfailure].
Qed.

Lemma versions_part_run (self : QDeveloper3PCleanup) (n : nat) (s : account) :
  exists r s' cs,
    try_except
      (bind (invoke (ListObjectVersions (bucket_name self)))
            (fun pages => for_each_page_with pages (delete_object_versions self) n))
      (fun e => ret (n, Some e)) s
    = Run (Returns r) s' cs [] /\
    versions_run (bucket_name self) cs.
Proof.
  unfold try_except, bind at 1, invoke.
  destruct (respond (ListObjectVersions (bucket_name self)) s) as [[e|it] s1];
    simpl_run.
  - unfold ret. simpl_run.
    eexists _, _, _. split; [reflexivity|].
    eexists _, []. split; [reflexivity|]. split; reflexivity.
  - destruct (delete_pages_run self version_batch (delete_object_versions self) it n s1
                (delete_object_versions_run self))
      as (n1 & exit1 & s2 & cs1 & -> & Hdeleted & _).
    simpl_run.
    eexists _, _, _. split; [reflexivity|].
    eexists _, cs1. split; [reflexivity|]. split; [reflexivity|]. exact Hdeleted.
Qed.

Lemma empty_s3_bucket_shape (self : QDeveloper3PCleanup) (s : account) :
  emptying_run (bucket_name self) (calls (empty_s3_bucket self s)).
Proof.
  unfold empty_s3_bucket.
  rewrite calls_try_except_quiet.
  2: { intros [code text|cls text] s'; unfold print, raise;
       [destruct (String.eqb code "404")|]; reflexivity. }
  rewrite calls_bind.
  destruct (respond (HeadBucket (bucket_name self)) s) as [[e|[]] s1] eqn:Hprobe;
    rewrite !(invoke_answer _ _ _ _ Hprobe); simpl_run.
  { eexists _, []. split; [reflexivity|]. split; reflexivity. }
  eexists _, _. split; [reflexivity|]. split; [reflexivity|]. cbn [ev_ok].
  rewrite calls_bind.
  destruct (respond (ListObjectsV2 (bucket_name self)) s1) as [[e|it] s2] eqn:Hlisting;
    rewrite !(invoke_answer _ _ _ _ Hlisting); simpl_run.
  { eexists _, [], []. split; [reflexivity|]. split; [reflexivity|].
    split; reflexivity. }
  rewrite calls_bind.
  destruct (delete_pages_run self current_batch (delete_current_objects self) it 0 s2
              (delete_current_objects_run self))
    as (n1 & exit1 & s3 & cs1 & -> & Hdeleted1 & Hall).
  simpl_run. rewrite calls_bind.
  destruct exit1 as [e1|]; cbn [reraise snd fst].
  { unfold raise. simpl_run.
    eexists _, cs1, []. split; [rewrite !app_nil_r; reflexivity|].
    split; [reflexivity|]. cbn [listed_objects].
    split; [exact Hdeleted1|right; split; [exact Hall|reflexivity]]. }
  change (ret tt s3) with (@Run _ unit (Returns tt) s3 [] []). simpl_run.
  rewrite calls_bind.
  destruct (versions_part_run self n1 s3) as (r & s4 & cs2 & -> & Hversions).
  simpl_run.
  match goal with
  | |- context [calls (bind ?m ?k s4)] => assert (Hquiet : calls (bind m k s4) = [])
  end.
  { unfold bind, print, raise, ret. destruct (snd r) as [[code text|cls text]|]; reflexivity. }
  rewrite Hquiet, app_nil_r.
  eexists _, cs1, cs2. split; [reflexivity|]. split; [reflexivity|].
  cbn [listed_objects].
  split; [exact Hdeleted1|left; split; [exact Hall|exact Hversions]].
Qed.

End Emptying.

(** *** The whole run *)

Section Teardown.
Context `{Provider} `{Runtime}.
Import Cleanup.

Lemma calls_print_then {B} (text : string) (k : unit -> M B) (s : account) :
  calls (bind (print text) k s) = calls (k tt s).
Proof. unfold bind, print. simpl_run. rewrite calls_after. reflexivity. Qed.

Lemma calls_bind_cases {A B} (m : M A) (k : A -> M B) (s : account) :
  calls (bind m k s) = calls (m s) \/
  exists a, calls (bind m k s) = calls (m s) ++ calls (k a (final (m s))).
Proof.
  rewrite calls_bind. destruct (value (m s)) as [a|e|].
  - right. exists a. reflexivity.
  - left. apply app_nil_r.
  - left. apply app_nil_r.
Qed.

Lemma not_s3 {A} (used : client) (m : M A) (s : account) :
  only (fun c => client_of c = used) m ->
  used <> S3Client ->
  Forall (fun x => client_of (ev_call x) <> S3Client) (calls (m s)).
Proof.
  intros Hm Hused. eapply Forall_impl; [apply Hm|].
  intros x Hx. cbn in Hx. rewrite Hx. exact Hused.
Qed.

Lemma delete_s3_bucket_calls (self : QDeveloper3PCleanup) (s : account) :
  exists answer,
    calls (delete_s3_bucket self s) = [Invoked (DeleteBucket (bucket_name self)) answer].
Proof.
  unfold delete_s3_bucket, try_except, bind, invoke.
  destruct (respond (DeleteBucket (bucket_name self)) s) as [[e|[]] s1]; simpl_run.
  - destruct e as [code text|cls text]; unfold raise, print;
      [destruct (String.eqb code _)|]; simpl_run; eexists; reflexivity.
  - unfold print. simpl_run. eexists; reflexivity.
Qed.

Ltac next_call :=
  rewrite ?calls_print_then;
  match goal with
  | |- context [calls (bind ?m ?k ?s)] =>
      let a := fresh "a" in
      let Hcalls := fresh "Hcalls" in
      destruct (calls_bind_cases m k s) as [Hcalls|[a Hcalls]];
      rewrite Hcalls; clear Hcalls; cbn beta
  end.

Ltac stop_here :=
  match goal with
  | |- exists _ _ _, ?trace = _ /\ _ => exists trace, [], []
  end;
  rewrite !app_nil_r; split; [reflexivity|];
  split; [repeat (apply Forall_app; split); auto|]; split; auto.

Lemma run_cleanup_trace (self : QDeveloper3PCleanup) (s : account) :
  exists others emptying last,
    calls (run_cleanup self s) = others ++ emptying ++ last /\
    Forall (fun x => client_of (ev_call x) <> S3Client) others /\
    Forall (fun x => forall bucket, ev_call x <> DeleteBucket bucket) emptying /\
    (last = [] \/
     emptying_run (bucket_name self) emptying /\
     exists answer, last = [Invoked (DeleteBucket (bucket_name self)) answer]).
Proof.
  pose proof (fun s => not_s3 _ _ s (rules_client self) ltac:(discriminate)) as Hrules.
  pose proof (fun s => not_s3 _ _ s (functions_client self) ltac:(discriminate))
    as Hfunctions.
  pose proof (fun s => not_s3 _ _ s (roles_client self) ltac:(discriminate)) as Hroles.
  pose proof (fun s => not_s3 _ _ s (trail_client self) ltac:(discriminate)) as Htrail.
  assert (Hemptying : forall s,
             Forall (fun x => forall bucket, ev_call x <> DeleteBucket bucket)
                    (calls (empty_s3_bucket self s))).
  { intros s'. eapply Forall_impl; [apply (emptying_client self)|].
    intros x [_ Hx]. exact Hx. }
  unfold run_cleanup.
  next_call; [stop_here|].
  next_call; [stop_here|].
  next_call; [stop_here|].
  next_call; [stop_here|].
  next_call.
  { match goal with
    | |- exists _ _ _, ?rules ++ ?functions ++ ?roles ++ ?trail ++ ?emptying = _ /\ _ =>
        exists (rules ++ functions ++ roles ++ trail), emptying, []
    end.
    rewrite app_nil_r, <- !app_assoc. split; [reflexivity|].
    split; [repeat (apply Forall_app; split); auto|]. split; auto. }
  rewrite ?calls_print_then.
  match goal with
  | |- context [calls (bind (delete_s3_bucket self) ?k ?s')] =>
      assert (Hlast : calls (bind (delete_s3_bucket self) k s')
                      = calls (delete_s3_bucket self s'))
  end.
  { rewrite calls_bind. destruct (value _); rewrite ?app_nil_r; reflexivity. }
  rewrite Hlast.
  match goal with
  | |- context [calls (delete_s3_bucket self ?s')] =>
      destruct (delete_s3_bucket_calls self s') as [answer ->]
  end.
  match goal with
  | |- exists _ _ _,
        ?rules ++ ?functions ++ ?roles ++ ?trail ++ ?emptying ++ ?last = _ /\ _ =>
      exists (rules ++ functions ++ roles ++ trail), emptying, last
  end.
  rewrite <- !app_assoc. split; [reflexivity|].
  split; [repeat (apply Forall_app; split); auto|]. split; [auto|].
  right. split; [apply empty_s3_bucket_shape|]. exists answer. reflexivity.
Qed.

Lemma bucket_client (self : QDeveloper3PCleanup) :
  only (fun c => client_of c = S3Client) (delete_s3_bucket self).
Proof. unfold delete_s3_bucket. footprint; reflexivity. Qed.

Lemma targets_before_rule_client (used : client) (t : list event) :
  used <> EventsClient ->
  Forall (fun e => client_of (ev_call e) = used) t -> targets_before_rule t.
Proof.
  intros Hused Ht. apply targets_before_rule_other.
  eapply Forall_impl; [exact Ht|]. intros x Hx. cbn in Hx. rewrite Hx. exact Hused.
Qed.

Lemma policy_before_role_client (used : client) (t : list event) :
  used <> IamClient ->
  Forall (fun e => client_of (ev_call e) = used) t -> policy_before_role t.
Proof.
  intros Hused Ht. apply policy_before_role_other.
  eapply Forall_impl; [exact Ht|]. intros x Hx. cbn in Hx. rewrite Hx. exact Hused.
Qed.

Lemma emptying_s3_client (self : QDeveloper3PCleanup) :
  only (fun c => client_of c = S3Client) (empty_s3_bucket self).
Proof. eapply only_weaken; [|apply emptying_client]. intros c [Hc _]. exact Hc. Qed.

Lemma run_cleanup_targets_first (self : QDeveloper3PCleanup) :
  always targets_before_rule (run_cleanup self).
Proof.
  unfold run_cleanup, delete_eventbridge_rules.
  repeat
    (apply (always_bind _ targets_before_rule_app);
     [first
        [ apply (always_quiet _ targets_before_rule_nil); reflexivity
        | apply (always_for_each _ targets_before_rule_nil targets_before_rule_app);
          intros rule; apply rule_step_order
        | eapply always_of_only;
          [|first [apply functions_client | apply roles_client | apply trail_client
                  |apply emptying_s3_client | apply bucket_client]];
          intros t Ht; eapply targets_before_rule_client; [|exact Ht]; discriminate ]
     |intros _]).
  apply (always_quiet _ targets_before_rule_nil); reflexivity.
Qed.

Lemma run_cleanup_policies_first (self : QDeveloper3PCleanup) :
  always policy_before_role (run_cleanup self).
Proof.
  unfold run_cleanup, delete_iam_roles_and_policies.
  repeat
    (apply (always_bind _ policy_before_role_app);
     [first
        [ apply (always_quiet _ policy_before_role_nil); reflexivity
        | apply (always_for_each _ policy_before_role_nil policy_before_role_app);
          intros info; apply role_step_order
        | eapply always_of_only;
          [|first [apply rules_client | apply functions_client | apply trail_client
                  |apply emptying_s3_client | apply bucket_client]];
          intros t Ht; eapply policy_before_role_client; [|exact Ht]; discriminate ]
     |intros _]).
  apply (always_quiet _ policy_before_role_nil); reflexivity.
Qed.

Lemma member_satisfies (P : event -> Prop) (t before after : list event) (e : event) :
  Forall P t -> t = before ++ e :: after -> P e.
Proof.
  intros Ht ->. apply Forall_app in Ht as [_ Ht].
  inversion Ht as [|? ? He _]. exact He.
Qed.

End Teardown.

(** * Further properties *)

(** ** The bucket step outside the 404 case *)

Section BucketStep.
Context `{Provider} `{Runtime}.
Import Setup.

(** X1: on a bucket that exists (the probe succeeds) nothing is created; the
    bucket policy is written over the existing one, and the method returns
    True exactly when that call succeeds. *)
Theorem create_s3_bucket_present (self : QDeveloper3PSetup) (s s1 : account) :
  respond (HeadBucket (bucket_name self)) s = (inr tt, s1) ->
  let probe := Invoked (HeadBucket (bucket_name self)) (inr tt) in
  let policy :=
    PutBucketPolicy (bucket_name self) (json_dumps (bucket_policy (bucket_name self))) in
  let found := "Bucket " +:+ py_str (bucket_name self) +:+ " already exists" in
  create_s3_bucket self s =
  match respond policy s1 with
  | (inr applied, s2) =>
      Run (Returns true) s2 [probe; Invoked policy (inr applied)]
          [ found;
            "Updated bucket policy for " +:+ py_str (bucket_name self)
            +:+ " with Amazon Q and CloudTrail permissions" ]
  | (inl (ClientError code text), s2) =>
      Run (Returns false) s2 [probe; Invoked policy (inl (ClientError code text))]
          [ found; "Error creating S3 bucket: " +:+ text ]
  | (inl (OtherError cls text), s2) =>
      Run (Raises (OtherError cls text)) s2
          [probe; Invoked policy (inl (OtherError cls text))] [ found ]
  end.
Proof.
  intros Hprobe. cbn zeta.
  unfold create_s3_bucket. unfold_method. rewrite Hprobe. simpl_run.
  destruct (respond (PutBucketPolicy _ _) s1) as [[[code text|cls text]|[]] s2];
    reflexivity.
Qed.

(** X2: a probe that fails with any code but 404 ends the bucket step: no
    bucket is created, no policy is written, and the method returns False
    after reporting the error. *)
Theorem create_s3_bucket_probe_refused (self : QDeveloper3PSetup) (s s1 : account)
        (code text : string) :
  respond (HeadBucket (bucket_name self)) s = (inl (ClientError code text), s1) ->
  code <> "404" ->
  create_s3_bucket self s =
  Run (Returns false) s1
      [Invoked (HeadBucket (bucket_name self)) (inl (ClientError code text))]
      ["Error creating S3 bucket: " +:+ text].
Proof.
  intros Hprobe Hcode. apply String.eqb_neq in Hcode.
  unfold create_s3_bucket. unfold_method. rewrite Hprobe. simpl_run.
  rewrite Hcode. reflexivity.
Qed.

End BucketStep.

Lemma create_s3_bucket_present_witness :
  @Setup.create_s3_bucket obliging sample_runtime sample_setup tt =
  @Run obliging bool (Returns true) tt
       [ Invoked (HeadBucket (PStr "q-logs")) (inr tt);
         Invoked (PutBucketPolicy (PStr "q-logs") "{...}") (inr tt) ]
       [ "Bucket q-logs already exists";
         "Updated bucket policy for q-logs with Amazon Q and CloudTrail permissions" ].
Proof.
  exact (@create_s3_bucket_present obliging sample_runtime sample_setup tt tt eq_refl).
Defined.

Lemma create_s3_bucket_probe_refused_witness :
  @Setup.create_s3_bucket probe_refused sample_runtime sample_setup tt =
  @Run probe_refused bool (Returns false) tt
       [ Invoked (HeadBucket (PStr "q-logs")) (inl (ClientError "403" "Forbidden")) ]
       [ "Error creating S3 bucket: Forbidden" ].
Proof.
  apply (@create_s3_bucket_probe_refused probe_refused sample_runtime sample_setup tt tt
           "403" "Forbidden" eq_refl).
  discriminate.
Defined.

(** ** The order of the setup steps *)

Section TraceOrder.

Lemma preceded_by_none (trigger : call -> Prop) (guard : event -> Prop)
      (trace : list event) :
  Forall (fun e => ~ trigger (ev_call e)) trace -> preceded_by trigger guard trace.
Proof.
  intros Hnone before e after -> Htrigger.
  apply Forall_app in Hnone as [_ Hnone].
  inversion Hnone as [|? ? He _]. contradiction.
Qed.

Lemma preceded_by_app (trigger : call -> Prop) (guard : event -> Prop)
      (t1 t2 : list event) :
  preceded_by trigger guard t1 ->
  (exists g, In g t1 /\ guard g) \/ preceded_by trigger guard t2 ->
  preceded_by trigger guard (t1 ++ t2).
Proof.
  intros H1 H2 before e after Hsplit Htrigger.
  destruct (split_in_app _ _ _ _ _ Hsplit) as [(l & Ht1 & _)|(l & -> & Ht2)].
  - exact (H1 before e l Ht1 Htrigger).
  - destruct H2 as [(g & Hin & Hg)|H2].
    + exists g. split; [apply in_or_app; left; exact Hin|exact Hg].
    + destruct (H2 l e after Ht2 Htrigger) as (g & Hin & Hg).
      exists g. split; [apply in_or_app; right; exact Hin|exact Hg].
Qed.

End TraceOrder.

Section SetupOrder.
Context `{Provider} `{Runtime}.
Import Setup.

Lemma create_s3_bucket_true (self : QDeveloper3PSetup) (s : account) :
  value (create_s3_bucket self s) = Returns true ->
  exists g, In g (calls (create_s3_bucket self s)) /\ policy_written (bucket_name self) g.
Proof.
  unfold create_s3_bucket. unfold_method.
  destruct (respond (HeadBucket (bucket_name self)) s) as [[[code text|cls text]|[]] s1];
    simpl_run.
  - destruct (String.eqb code "404"); simpl_run; [|discriminate].
    destruct (py_eq_str (region self) "us-east-1"); simpl_run;
      (destruct (respond (CreateBucket _ _) s1) as [[[code' text'|cls text']|[]] s2];
       simpl_run; try discriminate;
       destruct (respond (PutBucketPolicy _ _) s2) as [[[code' text'|cls text']|[]] s3];
       simpl_run; try discriminate; intros _;
       eexists; split; [right; right; left; reflexivity|];
       split; [reflexivity|eexists; reflexivity]).
  - discriminate.
  - destruct (respond (PutBucketPolicy _ _) s1) as [[[code' text'|cls text']|[]] s3];
      simpl_run; try discriminate; intros _.
    eexists; split; [right; left; reflexivity|].
    split; [reflexivity|eexists; reflexivity].
Qed.

Lemma setup_cloudtrail_true (self : QDeveloper3PSetup) (s : account) :
  value (setup_cloudtrail self s) = Returns true ->
  exists g, In g (calls (setup_cloudtrail self s)) /\ logging_started g.
Proof.
  unfold setup_cloudtrail, setup_cloudtrail_named. unfold_method.
  destruct (respond DescribeTrails s) as [[[code text|cls text]|trails] s1]; simpl_run;
    try discriminate.
  destruct (trail_exists _ _); simpl_run.
  - destruct (respond (PutEventSelectors _ _) s1) as [[[code text|cls text]|[]] s2];
      simpl_run; try discriminate.
    destruct (respond (StartLogging _) s2) as [[[code text|cls text]|[]] s3];
      simpl_run; try discriminate.
    intros _. eexists; split; [right; right; left; reflexivity|split; reflexivity].
  - destruct (respond (CreateTrail _ _ _ _ _) s1) as [[[code text|cls text]|[]] s2];
      simpl_run; try discriminate.
    destruct (respond (PutEventSelectors _ _) s2) as [[[code text|cls text]|[]] s3];
      simpl_run; try discriminate.
    destruct (respond (StartLogging _) s3) as [[[code text|cls text]|[]] s4];
      simpl_run; try discriminate.
    intros _. eexists; split; [right; right; right; left; reflexivity|split; reflexivity].
Qed.

Lemma display_true (self : QDeveloper3PSetup) (s : account) (shown : bool) :
  value (SetupScript.display_q_developer_instructions self s) = Returns shown ->
  exists g, In g (calls (SetupScript.display_q_developer_instructions self s))
            /\ operator_continued g.
Proof.
  unfold SetupScript.display_q_developer_instructions. unfold_method.
  destruct (respond Input s) as [[e|line] s1]; simpl_run; try discriminate.
  intros _. eexists; split; [left; reflexivity|split; reflexivity].
Qed.

Lemma preceded_by_bind {A B} (trigger : call -> Prop) (guard : event -> Prop)
      (m : M A) (k : A -> M B) (s : account) :
  preceded_by trigger guard (calls (m s)) ->
  (forall a, value (m s) = Returns a ->
             (exists g, In g (calls (m s)) /\ guard g) \/
             preceded_by trigger guard (calls (k a (final (m s))))) ->
  preceded_by trigger guard (calls (bind m k s)).
Proof.
  intros Hm Hk. rewrite calls_bind.
  destruct (value (m s)) as [a|e|]; rewrite ?app_nil_r; try exact Hm.
  apply preceded_by_app; [exact Hm|apply Hk; reflexivity].
Qed.

Lemma preceded_by_quiet {A} (trigger : call -> Prop) (guard : event -> Prop)
      (m : M A) (s : account) :
  calls (m s) = [] -> preceded_by trigger guard (calls (m s)).
Proof. intros ->. apply preceded_by_none. constructor. Qed.

Lemma bucket_step_client (self : QDeveloper3PSetup) :
  only (fun c => client_of c = S3Client /\ ~ export_call c) (create_s3_bucket self).
Proof. unfold create_s3_bucket. footprint; (split; [reflexivity|intros []]). Qed.

Lemma display_client (self : QDeveloper3PSetup) :
  only (fun c => c = Input) (SetupScript.display_q_developer_instructions self).
Proof. unfold SetupScript.display_q_developer_instructions. footprint; reflexivity. Qed.

Lemma trail_step_client (self : QDeveloper3PSetup) :
  only trail_call (setup_cloudtrail self).
Proof. unfold setup_cloudtrail, setup_cloudtrail_named. footprint; reflexivity. Qed.

Lemma no_trigger {A} (allowed trigger : call -> Prop) (m : M A) (s : account) :
  only allowed m ->
  (forall c, allowed c -> ~ trigger c) ->
  Forall (fun e => ~ trigger (ev_call e)) (calls (m s)).
Proof.
  intros Hm Himp. eapply Forall_impl; [apply Hm|]. intros e He. apply Himp, He.
Qed.

(** What is left of a run prints and returns. *)
Ltac quiet_rest :=
  apply preceded_by_quiet; unfold bind, print, ret; reflexivity.

(** X3: in every run of [run_setup], of the script and of the Lambda module
    alike, no CloudTrail call is issued before [put_bucket_policy] on the
    bucket has succeeded, and no call of the export (directory, temporary
    file, upload) before [start_logging] has succeeded; in the script the
    CloudTrail calls also wait for the operator's console input. *)
Theorem run_setup_order (fuel : nat) (self : QDeveloper3PSetup)
        (export_users output_file : pyval) (s : account) :
  preceded_by trail_call (policy_written (bucket_name self))
              (calls (SetupScript.run_setup fuel self export_users output_file s)) /\
  preceded_by trail_call operator_continued
              (calls (SetupScript.run_setup fuel self export_users output_file s)) /\
  preceded_by export_call logging_started
              (calls (SetupScript.run_setup fuel self export_users output_file s)) /\
  preceded_by trail_call (policy_written (bucket_name self))
              (calls (SetupLambda.run_setup fuel self export_users output_file s)) /\
  preceded_by export_call logging_started
              (calls (SetupLambda.run_setup fuel self export_users output_file s)).
Proof.
  assert (Hbucket_trail : forall s,
             Forall (fun e => ~ trail_call (ev_call e)) (calls (create_s3_bucket self s))).
  { intros s'. eapply no_trigger; [apply bucket_step_client|].
    intros c [Hc _]. unfold trail_call. rewrite Hc. discriminate. }
  assert (Hbucket_export : forall s,
             Forall (fun e => ~ export_call (ev_call e)) (calls (create_s3_bucket self s))).
  { intros s'. eapply no_trigger; [apply bucket_step_client|].
    intros c [_ Hc]. exact Hc. }
  assert (Hdisplay_trail : forall s,
             Forall (fun e => ~ trail_call (ev_call e))
                    (calls (SetupScript.display_q_developer_instructions self s))).
  { intros s'. eapply no_trigger; [apply display_client|].
    intros c ->. discriminate. }
  assert (Hdisplay_export : forall s,
             Forall (fun e => ~ export_call (ev_call e))
                    (calls (SetupScript.display_q_developer_instructions self s))).
  { intros s'. eapply no_trigger; [apply display_client|].
    intros c ->. intros []. }
  assert (Htrail_export : forall s,
             Forall (fun e => ~ export_call (ev_call e)) (calls (setup_cloudtrail self s))).
  { intros s'. eapply no_trigger; [apply trail_step_client|].
    intros c Hc Hexport. unfold trail_call in Hc. destruct c; try contradiction;
      discriminate Hc. }
  unfold SetupScript.run_setup, SetupLambda.run_setup.
  rewrite !calls_print_then.
  repeat split.
  - apply preceded_by_bind; [apply preceded_by_none, Hbucket_trail|].
    intros [|] Hcreated; [left; apply create_s3_bucket_true, Hcreated|right; quiet_rest].
  - apply preceded_by_bind; [apply preceded_by_none, Hbucket_trail|].
    intros [|] Hcreated; [right|right; quiet_rest]. cbn [negb].
    apply preceded_by_bind; [apply preceded_by_none, Hdisplay_trail|].
    intros shown Hshown. left. eapply display_true, Hshown.
  - apply preceded_by_bind; [apply preceded_by_none, Hbucket_export|].
    intros [|] Hcreated; [right|right; quiet_rest]. cbn [negb].
    apply preceded_by_bind; [apply preceded_by_none, Hdisplay_export|].
    intros shown _. right.
    apply preceded_by_bind; [apply preceded_by_none, Htrail_export|].
    intros [|] Hready; [left; apply setup_cloudtrail_true, Hready|right; quiet_rest].
  - apply preceded_by_bind; [apply preceded_by_none, Hbucket_trail|].
    intros [|] Hcreated; [left; apply create_s3_bucket_true, Hcreated|right; quiet_rest].
  - apply preceded_by_bind; [apply preceded_by_none, Hbucket_export|].
    intros [|] Hcreated; [right|right; quiet_rest]. cbn [negb].
    apply preceded_by_bind; [apply preceded_by_none, Htrail_export|].
    intros [|] Hready; [left; apply setup_cloudtrail_true, Hready|right; quiet_rest].
Qed.

(** X4: when the bucket step succeeded and [setup_cloudtrail] returns False,
    [run_setup] stops there: it returns False after the abort line, and the
    export is not started even if it was requested.  In the script the
    manual step lies between the two. *)
Theorem run_setup_aborts_on_trail_failure (fuel : nat) (self : QDeveloper3PSetup)
        (export_users output_file : pyval) (s : account) :
  value (create_s3_bucket self s) = Returns true ->
  let bucket := create_s3_bucket self s in
  (let trail := setup_cloudtrail self (final bucket) in
   value trail = Returns false ->
   SetupLambda.run_setup fuel self export_users output_file s =
   Run (Returns false) (final trail) (calls bucket ++ calls trail)
       ("Starting Amazon Q Developer to 3P setup..."
        :: stdout bucket ++ stdout trail
        ++ ["Failed to setup CloudTrail. Aborting setup."])) /\
  (let manual := SetupScript.display_q_developer_instructions self (final bucket) in
   let trail := setup_cloudtrail self (final manual) in
   value manual = Returns true ->
   value trail = Returns false ->
   SetupScript.run_setup fuel self export_users output_file s =
   Run (Returns false) (final trail) (calls bucket ++ calls manual ++ calls trail)
       ("Starting Amazon Q Developer to 3P setup..."
        :: stdout bucket ++ stdout manual ++ stdout trail
        ++ ["Failed to setup CloudTrail. Aborting setup."])).
Proof.
  intros Hbucket. cbn zeta. split.
  - intros Htrail. unfold SetupLambda.run_setup.
    unfold bind at 1. unfold print at 1. simpl_run.
    rewrite (bind_returns _ _ _ _ Hbucket). cbn [negb].
    rewrite (bind_returns _ _ _ _ Htrail). cbn [negb].
    unfold bind, print, ret. simpl_run.
    destruct (create_s3_bucket self s) as [v1 s1 cs1 out1].
    simpl_run. destruct (setup_cloudtrail self s1) as [v2 s2 cs2 out2].
    simpl_run. rewrite ?app_nil_r, <- ?app_assoc. reflexivity.
  - intros Hmanual Htrail. unfold SetupScript.run_setup.
    unfold bind at 1. unfold print at 1. simpl_run.
    rewrite (bind_returns _ _ _ _ Hbucket). cbn [negb].
    rewrite (bind_returns _ _ _ _ Hmanual).
    rewrite (bind_returns _ _ _ _ Htrail). cbn [negb].
    unfold bind, print, ret. simpl_run.
    destruct (create_s3_bucket self s) as [v1 s1 cs1 out1].
    simpl_run.
    destruct (SetupScript.display_q_developer_instructions self s1) as [v3 s3 cs3 out3].
    simpl_run. destruct (setup_cloudtrail self s3) as [v2 s2 cs2 out2].
    simpl_run. rewrite ?app_nil_r, <- ?app_assoc. reflexivity.
Qed.

End SetupOrder.

Lemma run_setup_aborts_on_trail_failure_witness :
  @SetupLambda.run_setup trail_refused sample_runtime 3 sample_setup
     (PBool true) (PStr "users.csv") tt =
  @Run trail_refused bool (Returns false) tt
       [ Invoked (HeadBucket (PStr "q-logs")) (inr tt);
         Invoked (PutBucketPolicy (PStr "q-logs") "{...}") (inr tt);
         Invoked DescribeTrails (inr {| trailList := Some [] |});
         Invoked (CreateTrail "QDeveloper3PTrail" (PStr "q-logs") "cloudtrail" true true)
                 (inl (ClientError "InsufficientS3BucketPolicyException"
                                   "Incorrect S3 bucket policy")) ]
       [ "Starting Amazon Q Developer to 3P setup...";
         "Bucket q-logs already exists";
         "Updated bucket policy for q-logs with Amazon Q and CloudTrail permissions";
         "Error setting up CloudTrail: Incorrect S3 bucket policy";
         "Failed to setup CloudTrail. Aborting setup." ].
Proof.
  exact (proj1 (@run_setup_aborts_on_trail_failure trail_refused sample_runtime 3
                  sample_setup (PBool true) (PStr "users.csv") tt eq_refl) eq_refl).
Defined.

(** ** The exports: what leaves them *)

Section DirectoryExport.
Context `{Provider} `{Runtime}.

Lemma try_except_catches_all {A} (m : M A) (h : exn -> M A) (s : account) :
  (forall e s', exists a, value (h e s') = Returns a) ->
  forall e, value (try_except m h s) <> Raises e.
Proof.
  intros Hh e. unfold try_except.
  destruct (m s) as [[a|e'|] s' cs out]; simpl_run; try discriminate.
  rewrite value_after. destruct (Hh e' s') as [a ->]. discriminate.
Qed.

(** X5: no exception leaves an export: [export_identity_center_users] of
    the script and of the Lambda module and [extract_users] catch
    [ClientError] and every other [Exception] and return a result. *)
Theorem exports_never_raise (fuel : nat) (setup : Setup.QDeveloper3PSetup)
        (extractor : UserExtract.IAMIdentityCenterUserExtractor)
        (output_file : pyval) (s : account) (e : exn) :
  value (SetupScript.export_identity_center_users fuel setup output_file s) <> Raises e /\
  value (SetupLambda.export_identity_center_users fuel setup output_file s) <> Raises e /\
  value (UserExtract.extract_users fuel extractor output_file s) <> Raises e.
Proof.
  split; [|split].
  - apply try_except_catches_all.
    intros [code text|cls text] s'; unfold bind, print, ret; simpl_run;
      eexists; reflexivity.
  - apply try_except_catches_all.
    intros [code text|cls text] s'; unfold bind, print, ret; simpl_run;
      eexists; reflexivity.
  - apply try_except_catches_all.
    intros [code text|cls text] s'; unfold bind, print, ret; simpl_run;
      eexists; reflexivity.
Qed.

(** X6: without an IAM Identity Center instance (the member is missing or
    the list is empty) an export stops after [list_instances]: no user is
    listed, nothing is uploaded, the result is a failure, and the handler of
    the extraction Lambda answers 500 with a user count of 0. *)
Theorem export_without_instance (fuel : nat) (setup : Setup.QDeveloper3PSetup)
        (extractor : UserExtract.IAMIdentityCenterUserExtractor)
        (output_file : pyval) (event : gmap string pyval) (s s1 : account)
        (instances : instances_response) :
  respond ListInstances s = (inr instances, s1) ->
  truthy_list (Instances instances) = false ->
  let listing := [Invoked ListInstances (inr instances)] in
  let notice := "No IAM Identity Center instances found" in
  SetupScript.export_identity_center_users fuel setup output_file s =
    Run (Returns false) s1 listing [notice] /\
  SetupLambda.export_identity_center_users fuel setup output_file s =
    Run (Returns false) s1 listing [notice] /\
  UserExtract.extract_users fuel extractor output_file s =
    Run (Returns {| UserExtract.success := false;
                    UserExtract.message := notice;
                    UserExtract.user_count := None |}) s1 listing [notice] /\
  (forall bucket_name,
     event !! "bucket_name" = Some bucket_name ->
     truthy bucket_name = true ->
     let region := default (PStr "us-east-1") (event !! "region") in
     UserExtract.lambda_handler fuel event s =
     Run (Returns {| statusCode := 500;
                     body := json_dumps (PDict [
                       ("message", PStr notice);
                       ("bucket_name", bucket_name);
                       ("region", region);
                       ("output_file", default (PStr "users.csv") (event !! "output_file"));
                       ("user_count", PInt 0)]) |})
         s1 listing
         ["Initializing IAM Identity Center User Extractor in " +:+ py_str region; notice]).
Proof.
  intros Hlisting Hnone. cbn zeta.
  assert (Hextract : forall extractor output_file,
             UserExtract.extract_users fuel extractor output_file s =
             Run (Returns {| UserExtract.success := false;
                             UserExtract.message := "No IAM Identity Center instances found";
                             UserExtract.user_count := None |}) s1
                 [Invoked ListInstances (inr instances)]
                 ["No IAM Identity Center instances found"]).
  { intros extractor' output_file'.
    unfold UserExtract.extract_users, try_except, bind.
    rewrite (invoke_answer _ _ _ _ Hlisting). simpl_run.
    destruct (Instances instances) as [[|first others]|]; try discriminate Hnone;
      reflexivity. }
  split; [|split; [|split]].
  - unfold SetupScript.export_identity_center_users, try_except, bind.
    rewrite (invoke_answer _ _ _ _ Hlisting). simpl_run.
    destruct (Instances instances) as [[|first others]|]; try discriminate Hnone;
      reflexivity.
  - unfold SetupLambda.export_identity_center_users, try_except, bind.
    rewrite (invoke_answer _ _ _ _ Hlisting). simpl_run.
    destruct (Instances instances) as [[|first others]|]; try discriminate Hnone;
      reflexivity.
  - apply Hextract.
  - intros bucket_name Hname Htruthy.
    unfold UserExtract.lambda_handler. rewrite Hname. cbn [from_option id].
    rewrite Htruthy. cbn [negb].
    unfold UserExtract.init. unfold bind at 1 2. unfold print, ret. simpl_run.
    unfold bind. rewrite Hextract. reflexivity.
Qed.

(** X7: what [extract_users] reports once the directory was listed: when
    [put_object] succeeds, success with the number of listed users in the
    message and in [user_count]; when it fails with a [ClientError], failure
    with the text of the error in the message and no [user_count]. *)
Theorem extract_users_result (fuel : nat)
        (self : UserExtract.IAMIdentityCenterUserExtractor) (output_file : pyval)
        (s s1 s2 s3 : account) (instances : instances_response) (first : sso_instance)
        (others : list sso_instance) (pages : list users_response)
        (uploaded : exn + unit) :
  respond ListInstances s = (inr instances, s1) ->
  Instances instances = Some (first :: others) ->
  served (IdentityStoreId first) None pages s1 s2 ->
  length pages <= fuel ->
  let key := "users/" +:+ py_str output_file in
  let upload := PutObject (UserExtract.bucket_name self) key
                          (Directory.csv_text (users_of pages)) in
  respond upload s2 = (uploaded, s3) ->
  let trace := Invoked ListInstances (inr instances)
               :: listing_trace (IdentityStoreId first) None pages
               ++ [Invoked upload uploaded] in
  let found := [ "Found IAM Identity Center instance: " +:+ InstanceArn first;
                 "Identity Store ID: " +:+ IdentityStoreId first ] in
  UserExtract.extract_users fuel self output_file s =
  match uploaded with
  | inr _ =>
      Run (Returns {| UserExtract.success := true;
                      UserExtract.message :=
                        "Successfully exported " +:+ pretty (total_users pages)
                        +:+ " users to S3";
                      UserExtract.user_count := Some (total_users pages) |})
          s3 trace
          (found ++ [ "Exported " +:+ pretty (total_users pages) +:+ " users to s3://"
                      +:+ py_str (UserExtract.bucket_name self) +:+ "/" +:+ key ])
  | inl (ClientError code text) =>
      Run (Returns {| UserExtract.success := false;
                      UserExtract.message :=
                        "Error exporting IAM Identity Center users: " +:+ text;
                      UserExtract.user_count := None |})
          s3 trace
          (found ++ [ "Error exporting IAM Identity Center users: " +:+ text ])
  | inl (OtherError cls text) =>
      Run (Returns {| UserExtract.success := false;
                      UserExtract.message := "Unexpected error exporting users: " +:+ text;
                      UserExtract.user_count := None |})
          s3 trace
          (found ++ [ "Unexpected error exporting users: " +:+ text ])
  end.
Proof.
  intros Hinst Hsome Hserved Hfuel key upload Hupload. cbn zeta.
  pose proof (list_users_loop_served _ _ _ _ _ Hserved fuel [] (or_introl eq_refl) Hfuel)
    as Hloop.
  cbn [app] in Hloop.
  unfold UserExtract.extract_users, try_except, bind.
  rewrite (invoke_answer _ _ _ _ Hinst). simpl_run. rewrite Hsome.
  unfold print. simpl_run. rewrite Hloop. simpl_run.
  rewrite io_bound, csv_bound. unfold ret. simpl_run.
  fold key. fold upload.
  rewrite (invoke_answer _ _ _ _ Hupload). simpl_run.
  rewrite length_users_of.
  destruct uploaded as [[code text|cls text]|[]]; norm_trace; reflexivity.
Qed.

(** X8: the script's export removes its temporary file whether or not the
    upload succeeded: after [upload_file], whatever it answered, the file is
    probed and, when it exists, removed; the result is True exactly when
    the upload succeeded. *)
Theorem temporary_file_is_removed (fuel : nat) (self : Setup.QDeveloper3PSetup)
        (output_file : pyval) (s s1 s2 s3 s4 s5 s6 : account)
        (instances : instances_response) (first : sso_instance)
        (others : list sso_instance) (pages : list users_response)
        (path : string) (uploaded : exn + unit) (present : bool) :
  respond ListInstances s = (inr instances, s1) ->
  Instances instances = Some (first :: others) ->
  served (IdentityStoreId first) None pages s1 s2 ->
  length pages <= fuel ->
  respond NamedTemporaryFile s2 = (inr path, s3) ->
  let upload := UploadFile path (Directory.csv_text (users_of pages))
                           (Setup.bucket_name self) ("users/" +:+ py_str output_file) in
  respond upload s3 = (uploaded, s4) ->
  respond (PathExists path) s4 = (inr present, s5) ->
  (if present then respond (OsRemove path) s5 = (inr tt, s6) else s6 = s5) ->
  let r := SetupScript.export_identity_center_users fuel self output_file s in
  calls r =
    Invoked ListInstances (inr instances)
    :: listing_trace (IdentityStoreId first) None pages
    ++ [ Invoked NamedTemporaryFile (inr path);
         Invoked upload uploaded;
         Invoked (PathExists path) (inr present) ]
    ++ (if present then [Invoked (OsRemove path) (inr tt)] else []) /\
  value r = Returns (match uploaded with inr _ => true | inl _ => false end) /\
  final r = s6.
Proof.
  intros Hinst Hsome Hserved Hfuel Htemp upload Hupload Hprobe Hremove. cbn zeta.
  pose proof (list_users_loop_served _ _ _ _ _ Hserved fuel [] (or_introl eq_refl) Hfuel)
    as Hloop.
  cbn [app] in Hloop.
  unfold SetupScript.export_identity_center_users, try_except, bind.
  rewrite (invoke_answer _ _ _ _ Hinst). simpl_run. rewrite Hsome.
  unfold print. simpl_run. rewrite Hloop. simpl_run.
  rewrite (invoke_answer _ _ _ _ Htemp). simpl_run.
  fold upload.
  unfold try_finally. rewrite (invoke_answer _ _ _ _ Hupload). simpl_run.
  unfold raise, ret.
  destruct uploaded as [[code text|cls text]|[]]; simpl_run;
    rewrite (invoke_answer _ _ _ _ Hprobe); simpl_run;
    (destruct present;
     [rewrite (invoke_answer _ _ _ _ Hremove)|subst s6]; norm_trace;
     repeat split; reflexivity).
Qed.

(** X9: the setup handler does not catch what [__init__] raises: when
    [get_caller_identity] fails, the exception leaves [lambda_handler] (and
    the script's [main]) before any bucket or trail call, and no response is
    produced. *)
Theorem setup_fails_with_caller_identity (fuel : nat) (event : gmap string pyval)
        (arguments : SetupCommand.arguments) (s s1 : account) (e : exn) :
  respond GetCallerIdentity s = (inl e, s1) ->
  (forall bucket_name,
     event !! "bucket_name" = Some bucket_name ->
     truthy bucket_name = true ->
     SetupLambda.lambda_handler fuel event s =
     Run (Raises e) s1 [Invoked GetCallerIdentity (inl e)] []) /\
  SetupCommand.main fuel arguments s =
    Run (Raises e) s1 [Invoked GetCallerIdentity (inl e)] [].
Proof.
  intros Hidentity. split.
  - intros bucket_name Hname Htruthy.
    unfold SetupLambda.lambda_handler. rewrite Hname. cbn [from_option id].
    rewrite Htruthy. cbn [negb].
    unfold Setup.init. unfold bind at 1 2.
    rewrite (invoke_answer _ _ _ _ Hidentity). reflexivity.
  - unfold SetupCommand.main, Setup.init. unfold bind at 1 2.
    rewrite (invoke_answer _ _ _ _ Hidentity). reflexivity.
Qed.

End DirectoryExport.

Lemma export_without_instance_witness :
  @UserExtract.extract_users obliging sample_runtime 3 sample_extractor (PStr "users.csv") tt =
  @Run obliging UserExtract.extract_result
       (Returns {| UserExtract.success := false;
                   UserExtract.message := "No IAM Identity Center instances found";
                   UserExtract.user_count := None |})
       tt [Invoked ListInstances (inr {| Instances := Some [] |})]
       ["No IAM Identity Center instances found"].
Proof.
  exact (proj1 (proj2 (proj2
           (@export_without_instance obliging sample_runtime 3 sample_setup sample_extractor
              (PStr "users.csv") sample_event tt tt {| Instances := Some [] |}
              eq_refl eq_refl)))).
Defined.

Lemma extract_users_result_witness :
  value (@UserExtract.extract_users two_pages sample_runtime 2 sample_extractor
           (PStr "users.csv") tt) =
  Returns {| UserExtract.success := true;
             UserExtract.message := "Successfully exported 2 users to S3";
             UserExtract.user_count := Some 2 |}.
Proof.
  assert (Hserved : @served two_pages "d-12345" None [first_page; second_page] tt tt).
  { apply (@served_more two_pages "d-12345" None first_page [second_page] tt tt tt);
      [reflexivity|reflexivity|].
    apply (@served_last two_pages "d-12345" (Some "token123") second_page tt tt);
      reflexivity. }
  rewrite (@extract_users_result two_pages sample_runtime 2 sample_extractor
             (PStr "users.csv") tt tt tt tt
             {| Instances := Some [sample_instance] |} sample_instance []
             [first_page; second_page] (inr tt) eq_refl eq_refl Hserved (le_n 2) eq_refl).
  reflexivity.
Defined.

Lemma temporary_file_is_removed_witness :
  map ev_call
      (calls (@SetupScript.export_identity_center_users upload_refused sample_runtime 2
                sample_setup (PStr "users.csv") tt)) =
    [ ListInstances;
      ListUsers "d-12345" None;
      ListUsers "d-12345" (Some "token123");
      NamedTemporaryFile;
      UploadFile "/tmp/tmpk3v9x2.csv"
                 ("UserId,Username,Email,GivenName,FamilyName" +:+ cr +:+ nl +:+
                  "user-1,testuser1,test1@example.com,Test1,User1" +:+ cr +:+ nl +:+
                  "user-2,testuser2,,Test2," +:+ cr +:+ nl)
                 (PStr "q-logs") "users/users.csv";
      PathExists "/tmp/tmpk3v9x2.csv";
      OsRemove "/tmp/tmpk3v9x2.csv" ] /\
  value (@SetupScript.export_identity_center_users upload_refused sample_runtime 2
           sample_setup (PStr "users.csv") tt) = Returns false.
Proof.
  assert (Hserved : @served upload_refused "d-12345" None [first_page; second_page] tt tt).
  { apply (@served_more upload_refused "d-12345" None first_page [second_page] tt tt tt);
      [reflexivity|reflexivity|].
    apply (@served_last upload_refused "d-12345" (Some "token123") second_page tt tt);
      reflexivity. }
  pose proof (@temporary_file_is_removed upload_refused sample_runtime 2 sample_setup
                (PStr "users.csv") tt tt tt tt tt tt tt
                {| Instances := Some [sample_instance] |} sample_instance []
                [first_page; second_page] "/tmp/tmpk3v9x2.csv"
                (inl (ClientError "AccessDenied" "Access Denied")) true
                eq_refl eq_refl Hserved (le_n 2) eq_refl eq_refl eq_refl eq_refl) as W.
  cbn zeta in W. destruct W as (Hcalls & Hvalue & _).
  split; [rewrite Hcalls; reflexivity|exact Hvalue].
Defined.

Lemma setup_fails_with_caller_identity_witness :
  @SetupCommand.main identity_refused sample_runtime 3 setup_arguments tt =
  @Run identity_refused unit
       (Raises (ClientError "ExpiredToken" "The security token is expired")) tt
       [ Invoked GetCallerIdentity
                 (inl (ClientError "ExpiredToken" "The security token is expired")) ]
       [].
Proof.
  exact (proj2 (@setup_fails_with_caller_identity identity_refused sample_runtime 3
                  sample_event setup_arguments tt tt
                  (ClientError "ExpiredToken" "The security token is expired") eq_refl)).
Defined.

(** ** The confirmation of the teardown *)

Lemma ascii_lower_y (a : Ascii.ascii) :
  ascii_lower a = Ascii.ascii_of_nat 121 <-> a = Ascii.ascii_of_nat 121 \/ a = Ascii.ascii_of_nat 89.
Proof.
  destruct a as [[] [] [] [] [] [] [] []]; vm_compute;
    (split; [intros Heq; first [discriminate Heq | left; reflexivity | right; reflexivity]
            |intros [Heq|Heq]; first [discriminate Heq | reflexivity]]).
Qed.

Lemma ascii_lower_e (a : Ascii.ascii) :
  ascii_lower a = Ascii.ascii_of_nat 101 <-> a = Ascii.ascii_of_nat 101 \/ a = Ascii.ascii_of_nat 69.
Proof.
  destruct a as [[] [] [] [] [] [] [] []]; vm_compute;
    (split; [intros Heq; first [discriminate Heq | left; reflexivity | right; reflexivity]
            |intros [Heq|Heq]; first [discriminate Heq | reflexivity]]).
Qed.

Lemma ascii_lower_s (a : Ascii.ascii) :
  ascii_lower a = Ascii.ascii_of_nat 115 <-> a = Ascii.ascii_of_nat 115 \/ a = Ascii.ascii_of_nat 83.
Proof.
  destruct a as [[] [] [] [] [] [] [] []]; vm_compute;
    (split; [intros Heq; first [discriminate Heq | left; reflexivity | right; reflexivity]
            |intros [Heq|Heq]; first [discriminate Heq | reflexivity]]).
Qed.

Lemma py_lower_yes (answer : string) :
  py_lower answer = "yes" <-> In answer affirmative_answers.
Proof.
  destruct answer as [|a [|b [|c [|d rest]]]]; cbn [py_lower].
  - split; [discriminate|]. cbn. intuition discriminate.
  - split; [discriminate|]. cbn. intuition discriminate.
  - split; [discriminate|]. cbn. intuition discriminate.
  - split.
    + intros Heq. injection Heq as Ha Hb Hc.
      apply ascii_lower_y in Ha. apply ascii_lower_e in Hb. apply ascii_lower_s in Hc.
      destruct Ha as [-> | ->], Hb as [-> | ->], Hc as [-> | ->]; cbn; tauto.
    + cbn. intros Hin.
      repeat (destruct Hin as [Heq|Hin]; [injection Heq as <- <- <-; reflexivity|]).
      contradiction.
  - split; [discriminate|]. cbn. intuition discriminate.
Qed.

Section Confirmation.
Context `{Provider} `{Runtime}.
Import CleanupScript.

Lemma confirmed_run (args : arguments) (s : account) :
  confirm args = false ->
  confirmed args s =
  match respond Input s with
  | (inl e, s1) => Run (Raises e) s1 [Invoked Input (inl e)] (preview args)
  | (inr answer, s1) =>
      Run (Returns (String.eqb (py_lower answer) "yes")) s1
          [Invoked Input (inr answer)]
          (preview args
           ++ (if String.eqb (py_lower answer) "yes" then [] else ["Cleanup cancelled."]))
  end.
Proof.
  intros Hconfirm. unfold confirmed. rewrite Hconfirm. cbn [negb].
  unfold bind, print, invoke, ret. simpl_run.
  destruct (respond Input s) as [[e|answer] s1]; simpl_run; [reflexivity|].
  destruct (String.eqb (py_lower answer) "yes"); reflexivity.
Qed.

Lemma teardown_reads_nothing (cleanup : Cleanup.QDeveloper3PCleanup) :
  only (fun c => c <> Input) (Cleanup.run_cleanup cleanup).
Proof.
  unfold Cleanup.run_cleanup.
  repeat
    (apply only_bind;
     [first
        [ apply only_print
        | eapply only_weaken;
          [|first [apply rules_client | apply functions_client | apply roles_client
                  |apply trail_client | apply emptying_s3_client | apply bucket_client]];
          intros c Hc ->; discriminate Hc ]
     |intros _]).
  apply only_print.
Qed.

(** X10: the teardown script asks before it deletes.  Without [--confirm],
    every call other than the console read comes after an answer that is
    yes in some letter case; on any other answer [main] reads the console
    and stops with the cancellation line, and nothing is deleted.  With
    [--confirm] the console is not read. *)
Theorem main_requires_consent (args : arguments) (s : account) :
  (confirm args = false ->
   preceded_by (fun c => c <> Input) consent (calls (main args s)) /\
   forall answer s1,
     respond Input s = (inr answer, s1) ->
     ~ In answer affirmative_answers ->
     main args s =
     Run (Returns tt) s1 [Invoked Input (inr answer)]
         (preview args ++ ["Cleanup cancelled."])) /\
  (confirm args = true ->
   Forall (fun e => ev_call e <> Input) (calls (main args s))).
Proof.
  split.
  - intros Hconfirm. split.
    + unfold main. rewrite calls_bind, (confirmed_run _ _ Hconfirm).
      destruct (respond Input s) as [[e|answer] s1]; simpl_run.
      * intros before e' after Hsplit Hcall.
        destruct before as [|x [|y before]]; try discriminate Hsplit.
        injection Hsplit as <-. contradiction Hcall. reflexivity.
      * destruct (String.eqb (py_lower answer) "yes") eqn:Hyes.
        -- apply String.eqb_eq, py_lower_yes in Hyes.
           intros before e' after Hsplit Hcall.
           destruct before as [|x before]; cbn in Hsplit.
           ++ injection Hsplit as <- _. contradiction Hcall. reflexivity.
           ++ injection Hsplit as <- _.
              eexists. split; [left; reflexivity|]. exists answer. split; [reflexivity|exact Hyes].
        -- unfold ret. simpl_run.
           intros before e' after Hsplit Hcall.
           destruct before as [|x [|y before]]; try discriminate Hsplit.
           injection Hsplit as <-. contradiction Hcall. reflexivity.
    + intros answer s1 Hanswer Hno.
      unfold main, bind. rewrite (confirmed_run _ _ Hconfirm), Hanswer.
      destruct (String.eqb (py_lower answer) "yes") eqn:Hyes.
      * apply String.eqb_eq, py_lower_yes in Hyes. contradiction.
      * unfold ret. simpl_run. rewrite !app_nil_r. reflexivity.
  - intros Hconfirm. unfold main, confirmed. rewrite Hconfirm. cbn [negb].
    unfold bind at 1. unfold ret at 1. simpl_run.
    unfold Cleanup.init. unfold bind at 1 2. unfold print, ret. simpl_run.
    rewrite ?calls_after. simpl_run. rewrite ?calls_after. simpl_run.
    apply teardown_reads_nothing.
Qed.

End Confirmation.

Lemma main_requires_consent_witness :
  @CleanupScript.main (operator_types "no") sample_runtime sample_arguments tt =
  @Run (operator_types "no") unit (Returns tt) tt
       [ Invoked Input (inr "no") ]
       [ "This will delete the following resources:";
         "- S3 bucket: q-logs (and ALL its contents)";
         "- CloudTrail: q-developer-3p-trail-q-logs";
         "- Lambda functions: QDeveloper3PSetup, IAMIdentityCenterUserExtract";
         "- IAM roles: lambda-q-developer-role, lambda-iam-identity-center-extract-role";
         "- EventBridge rules: QDeveloper3PSetupSchedule, IAMIdentityCenterUserExtractSchedule";
         "- Region: us-east-1";
         nl +:+ "This action cannot be undone!";
         "Cleanup cancelled." ].
Proof.
  apply (proj2 (proj1 (@main_requires_consent (operator_types "no") sample_runtime
                         sample_arguments tt) eq_refl) "no" tt eq_refl).
  cbn. intuition discriminate.
Defined.

(** ** A teardown that only meets refusals *)

Section Tame.
Context `{Provider}.

Lemma tame_ret {A} (post : A -> Prop) (a : A) : post a -> tame post (ret a).
Proof. intros Ha s. exact Ha. Qed.

Lemma tame_print (post : unit -> Prop) (line : string) : post tt -> tame post (print line).
Proof. intros Ha s. exact Ha. Qed.

Lemma tame_weaken {A} (post post' : A -> Prop) (m : M A) :
  (forall a, post a -> post' a) -> tame post m -> tame post' m.
Proof.
  intros Himp Hm s. specialize (Hm s).
  destruct (value (m s)) as [a|[code text|cls text]|]; auto.
Qed.

Lemma tame_bind {A B} (mid : A -> Prop) (post : B -> Prop) (m : M A) (k : A -> M B) :
  tame mid m -> (forall a, mid a -> tame post (k a)) -> tame post (bind m k).
Proof.
  intros Hm Hk s. unfold bind. specialize (Hm s).
  destruct (m s) as [[a|[code text|cls text]|] s' cs out]; cbn in Hm; simpl_run;
    try contradiction; try exact I.
  rewrite value_after. apply Hk, Hm.
Qed.

Lemma tame_try_except {A} (post : A -> Prop) (m : M A) (h : exn -> M A) :
  tame post m ->
  (forall code text, tame post (h (ClientError code text))) ->
  tame post (try_except m h).
Proof.
  intros Hm Hh s. unfold try_except. specialize (Hm s).
  destruct (m s) as [[a|[code text|cls text]|] s' cs out]; cbn in Hm; simpl_run;
    try contradiction; try exact Hm.
  rewrite value_after. apply Hh.
Qed.

Lemma tame_for_each {A} (items : list A) (body : A -> M unit) :
  (forall x, tame (fun _ => True) (body x)) ->
  tame (fun _ => True) (for_each items body).
Proof.
  intros Hbody. induction items as [|x items IH]; cbn [for_each].
  - apply tame_ret. exact I.
  - eapply tame_bind; [apply Hbody|intros _ _; exact IH].
Qed.

Lemma tame_for_each_with {A S} (items : list A) (body : A -> S -> M S) (local : S) :
  (forall x l, tame (fun _ => True) (body x l)) ->
  tame (fun r => benign (snd r)) (for_each_with items body local).
Proof.
  intros Hbody. revert local.
  induction items as [|x items IH]; intros local; cbn [for_each_with].
  - apply tame_ret. exact I.
  - eapply (tame_bind (fun step => match step with
                                   | inr (OtherError _ _) => False
                                   | _ => True
                                   end)).
    + intros s. unfold try_except, bind. specialize (Hbody x local s).
      destruct (body x local s) as [[a|[code text|cls text]|] s' cs out];
        cbn in Hbody; simpl_run; try contradiction; exact I.
    + intros [updated|[code text|cls text]] Hstep; try contradiction.
      * apply IH.
      * apply tame_ret. exact I.
Qed.

Lemma tame_for_each_page_with {A S} (it : paged A) (body : A -> S -> M S) (local : S) :
  benign (failure it) ->
  (forall x l, tame (fun _ => True) (body x l)) ->
  tame (fun r => benign (snd r)) (for_each_page_with it body local).
Proof.
  intros Hfailure Hbody. unfold for_each_page_with.
  eapply tame_bind; [apply tame_for_each_with, Hbody|].
  intros [n [e|]] Hexit; apply tame_ret; [exact Hexit|exact Hfailure].
Qed.

Lemma tame_reraise (exit : option exn) :
  benign exit -> tame (fun _ => True) (reraise exit).
Proof. intros Hexit s. destruct exit as [[code text|cls text]|]; auto. Qed.

Hypothesis Hclient : client_errors_only.

Lemma tame_invoke (c : call) : tame (sound_reply c) (invoke c).
Proof.
  intros s. unfold invoke. specialize (Hclient c s).
  destruct (respond c s) as [[e|a] s']; cbn in *.
  - destruct Hclient as (code & text & ->). exact I.
  - exact Hclient.
Qed.

Lemma tame_invoke_any (c : call) : tame (fun _ => True) (invoke c).
Proof. eapply tame_weaken; [|apply tame_invoke]. auto. Qed.

Lemma refusal (c : call) (s s' : account) (e : exn) :
  respond c s = (inl e, s') -> exists code text, e = ClientError code text.
Proof. intros Hanswer. pose proof (Hclient c s) as Hc. rewrite Hanswer in Hc. exact Hc. Qed.

End Tame.

Section Attempts.
Context `{Provider} `{Runtime}.
Import Cleanup.

Lemma attempts_bind {A B} (m : M A) (k : A -> M B) (l1 l2 l : list call) :
  attempts m l1 -> (forall a, attempts (k a) l2) -> l = l1 ++ l2 ->
  attempts (bind m k) l.
Proof.
  intros Hm Hk -> s. destruct (Hm s) as [[a Ha] Hl1].
  rewrite (bind_returns _ _ _ _ Ha), value_after, calls_after.
  destruct (Hk a (final (m s))) as [Hreturns Hl2].
  split; [exact Hreturns|].
  rewrite List.filter_app, map_app, Hl1, Hl2. reflexivity.
Qed.

Lemma attempts_print (line : string) : attempts (print line) [].
Proof. intros s. split; [exists tt; reflexivity|reflexivity]. Qed.

Lemma attempts_ret {A} (a : A) : attempts (ret a) [].
Proof. intros s. split; [exists a; reflexivity|reflexivity]. Qed.

Lemma try_except_returns {A} (post : A -> Prop) (m : M A) (h : exn -> M A) :
  tame post m ->
  (forall code text s, exists a, value (h (ClientError code text) s) = Returns a) ->
  forall s, exists a, value (try_except m h s) = Returns a.
Proof.
  intros Hm Hh s. unfold try_except. specialize (Hm s).
  destruct (m s) as [[a|[code text|cls text]|] s' cs out]; cbn in Hm; simpl_run;
    try contradiction.
  - exists a. reflexivity.
  - rewrite value_after. apply Hh.
Qed.

Lemma batches_deleted_no_attempt (bucket : pyval) (batches : list (list object_id))
      (events : list event) :
  batches_deleted bucket batches events ->
  List.filter resource_attempt events = [].
Proof.
  intros [[rest Hprefix] _].
  revert batches rest Hprefix.
  induction events as [|e events IH]; intros batches rest Hprefix; [reflexivity|].
  destruct batches as [|batch batches]; [discriminate Hprefix|].
  cbn in Hprefix. injection Hprefix as Hcall Hrest.
  cbn [List.filter]. unfold resource_attempt at 1. rewrite <- Hcall.
  exact (IH batches rest Hrest).
Qed.

Hypothesis Hclient : client_errors_only.

Ltac answered_or_refused :=
  match goal with
  | |- context [respond ?c ?s] =>
      let E := fresh "E" in
      destruct (respond c s) as [[?e|?a] ?s'] eqn:E;
      [destruct (refusal Hclient _ _ _ _ E) as (?code & ?text & ->)|];
      simpl_run
  end.

Ltac returned := split; [eexists; reflexivity|reflexivity].

Lemma rule_attempt (rule : string) :
  attempts (delete_eventbridge_rule rule) [ListTargetsByRule rule].
Proof.
  intros s. unfold delete_eventbridge_rule. unfold_method.
  answered_or_refused.
  { destruct (String.eqb code _); returned. }
  destruct (truthy_list (Targets a)); simpl_run.
  - answered_or_refused; [destruct (String.eqb code _); returned|].
    answered_or_refused; [destruct (String.eqb code _); returned|returned].
  - answered_or_refused; [destruct (String.eqb code _); returned|returned].
Qed.

Lemma function_attempt (function_name : string) :
  attempts (delete_lambda_function function_name) [DeleteFunction function_name].
Proof.
  intros s. unfold delete_lambda_function. unfold_method.
  answered_or_refused; [destruct (String.eqb code _); returned|returned].
Qed.

Lemma role_attempt (info : role_info) :
  attempts (delete_iam_role_and_policy info)
           [DeleteRolePolicy (role_name info) (policy_name info);
            DeleteRole (role_name info)].
Proof.
  intros s. unfold delete_iam_role_and_policy. unfold_method.
  answered_or_refused.
  - destruct (negb (String.eqb code _)); simpl_run;
      (answered_or_refused; [destruct (String.eqb code0 _); returned|returned]).
  - answered_or_refused; [destruct (String.eqb code _); returned|returned].
Qed.

Lemma trail_attempt (self : QDeveloper3PCleanup) :
  attempts (delete_cloudtrail self) [DeleteTrail (trail_name self)].
Proof.
  intros s. unfold delete_cloudtrail. unfold_method.
  answered_or_refused; [destruct (String.eqb code _); returned|returned].
Qed.

Lemma bucket_attempt (self : QDeveloper3PCleanup) :
  attempts (delete_s3_bucket self) [DeleteBucket (bucket_name self)].
Proof.
  intros s. unfold delete_s3_bucket. unfold_method.
  answered_or_refused; [destruct (String.eqb code _); returned|returned].
Qed.

Lemma emptying_attempt (self : QDeveloper3PCleanup) :
  attempts (empty_s3_bucket self) [HeadBucket (bucket_name self)].
Proof.
  intros s. split.
  - unfold empty_s3_bucket.
    apply (try_except_returns (fun _ => True)).
    2: { intros code text s'. unfold print. destruct (String.eqb code "404");
         eexists; reflexivity. }
    eapply tame_bind; [apply (tame_invoke_any Hclient)|intros _ _].
    eapply tame_bind; [apply (tame_invoke Hclient)|intros it Hit].
    eapply tame_bind.
    { apply tame_for_each_page_with; [exact Hit|].
      intros page n. unfold delete_current_objects.
      destruct (Contents page) as [contents|]; [|apply tame_ret; exact I].
      destruct (map _ contents); [apply tame_ret; exact I|].
      eapply tame_bind; [apply (tame_invoke_any Hclient)|intros _ _].
      apply tame_ret. exact I. }
    intros current Hcurrent.
    eapply tame_bind; [apply tame_reraise; exact Hcurrent|intros _ _].
    eapply (tame_bind (fun r => benign (snd r))).
    { apply tame_try_except; [|intros code text; apply tame_ret; exact I].
      eapply tame_bind; [apply (tame_invoke Hclient)|intros vit Hvit].
      apply tame_for_each_page_with; [exact Hvit|].
      intros page n. unfold delete_object_versions. cbn zeta.
      destruct (_ ++ _); [apply tame_ret; exact I|].
      eapply tame_bind; [apply (tame_invoke_any Hclient)|intros _ _].
      apply tame_ret. exact I. }
    intros versions Hversions.
    eapply (tame_bind (fun _ => True)); [|intros _ _; apply tame_print; exact I].
    destruct (snd versions) as [[code text|cls text]|];
      [apply tame_ret; exact I|contradiction|apply tame_ret; exact I].
  - destruct (empty_s3_bucket_shape self s) as (probe & rest & -> & Hprobe & Hrest).
    cbn [List.filter]. unfold resource_attempt at 1. rewrite Hprobe.
    cbn [map]. rewrite Hprobe. f_equal.
    destruct (ev_ok probe); [|subst rest; reflexivity].
    destruct Hrest as (listing & current & versions & -> & Hlisting & Hpages).
    cbn [List.filter]. unfold resource_attempt at 1. rewrite Hlisting.
    rewrite List.filter_app.
    destruct (listed_objects listing) as [it|].
    + destruct Hpages as [Hcurrent [[_ Hversions]|[_ ->]]];
        rewrite (batches_deleted_no_attempt _ _ _ Hcurrent); [|reflexivity].
      destruct Hversions as (vlisting & deleted & -> & Hvlisting & Hdeleted).
      cbn [app List.filter]. unfold resource_attempt at 1. rewrite Hvlisting.
      destruct (listed_versions vlisting) as [vit|].
      * rewrite (batches_deleted_no_attempt _ _ _ Hdeleted). reflexivity.
      * subst deleted. reflexivity.
    + destruct Hpages as [-> ->]. reflexivity.
Qed.

(** X11: a teardown is best effort.  When the provider fails with
    [ClientError] only, whatever the codes, [run_cleanup] returns normally
    and addresses every resource in its fixed order: a refusal at one rule,
    function, role, trail or bucket never keeps it from the next, and
    [delete_role] is tried even when the policy could not be deleted. *)
Theorem teardown_survives_refusals (self : QDeveloper3PCleanup) (s : account) :
  value (run_cleanup self s) = Returns tt /\
  map ev_call (List.filter resource_attempt (calls (run_cleanup self s))) =
    [ ListTargetsByRule "QDeveloper3PSetupSchedule";
      ListTargetsByRule "IAMIdentityCenterUserExtractSchedule";
      DeleteFunction "QDeveloper3PSetup";
      DeleteFunction "IAMIdentityCenterUserExtract";
      DeleteRolePolicy "lambda-q-developer-role" "QDeveloper3PPermissions";
      DeleteRole "lambda-q-developer-role";
      DeleteRolePolicy "lambda-iam-identity-center-extract-role"
                       "IAMIdentityCenterExtractPermissions";
      DeleteRole "lambda-iam-identity-center-extract-role";
      DeleteTrail (trail_name self);
      HeadBucket (bucket_name self);
      DeleteBucket (bucket_name self) ].
Proof.
  assert (Hrun : attempts (run_cleanup self)
            [ ListTargetsByRule "QDeveloper3PSetupSchedule";
              ListTargetsByRule "IAMIdentityCenterUserExtractSchedule";
              DeleteFunction "QDeveloper3PSetup";
              DeleteFunction "IAMIdentityCenterUserExtract";
              DeleteRolePolicy "lambda-q-developer-role" "QDeveloper3PPermissions";
              DeleteRole "lambda-q-developer-role";
              DeleteRolePolicy "lambda-iam-identity-center-extract-role"
                               "IAMIdentityCenterExtractPermissions";
              DeleteRole "lambda-iam-identity-center-extract-role";
              DeleteTrail (trail_name self);
              HeadBucket (bucket_name self);
              DeleteBucket (bucket_name self) ]).
  { unfold run_cleanup, delete_eventbridge_rules, delete_lambda_functions,
      delete_iam_roles_and_policies, rules_to_delete, functions_to_delete,
      roles_to_delete.
    cbn [for_each].
    repeat
      (eapply attempts_bind;
       [first [ apply attempts_print
              | eapply attempts_bind;
                [first [apply rule_attempt | apply function_attempt | apply role_attempt]
                |intros _; eapply attempts_bind;
                 [first [apply rule_attempt | apply function_attempt | apply role_attempt]
                 |intros _; apply attempts_ret|reflexivity]
                |reflexivity]
              | apply trail_attempt | apply emptying_attempt | apply bucket_attempt ]
       |intros _
       |cbn [app]; reflexivity]).
    apply attempts_print. }
  destruct (Hrun s) as [[[] Hvalue] Htrace]. split; assumption.
Qed.

End Attempts.

Lemma teardown_survives_refusals_witness :
  value (@Cleanup.run_cleanup all_denied sample_runtime sample_cleanup tt) = Returns tt /\
  map ev_call (calls (@Cleanup.run_cleanup all_denied sample_runtime sample_cleanup tt)) =
    [ ListTargetsByRule "QDeveloper3PSetupSchedule";
      ListTargetsByRule "IAMIdentityCenterUserExtractSchedule";
      DeleteFunction "QDeveloper3PSetup";
      DeleteFunction "IAMIdentityCenterUserExtract";
      DeleteRolePolicy "lambda-q-developer-role" "QDeveloper3PPermissions";
      DeleteRole "lambda-q-developer-role";
      DeleteRolePolicy "lambda-iam-identity-center-extract-role"
                       "IAMIdentityCenterExtractPermissions";
      DeleteRole "lambda-iam-identity-center-extract-role";
      DeleteTrail "q-developer-3p-trail-q-logs";
      HeadBucket (PStr "q-logs");
      DeleteBucket (PStr "q-logs") ].
Proof.
  split; [|vm_compute; reflexivity].
  refine (proj1 (@teardown_survives_refusals all_denied sample_runtime _ sample_cleanup tt)).
  intros c s. cbn. eexists _, _. reflexivity.
Defined.

(** ** What a run touches *)

(** Splits a footprint along the structure of a method, loops included. *)
Ltac footprints :=
  repeat first
    [ apply only_ret | apply only_raise | apply only_print | apply only_timeout
    | apply only_reraise | apply only_global_name
    | apply only_for_each_page_with; intros ? ?
    | apply only_for_each_with; intros ? ?
    | apply only_list_users_loop; intros ?
    | apply only_bind; [|intros ?]
    | apply only_try_except; [|intros ?]
    | apply only_try_finally
    | match goal with
      | |- only ?allowed (invoke ?c) => apply (only_invoke allowed c)
      | |- only _ (if ?b then _ else _) => destruct b
      | |- only _ (match ?x with _ => _ end) => destruct x
      end ].

Section Targets.
Context `{Provider} `{Runtime}.

Lemma run_cleanup_targets (self : Cleanup.QDeveloper3PCleanup) :
  only (teardown_target self) (Cleanup.run_cleanup self).
Proof.
  unfold Cleanup.run_cleanup, Cleanup.delete_eventbridge_rules,
    Cleanup.delete_lambda_functions, Cleanup.delete_iam_roles_and_policies,
    Cleanup.rules_to_delete, Cleanup.functions_to_delete, Cleanup.roles_to_delete.
  cbn [for_each].
  unfold Cleanup.delete_eventbridge_rule, Cleanup.delete_lambda_function,
    Cleanup.delete_iam_role_and_policy, Cleanup.delete_cloudtrail,
    Cleanup.empty_s3_bucket, Cleanup.delete_s3_bucket,
    Cleanup.delete_current_objects, Cleanup.delete_object_versions.
  cbn zeta.
  footprints; cbn; auto.
Qed.

(** X12: a teardown addresses nothing but what it was given and what is
    fixed in the code: every call is a listing or a deletion on one of the
    two rules, two functions and two roles, on the trail named after the
    bucket, or on the bucket itself; [main] adds the console read. *)
Theorem teardown_touches_named_resources (self : Cleanup.QDeveloper3PCleanup)
        (args : CleanupScript.arguments) (s : account) :
  Forall (fun e => teardown_target self (ev_call e)) (calls (Cleanup.run_cleanup self s)) /\
  Forall (fun e => ev_call e = Input \/
                   teardown_target
                     {| Cleanup.bucket_name := PStr (CleanupScript.bucket_name args);
                        Cleanup.region := PStr (CleanupScript.region args) |}
                     (ev_call e))
         (calls (CleanupScript.main args s)).
Proof.
  split; [apply run_cleanup_targets|].
  unfold CleanupScript.main. rewrite calls_bind.
  apply Forall_app. split.
  - assert (Hask : only (fun c => c = Input) (CleanupScript.confirmed args)).
    { unfold CleanupScript.confirmed. footprints. reflexivity. }
    eapply Forall_impl; [apply Hask|]. intros e He. left. exact He.
  - destruct (value (CleanupScript.confirmed args s)) as [[|]|e|]; try constructor.
    unfold Cleanup.init. unfold bind at 1 2. unfold print, ret. simpl_run.
    rewrite !calls_after. simpl_run.
    eapply Forall_impl; [apply run_cleanup_targets|]. intros e He. right. exact He.
Qed.

Lemma bucket_step_targets (self : Setup.QDeveloper3PSetup) (output_file : pyval) :
  only (setup_target self output_file) (Setup.create_s3_bucket self).
Proof. unfold Setup.create_s3_bucket. footprints; cbn; auto. Qed.

Lemma trail_step_targets (self : Setup.QDeveloper3PSetup) (output_file : pyval) :
  only (setup_target self output_file) (Setup.setup_cloudtrail self).
Proof.
  unfold Setup.setup_cloudtrail, Setup.setup_cloudtrail_named. footprints; cbn; auto.
Qed.

Lemma script_export_targets (fuel : nat) (self : Setup.QDeveloper3PSetup)
      (output_file : pyval) :
  only (setup_target self output_file)
       (SetupScript.export_identity_center_users fuel self output_file).
Proof.
  unfold SetupScript.export_identity_center_users. cbn zeta. footprints; cbn; auto.
Qed.

Lemma lambda_export_targets (fuel : nat) (self : Setup.QDeveloper3PSetup)
      (output_file : pyval) :
  only (setup_target self output_file)
       (SetupLambda.export_identity_center_users fuel self output_file).
Proof.
  unfold SetupLambda.export_identity_center_users. cbn zeta. footprints; cbn; auto.
Qed.

(** X13: a setup deletes nothing in the account.  Every call of [run_setup],
    in the script and in the Lambda module, is on the bucket it was given
    (probe, creation, policy), on the trail of the fixed name on that bucket
    with the prefix cloudtrail, a listing of the directory, the upload of
    [users/<output_file>] to that bucket, the console, or the script's own
    temporary file. *)
Theorem setup_touches_named_resources (fuel : nat) (self : Setup.QDeveloper3PSetup)
        (export_users output_file : pyval) (s : account) :
  Forall (fun e => setup_target self output_file (ev_call e))
         (calls (SetupScript.run_setup fuel self export_users output_file s)) /\
  Forall (fun e => setup_target self output_file (ev_call e))
         (calls (SetupLambda.run_setup fuel self export_users output_file s)).
Proof.
  split.
  - assert (Hrun : only (setup_target self output_file)
                        (SetupScript.run_setup fuel self export_users output_file)).
    { unfold SetupScript.run_setup, SetupScript.display_q_developer_instructions.
      apply only_bind; [apply only_print|intros _].
      apply only_bind; [apply bucket_step_targets|intros created].
      destruct (negb created); [footprints|].
      apply only_bind; [footprints; exact I|intros _].
      apply only_bind; [apply trail_step_targets|intros ready].
      destruct (negb ready); [footprints|].
      apply only_bind; [|intros _; footprints].
      destruct (truthy export_users); [|apply only_ret].
      apply only_bind; [apply script_export_targets|intros exported].
      destruct (negb exported); footprints. }
    apply Hrun.
  - assert (Hrun : only (setup_target self output_file)
                        (SetupLambda.run_setup fuel self export_users output_file)).
    { unfold SetupLambda.run_setup.
      apply only_bind; [apply only_print|intros _].
      apply only_bind; [apply bucket_step_targets|intros created].
      destruct (negb created); [footprints|].
      apply only_bind; [apply trail_step_targets|intros ready].
      destruct (negb ready); [footprints|].
      apply only_bind; [|intros _; footprints].
      destruct (truthy export_users); [|apply only_ret].
      apply only_bind; [apply lambda_export_targets|intros exported].
      destruct (negb exported); footprints. }
    apply Hrun.
Qed.

Lemma bucket_step_no_export (self : Setup.QDeveloper3PSetup) :
  only (fun c => ~ export_call c) (Setup.create_s3_bucket self).
Proof. unfold Setup.create_s3_bucket. footprints; intros []. Qed.

Lemma trail_step_no_export (self : Setup.QDeveloper3PSetup) :
  only (fun c => ~ export_call c) (Setup.setup_cloudtrail self).
Proof.
  unfold Setup.setup_cloudtrail, Setup.setup_cloudtrail_named. footprints; intros [].
Qed.

Lemma init_no_export (bucket_name region : pyval) :
  only (fun c => ~ export_call c) (Setup.init bucket_name region).
Proof. unfold Setup.init. footprints; intros []. Qed.

(** X14: the export is made on request only.  When [export_users] is falsy
    [run_setup] lists no directory, creates no temporary file and uploads
    nothing, in the script and in the Lambda module; the Lambda handler
    takes a missing [export_users] as False, so an event without it never
    starts an export. *)
Theorem no_export_unless_requested (fuel : nat) (self : Setup.QDeveloper3PSetup)
        (export_users output_file : pyval) (event : gmap string pyval) (s : account) :
  (truthy export_users = false ->
   Forall (fun e => ~ export_call (ev_call e))
          (calls (SetupScript.run_setup fuel self export_users output_file s)) /\
   Forall (fun e => ~ export_call (ev_call e))
          (calls (SetupLambda.run_setup fuel self export_users output_file s))) /\
  (event !! "export_users" = None ->
   Forall (fun e => ~ export_call (ev_call e))
          (calls (SetupLambda.lambda_handler fuel event s))).
Proof.
  assert (Hlambda : forall self export_users output_file,
             truthy export_users = false ->
             only (fun c => ~ export_call c)
                  (SetupLambda.run_setup fuel self export_users output_file)).
  { intros self' export_users' output_file' Hfalsy.
    unfold SetupLambda.run_setup. rewrite Hfalsy.
    apply only_bind; [apply only_print|intros _].
    apply only_bind; [apply bucket_step_no_export|intros created].
    destruct (negb created); [footprints|].
    apply only_bind; [apply trail_step_no_export|intros ready].
    destruct (negb ready); footprints. }
  split.
  - intros Hfalsy. split; [|apply Hlambda, Hfalsy].
    assert (Hscript : only (fun c => ~ export_call c)
                           (SetupScript.run_setup fuel self export_users output_file)).
    { unfold SetupScript.run_setup, SetupScript.display_q_developer_instructions.
      rewrite Hfalsy.
      apply only_bind; [apply only_print|intros _].
      apply only_bind; [apply bucket_step_no_export|intros created].
      destruct (negb created); [footprints|].
      apply only_bind; [footprints; intros []|intros _].
      apply only_bind; [apply trail_step_no_export|intros ready].
      destruct (negb ready); footprints. }
    apply Hscript.
  - intros Habsent.
    assert (Hhandler : only (fun c => ~ export_call c)
                            (SetupLambda.lambda_handler fuel event)).
    { unfold SetupLambda.lambda_handler. rewrite Habsent. cbn [from_option id].
      destruct (negb (truthy _)); [apply only_ret|].
      apply only_bind; [apply init_no_export|intros setup].
      apply only_bind; [apply Hlambda; reflexivity|intros result].
      apply only_ret. }
    apply Hhandler.
Qed.

End Targets.

Lemma no_export_unless_requested_witness :
  Forall (fun e => ~ export_call (ev_call e))
         (calls (@SetupLambda.lambda_handler two_pages sample_runtime 3 sample_event tt)) /\
  length (calls (@SetupLambda.lambda_handler two_pages sample_runtime 3 sample_event tt)) = 7.
Proof.
  split; [|reflexivity].
  exact (proj2 (@no_export_unless_requested two_pages sample_runtime 3 sample_setup
                  (PBool false) (PStr "users.csv") sample_event tt) eq_refl).
Defined.

(** ** The steps of a teardown, one after the other *)

Section Stages.
Context `{Provider} `{Runtime}.
Import Cleanup.

Ltac following_step :=
  rewrite ?calls_print_then;
  match goal with
  | |- context [calls (bind ?m ?k ?s)] =>
      let a := fresh "a" in
      let Hcalls := fresh "Hcalls" in
      destruct (calls_bind_cases m k s) as [Hcalls|[a Hcalls]];
      rewrite Hcalls; clear Hcalls; cbn beta
  end.

(** X15: the steps of a teardown do not interleave, and their order is the
    one of the code: first every EventBridge call (the rules reference the
    functions), then the Lambda calls, then IAM, then CloudTrail, then S3. *)
Theorem teardown_stage_order (self : QDeveloper3PCleanup) (s : account) :
  exists rules functions roles trail bucket,
    calls (run_cleanup self s) = rules ++ functions ++ roles ++ trail ++ bucket /\
    Forall (fun e => client_of (ev_call e) = EventsClient) rules /\
    Forall (fun e => client_of (ev_call e) = LambdaClient) functions /\
    Forall (fun e => client_of (ev_call e) = IamClient) roles /\
    Forall (fun e => client_of (ev_call e) = CloudTrailClient) trail /\
    Forall (fun e => client_of (ev_call e) = S3Client) bucket.
Proof.
  pose proof (rules_client self) as Hrules.
  pose proof (functions_client self) as Hfunctions.
  pose proof (roles_client self) as Hroles.
  pose proof (trail_client self) as Htrail.
  pose proof (emptying_s3_client self) as Hemptying.
  pose proof (bucket_client self) as Hbucket.
  unfold only in *.
  unfold run_cleanup.
  following_step.
  { match goal with
    | |- exists _ _ _ _ _, ?a = _ /\ _ => exists a, [], [], [], []
    end.
    rewrite !app_nil_r. repeat split; auto using Forall_nil. }
  following_step.
  { match goal with
    | |- exists _ _ _ _ _, ?a ++ ?b = _ /\ _ => exists a, b, [], [], []
    end.
    rewrite !app_nil_r. repeat split; auto using Forall_nil. }
  following_step.
  { match goal with
    | |- exists _ _ _ _ _, ?a ++ ?b ++ ?c = _ /\ _ => exists a, b, c, [], []
    end.
    rewrite !app_nil_r. repeat split; auto using Forall_nil. }
  following_step.
  { match goal with
    | |- exists _ _ _ _ _, ?a ++ ?b ++ ?c ++ ?d = _ /\ _ => exists a, b, c, d, []
    end.
    rewrite !app_nil_r. repeat split; auto using Forall_nil. }
  following_step.
  { match goal with
    | |- exists _ _ _ _ _, ?a ++ ?b ++ ?c ++ ?d ++ ?e = _ /\ _ => exists a, b, c, d, e
    end.
    repeat split; auto. }
  rewrite ?calls_print_then.
  match goal with
  | |- context [calls (bind (delete_s3_bucket self) ?k ?s')] =>
      assert (Hlast : calls (bind (delete_s3_bucket self) k s')
                      = calls (delete_s3_bucket self s'))
  end.
  { rewrite calls_bind. destruct (value _); rewrite ?app_nil_r; reflexivity. }
  rewrite Hlast.
  match goal with
  | |- exists _ _ _ _ _, ?a ++ ?b ++ ?c ++ ?d ++ ?e ++ ?f = _ /\ _ =>
      exists a, b, c, d, (e ++ f)
  end.
  repeat split; auto. apply Forall_app. split; auto.
Qed.

End Stages.

(** ** The count the emptying reports *)

Lemma deleted_entries_app (t1 t2 : list event) :
  deleted_entries (t1 ++ t2) = deleted_entries t1 + deleted_entries t2.
Proof.
  unfold deleted_entries. rewrite map_app. apply list_sum_app.
Qed.

Lemma deleted_entries_cons (e : event) (t : list event) :
  deleted_entries (e :: t) = deleted_by e + deleted_entries t.
Proof. reflexivity. Qed.

Section Counting.
Context `{Provider} `{Runtime}.
Import Cleanup.

Lemma try_except_bind_returns {A B} (m : M A) (k : A -> M B) (h : exn -> M B)
      (s : account) (a : A) :
  value (m s) = Returns a ->
  try_except (bind m k) h s
  = after (calls (m s)) (stdout (m s)) (try_except (k a) h (final (m s))).
Proof.
  unfold try_except, bind. destruct (m s) as [v s' cs out]. cbn. intros ->.
  destruct (k a s') as [[b|e|] s'' cs' out']; simpl_run; try reflexivity.
  destruct (h e s'') as [v' s3 cs3 out3]. simpl_run.
  rewrite <- !app_assoc. reflexivity.
Qed.

Lemma try_except_bind_raises {A B} (m : M A) (k : A -> M B) (h : exn -> M B)
      (s : account) (e : exn) :
  value (m s) = Raises e ->
  try_except (bind m k) h s = after (calls (m s)) (stdout (m s)) (h e (final (m s))).
Proof.
  unfold try_except, bind. destruct (m s) as [v s' cs out]. cbn. intros ->. reflexivity.
Qed.

Lemma emptying_report_after (bucket : pyval) (already : nat) (cs : list event)
      (r : run unit) :
  emptying_report bucket (already + deleted_entries cs) r ->
  emptying_report bucket already (after cs [] r).
Proof.
  unfold emptying_report. rewrite value_after, stdout_after, calls_after.
  cbn [app]. rewrite deleted_entries_app, Nat.add_assoc. auto.
Qed.

Lemma delete_batches_count {A} (self : QDeveloper3PCleanup)
      (batch_of : A -> list object_id) (body : A -> nat -> M nat) :
  (forall page n s,
     body page n s =
     match batch_of page with
     | [] => Run (Returns n) s [] []
     | batch =>
         match respond (DeleteObjects (bucket_name self) batch) s with
         | (inl e, s') =>
             Run (Raises e) s'
                 [Invoked (DeleteObjects (bucket_name self) batch) (inl e)] []
         | (inr done, s') =>
             Run (Returns (n + length batch)) s'
                 [Invoked (DeleteObjects (bucket_name self) batch) (inr done)] []
         end
     end) ->
  forall (it : paged A) (n : nat) (s : account),
  exists n' exit s' cs,
    for_each_page_with it body n s = Run (Returns (n', exit)) s' cs [] /\
    n' = n + deleted_entries cs.
Proof.
  intros Hbody it.
  assert (Hloop : forall batches n s, exists n' exit s' cs,
             for_each_with batches body n s = Run (Returns (n', exit)) s' cs [] /\
             n' = n + deleted_entries cs).
  { intros batches. induction batches as [|page batches IH]; intros n s.
    - exists n, None, s, []. split; [reflexivity|]. cbn. lia.
    - rewrite for_each_with_step, Hbody.
      destruct (batch_of page) as [|entry batch].
      + destruct (IH n s) as (n' & exit & s' & cs & -> & Hcount).
        exists n', exit, s', cs. split; [reflexivity|exact Hcount].
      + cbn zeta.
        destruct (respond (DeleteObjects (bucket_name self) (entry :: batch)) s)
          as [[e|[]] s1].
        * eexists n, (Some e), s1, _. split; [reflexivity|].
          rewrite deleted_entries_cons. cbn. lia.
        * destruct (IH (n + length (entry :: batch)) s1)
            as (n' & exit & s' & cs & -> & Hcount).
          eexists n', exit, s', _. split; [reflexivity|].
          cbn [app]. rewrite Hcount, deleted_entries_cons.
          cbn [deleted_by ev_ok ev_call length]. lia. }
  intros n s. destruct (Hloop (pages it) n s) as (n' & exit & s' & cs & Hrun & Hcount).
  unfold for_each_page_with, bind. rewrite Hrun.
  destruct exit as [e|]; unfold ret; simpl_run; rewrite app_nil_r;
    eexists _, _, _, _; (split; [reflexivity|exact Hcount]).
Qed.

Lemma versions_part_count (self : QDeveloper3PCleanup) (n : nat) (s : account) :
  exists r s' cs,
    try_except
      (bind (invoke (ListObjectVersions (bucket_name self)))
            (fun pages => for_each_page_with pages (delete_object_versions self) n))
      (fun e => ret (n, Some e)) s
    = Run (Returns r) s' cs [] /\
    fst r = n + deleted_entries cs.
Proof.
  unfold try_except, bind at 1, invoke.
  destruct (respond (ListObjectVersions (bucket_name self)) s) as [[e|it] s1];
    simpl_run.
  - unfold ret. simpl_run.
    eexists _, _, _. split; [reflexivity|]. cbn. lia.
  - destruct (delete_batches_count self version_batch (delete_object_versions self)
                (delete_object_versions_run self) it n s1)
      as (n1 & exit1 & s2 & cs1 & -> & Hcount).
    simpl_run.
    eexists _, _, _. split; [reflexivity|].
    rewrite deleted_entries_cons. cbn [fst deleted_by ev_ok ev_call]. exact Hcount.
Qed.

(** What the handler of the emptying prints for an exception. *)
Lemma emptying_handler_report (self : QDeveloper3PCleanup) (already : nat) (e : exn)
      (s : account) (h : exn -> M unit) :
  h = (fun e =>
         match e with
         | ClientError code _ =>
             if String.eqb code "404"
             then print ("S3 bucket " +:+ py_str (bucket_name self)
                         +:+ " not found (already deleted)")
             else print ("Error emptying S3 bucket " +:+ py_str (bucket_name self) +:+ ": "
                         +:+ exn_text e)
         | _ => raise e
         end) ->
  emptying_report (bucket_name self) already (h e s).
Proof.
  intros ->. unfold emptying_report.
  destruct e as [code text|cls text]; [destruct (String.eqb code "404")|];
    unfold print, raise; simpl_run.
  - left. reflexivity.
  - right. left. eexists. reflexivity.
  - reflexivity.
Qed.

(** X16: the emptying prints one line when it returns and none when an
    exception leaves it.  The line is the notice of a missing bucket, the
    report of a [ClientError], or the summary, and the number in the summary
    is the number of entries in the [delete_objects] calls that succeeded,
    current objects and versions together. *)
Theorem emptying_reports_deleted_entries (self : QDeveloper3PCleanup) (s : account) :
  emptying_report (bucket_name self) 0 (empty_s3_bucket self s).
Proof.
  unfold empty_s3_bucket.
  match goal with
  | |- context [try_except _ ?handler] =>
      pose proof (fun already e s =>
                    emptying_handler_report self already e s handler eq_refl) as Hhandler;
      generalize dependent handler
  end.
  intros h Hhandler.
  destruct (respond (HeadBucket (bucket_name self)) s) as [[e|[]] s1] eqn:Hprobe.
  { rewrite (try_except_bind_raises _ _ _ _ e);
      rewrite (invoke_answer _ _ _ _ Hprobe); [|reflexivity].
    simpl_run. apply emptying_report_after, Hhandler. }
  rewrite (try_except_bind_returns _ _ _ _ tt);
    rewrite (invoke_answer _ _ _ _ Hprobe); [|reflexivity].
  simpl_run. apply emptying_report_after.
  destruct (respond (ListObjectsV2 (bucket_name self)) s1) as [[e|it] s2] eqn:Hlisting.
  { rewrite (try_except_bind_raises _ _ _ _ e);
      rewrite (invoke_answer _ _ _ _ Hlisting); [|reflexivity].
    simpl_run. apply emptying_report_after, Hhandler. }
  rewrite (try_except_bind_returns _ _ _ _ it);
    rewrite (invoke_answer _ _ _ _ Hlisting); [|reflexivity].
  simpl_run. apply emptying_report_after.
  destruct (delete_batches_count self current_batch (delete_current_objects self)
              (delete_current_objects_run self) it 0 s2)
    as (n1 & exit1 & s3 & cs1 & Hloop & Hcount1).
  rewrite (try_except_bind_returns _ _ _ _ (n1, exit1)); rewrite Hloop; [|reflexivity].
  simpl_run. apply emptying_report_after.
  destruct exit1 as [e|]; cbn [snd fst].
  { rewrite (try_except_bind_raises _ _ _ _ e); [|reflexivity].
    change (reraise (Some e) s3) with (@Run _ unit (Raises e) s3 [] []). simpl_run.
    apply emptying_report_after, Hhandler. }
  rewrite (try_except_bind_returns _ _ _ _ tt); [|reflexivity].
  change (reraise None s3) with (@Run _ unit (Returns tt) s3 [] []). simpl_run.
  apply emptying_report_after.
  destruct (versions_part_count self n1 s3) as (r & s4 & cs2 & Hversions & Hcount2).
  rewrite (try_except_bind_returns _ _ _ _ r); rewrite Hversions; [|reflexivity].
  simpl_run. apply emptying_report_after.
  destruct (snd r) as [[code text|cls text]|].
  - rewrite (try_except_bind_returns _ _ _ _ tt); [|reflexivity].
    change (ret tt s4) with (@Run _ unit (Returns tt) s4 [] []). simpl_run.
    apply emptying_report_after.
    unfold try_except, print, emptying_report. simpl_run.
    right. right. rewrite Hcount2, Hcount1. cbn. rewrite !Nat.add_0_r. reflexivity.
  - rewrite (try_except_bind_raises _ _ _ _ (OtherError cls text)); [|reflexivity].
    change (raise (OtherError cls text) s4)
      with (@Run _ unit (Raises (OtherError cls text)) s4 [] []).
    simpl_run. apply emptying_report_after, Hhandler.
  - rewrite (try_except_bind_returns _ _ _ _ tt); [|reflexivity].
    change (ret tt s4) with (@Run _ unit (Returns tt) s4 [] []). simpl_run.
    apply emptying_report_after.
    unfold try_except, print, emptying_report. simpl_run.
    right. right. rewrite Hcount2, Hcount1. cbn. rewrite !Nat.add_0_r. reflexivity.
Qed.

End Counting.

Lemma emptying_reports_deleted_entries_witness :
  @emptying_report stocked_bucket sample_runtime (PStr "q-logs") 0
     (@Cleanup.empty_s3_bucket stocked_bucket sample_runtime sample_cleanup tt) /\
  stdout (@Cleanup.empty_s3_bucket stocked_bucket sample_runtime sample_cleanup tt) =
    ["Emptied S3 bucket q-logs (4 objects deleted)"].
Proof.
  split; [|vm_compute; reflexivity].
  exact (@emptying_reports_deleted_entries stocked_bucket sample_runtime sample_cleanup tt).
Defined.

(** ** Two failures on the way *)

Section OnTheWay.
Context `{Provider} `{Runtime}.

(** X17: a refused deletion of the inline policy does not stop the deletion
    of the role.  A missing policy (NoSuchEntity) is passed over in silence,
    any other [ClientError] is reported, and in both cases [delete_role]
    is the next call. *)
Theorem role_deletion_follows_policy_failure (info : Cleanup.role_info)
        (s s1 : account) (code text : string) :
  let role := Cleanup.role_name info in
  let policy := Cleanup.policy_name info in
  respond (DeleteRolePolicy role policy) s = (inl (ClientError code text), s1) ->
  let refused := Invoked (DeleteRolePolicy role policy) (inl (ClientError code text)) in
  let report := if String.eqb code "NoSuchEntity" then []
                else ["Error deleting policy " +:+ policy +:+ ": " +:+ text] in
  Cleanup.delete_iam_role_and_policy info s =
  match respond (DeleteRole role) s1 with
  | (inr done, s2) =>
      Run (Returns tt) s2 [refused; Invoked (DeleteRole role) (inr done)]
          (report ++ ["Deleted IAM role: " +:+ role])
  | (inl (ClientError code' text'), s2) =>
      Run (Returns tt) s2
          [refused; Invoked (DeleteRole role) (inl (ClientError code' text'))]
          (report ++ [if String.eqb code' "NoSuchEntity"
                      then "IAM role " +:+ role +:+ " not found (already deleted)"
                      else "Error deleting IAM role " +:+ role +:+ ": " +:+ text'])
  | (inl (OtherError cls text'), s2) =>
      Run (Raises (OtherError cls text')) s2
          [refused; Invoked (DeleteRole role) (inl (OtherError cls text'))] report
  end.
Proof.
  cbn zeta. intros Hpolicy.
  unfold Cleanup.delete_iam_role_and_policy. cbn zeta. unfold_method.
  rewrite Hpolicy. simpl_run.
  destruct (String.eqb code "NoSuchEntity"); simpl_run;
    (destruct (respond (DeleteRole _) s1) as [[[code' text'|cls text']|[]] s2];
     simpl_run; [destruct (String.eqb code' "NoSuchEntity")| |]; reflexivity).
Qed.

(** X18: the script's setup needs a console.  When the read that ends the
    manual step fails (standard input is closed), the exception leaves
    [run_setup] after the bucket step: the bucket exists with its policy and
    no CloudTrail call is made. *)
Theorem run_setup_stops_without_console (fuel : nat) (self : Setup.QDeveloper3PSetup)
        (export_users output_file : pyval) (s s1 : account) (e : exn) :
  value (Setup.create_s3_bucket self s) = Returns true ->
  respond Input (final (Setup.create_s3_bucket self s)) = (inl e, s1) ->
  let r := SetupScript.run_setup fuel self export_users output_file s in
  value r = Raises e /\
  calls r = calls (Setup.create_s3_bucket self s) ++ [Invoked Input (inl e)] /\
  final r = s1.
Proof.
  intros Hbucket Hinput. cbn zeta.
  assert (Hrun : exists out,
             SetupScript.run_setup fuel self export_users output_file s =
             Run (Raises e) s1
                 (calls (Setup.create_s3_bucket self s) ++ [Invoked Input (inl e)]) out).
  { unfold SetupScript.run_setup.
    unfold bind at 1. unfold print at 1. simpl_run.
    rewrite (bind_returns _ _ _ _ Hbucket). cbn [negb].
    unfold SetupScript.display_q_developer_instructions.
    unfold bind, print. simpl_run. rewrite (invoke_answer _ _ _ _ Hinput). simpl_run.
    destruct (Setup.create_s3_bucket self s) as [v1 s0 cs1 out1]. simpl_run.
    eexists. reflexivity. }
  destruct Hrun as [out ->]. repeat split; reflexivity.
Qed.

End OnTheWay.

Lemma role_deletion_follows_policy_failure_witness :
  @Cleanup.delete_iam_role_and_policy policy_protected
     {| Cleanup.role_name := "lambda-q-developer-role";
        Cleanup.policy_name := "QDeveloper3PPermissions" |} tt =
  @Run policy_protected unit (Returns tt) tt
       [ Invoked (DeleteRolePolicy "lambda-q-developer-role" "QDeveloper3PPermissions")
                 (inl (ClientError "AccessDenied" "Access Denied"));
         Invoked (DeleteRole "lambda-q-developer-role") (inr tt) ]
       [ "Error deleting policy QDeveloper3PPermissions: Access Denied";
         "Deleted IAM role: lambda-q-developer-role" ].
Proof.
  exact (@role_deletion_follows_policy_failure policy_protected
           {| Cleanup.role_name := "lambda-q-developer-role";
              Cleanup.policy_name := "QDeveloper3PPermissions" |}
           tt tt "AccessDenied" "Access Denied" eq_refl).
Defined.

Lemma run_setup_stops_without_console_witness :
  value (@SetupScript.run_setup no_console sample_runtime 3 sample_setup
           (PBool true) (PStr "users.csv") tt)
  = Raises (OtherError "EOFError" "EOF when reading a line") /\
  calls (@SetupScript.run_setup no_console sample_runtime 3 sample_setup
           (PBool true) (PStr "users.csv") tt)
  = [ Invoked (HeadBucket (PStr "q-logs")) (inr tt);
      Invoked (PutBucketPolicy (PStr "q-logs") "{...}") (inr tt);
      Invoked Input (inl (OtherError "EOFError" "EOF when reading a line")) ].
Proof.
  pose proof (@run_setup_stops_without_console no_console sample_runtime 3 sample_setup
                (PBool true) (PStr "users.csv") tt tt
                (OtherError "EOFError" "EOF when reading a line") eq_refl eq_refl) as W.
  cbn zeta in W. destruct W as (Hvalue & Hcalls & _).
  split; [exact Hvalue|exact Hcalls].
Defined.

(** * The end of a teardown (C3) *)

(** ** Methods that end, and that no [ClientError] leaves *)

Section Halting.
Context `{Provider}.

Lemma halts_ret {A} (a : A) : halts (ret a).
Proof. intros s. discriminate. Qed.

Lemma halts_raise {A} (e : exn) : halts (@raise _ A e).
Proof. intros s. discriminate. Qed.

Lemma halts_print (line : string) : halts (print line).
Proof. intros s. discriminate. Qed.

Lemma halts_invoke (c : call) : halts (invoke c).
Proof. intros s. unfold invoke. destruct (respond c s) as [[e|a] s']; discriminate. Qed.

Lemma halts_reraise (exit : option exn) : halts (reraise exit).
Proof. destruct exit; [apply halts_raise|apply halts_ret]. Qed.

Lemma halts_bind {A B} (m : M A) (k : A -> M B) :
  halts m -> (forall a, halts (k a)) -> halts (bind m k).
Proof.
  intros Hm Hk s. unfold bind. specialize (Hm s).
  destruct (m s) as [[a|e|] s' cs out]; simpl_run; try discriminate.
  - rewrite value_after. apply Hk.
  - contradiction Hm. reflexivity.
Qed.

Lemma halts_try_except {A} (m : M A) (h : exn -> M A) :
  halts m -> (forall e, halts (h e)) -> halts (try_except m h).
Proof.
  intros Hm Hh s. unfold try_except. specialize (Hm s).
  destruct (m s) as [[a|e|] s' cs out]; simpl_run; try discriminate.
  - rewrite value_after. apply Hh.
  - contradiction Hm. reflexivity.
Qed.

Lemma halts_for_each_with {A S} (items : list A) (body : A -> S -> M S) (local : S) :
  (forall x l, halts (body x l)) -> halts (for_each_with items body local).
Proof.
  intros Hbody. revert local.
  induction items as [|x items IH]; intros local; cbn [for_each_with].
  - apply halts_ret.
  - apply halts_bind.
    + apply halts_try_except; [|intros e; apply halts_ret].
      apply halts_bind; [apply Hbody|intros updated; apply halts_ret].
    + intros [updated|e]; [apply IH|apply halts_ret].
Qed.

Lemma halts_for_each_page_with {A S} (it : paged A) (body : A -> S -> M S) (local : S) :
  (forall x l, halts (body x l)) -> halts (for_each_page_with it body local).
Proof.
  intros Hbody. unfold for_each_page_with.
  apply halts_bind; [apply halts_for_each_with, Hbody|].
  intros [n [e|]]; apply halts_ret.
Qed.

Lemma sturdy_ret {A} (a : A) : sturdy (ret a).
Proof. intros s. exact I. Qed.

Lemma sturdy_print (line : string) : sturdy (print line).
Proof. intros s. exact I. Qed.

Lemma sturdy_bind {A B} (m : M A) (k : A -> M B) :
  sturdy m -> (forall a, sturdy (k a)) -> sturdy (bind m k).
Proof.
  intros Hm Hk s. unfold bind. specialize (Hm s).
  destruct (m s) as [[a|[code text|cls text]|] s' cs out]; cbn in Hm; simpl_run;
    try contradiction; try exact I.
  rewrite value_after. apply Hk.
Qed.

Lemma sturdy_try_except {A} (m : M A) (h : exn -> M A) :
  halts m -> (forall e, sturdy (h e)) -> sturdy (try_except m h).
Proof.
  intros Hm Hh s. unfold try_except. specialize (Hm s).
  destruct (m s) as [[a|e|] s' cs out]; simpl_run.
  - exact I.
  - rewrite value_after. apply Hh.
  - contradiction Hm. reflexivity.
Qed.

Lemma sturdy_for_each {A} (items : list A) (body : A -> M unit) :
  (forall x, sturdy (body x)) -> sturdy (for_each items body).
Proof.
  intros Hbody. induction items as [|x items IH]; cbn [for_each].
  - apply sturdy_ret.
  - apply sturdy_bind; [apply Hbody|intros _; exact IH].
Qed.

End Halting.

(** Splits the claim that a method ends along its structure. *)
Ltac halting :=
  repeat first
    [ apply halts_ret | apply halts_raise | apply halts_print | apply halts_invoke
    | apply halts_reraise
    | apply halts_for_each_page_with; intros ? ?
    | apply halts_bind; [|intros ?]
    | apply halts_try_except; [|intros ?]
    | match goal with
      | |- halts (if ?b then _ else _) => destruct b
      | |- halts (match ?x with _ => _ end) => destruct x
      end ].

(** A handler that reports a [ClientError] and lets the rest through. *)
Ltac reporting :=
  let e := fresh "e" in
  intros e; destruct e as [? ?|? ?];
  [ repeat match goal with
           | |- sturdy (if ?b then _ else _) => destruct b
           end; apply sturdy_print
  | intros ?; exact I ].

Section Sturdy.
Context `{Provider} `{Runtime}.
Import Cleanup.

Lemma rule_step_sturdy (rule : string) : sturdy (delete_eventbridge_rule rule).
Proof. unfold delete_eventbridge_rule. apply sturdy_try_except; [halting|reporting]. Qed.

Lemma function_step_sturdy (name : string) : sturdy (delete_lambda_function name).
Proof. unfold delete_lambda_function. apply sturdy_try_except; [halting|reporting]. Qed.

Lemma role_step_sturdy (info : role_info) : sturdy (delete_iam_role_and_policy info).
Proof.
  unfold delete_iam_role_and_policy. cbn zeta.
  apply sturdy_try_except; [halting|reporting].
Qed.

Lemma trail_step_sturdy (self : QDeveloper3PCleanup) : sturdy (delete_cloudtrail self).
Proof. unfold delete_cloudtrail. apply sturdy_try_except; [halting|reporting]. Qed.

Lemma emptying_sturdy (self : QDeveloper3PCleanup) : sturdy (empty_s3_bucket self).
Proof.
  unfold empty_s3_bucket, delete_current_objects, delete_object_versions. cbn zeta.
  apply sturdy_try_except; [halting|reporting].
Qed.

Lemma bucket_step_sturdy (self : QDeveloper3PCleanup) : sturdy (delete_s3_bucket self).
Proof. unfold delete_s3_bucket. apply sturdy_try_except; [halting|reporting]. Qed.

Lemma run_cleanup_sturdy (self : QDeveloper3PCleanup) : sturdy (run_cleanup self).
Proof.
  unfold run_cleanup, delete_eventbridge_rules, delete_lambda_functions,
    delete_iam_roles_and_policies.
  repeat
    (apply sturdy_bind;
     [first
        [ apply sturdy_print
        | apply sturdy_for_each; intros ?;
          first [apply rule_step_sturdy | apply function_step_sturdy
                |apply role_step_sturdy]
        | apply trail_step_sturdy | apply emptying_sturdy | apply bucket_step_sturdy ]
     |intros _]).
  apply sturdy_print.
Qed.

End Sturdy.

(** ** A run that returns ends with [delete_bucket] *)

Section Ending.
Context `{Provider} `{Runtime}.
Import Cleanup.

Lemma bind_returns_inv {A B} (m : M A) (k : A -> M B) (s : account) (b : B) :
  value (bind m k s) = Returns b ->
  exists a,
    value (m s) = Returns a /\
    value (k a (final (m s))) = Returns b /\
    calls (bind m k s) = calls (m s) ++ calls (k a (final (m s))).
Proof.
  unfold bind. destruct (m s) as [[a|e|] s' cs out]; simpl_run; try discriminate.
  rewrite value_after, calls_after. intros Hvalue. exists a. auto.
Qed.

Lemma ends_with_delete_bucket_app (bucket : pyval) (t1 t2 : list event) :
  ends_with_delete_bucket bucket t2 -> ends_with_delete_bucket bucket (t1 ++ t2).
Proof.
  intros (before & answer & ->). exists (t1 ++ before), answer.
  rewrite app_assoc. reflexivity.
Qed.

Ltac through_step Hvalue :=
  match type of Hvalue with
  | value (bind ?m ?k ?s) = Returns _ =>
      let a := fresh "a" in
      let Hstep := fresh "Hstep" in
      let Hcalls := fresh "Hcalls" in
      destruct (bind_returns_inv m k s _ Hvalue) as (a & Hstep & Hrest & Hcalls);
      rewrite Hcalls; clear Hcalls Hvalue; rename Hrest into Hvalue;
      cbn beta in Hvalue |- *
  end.

Lemma run_cleanup_ends (self : QDeveloper3PCleanup) (s : account) (done : unit) :
  value (run_cleanup self s) = Returns done ->
  ends_with_delete_bucket (bucket_name self) (calls (run_cleanup self s)).
Proof.
  intros Hvalue. unfold run_cleanup in *.
  do 15 (through_step Hvalue; apply ends_with_delete_bucket_app).
  through_step Hvalue.
  match goal with
  | |- context [calls (delete_s3_bucket self ?s')] =>
      destruct (delete_s3_bucket_calls self s') as [answer ->]
  end.
  exists [], answer. reflexivity.
Qed.

End Ending.

(** ** A refused call ends the emptying *)

Lemma refused_not_answered (e : event) (x : exn) :
  ev_error e = Some x -> ~ answered e.
Proof. destruct e as [c [x'|a]]; [intros _ Hok; discriminate Hok|discriminate]. Qed.

Section Refusals.
Context `{Provider} `{Runtime}.
Import Cleanup.

Lemma stops_quiet (r : run unit) : calls r = [] -> stops_at_refusal r.
Proof.
  intros Hquiet before e after code text Hsplit. rewrite Hquiet in Hsplit.
  destruct before; discriminate Hsplit.
Qed.

Lemma stops_after (cs : list event) (r : run unit) :
  Forall answered cs -> stops_at_refusal r -> stops_at_refusal (after cs [] r).
Proof.
  intros Hcs Hr before e after code text Hsplit Herror.
  rewrite calls_after in Hsplit. rewrite value_after.
  destruct (split_in_app _ _ _ _ _ Hsplit) as [(l & Hin & _)|(l & -> & Hrest)].
  - pose proof (member_satisfies _ _ _ _ _ Hcs Hin) as Hok.
    contradiction (refused_not_answered _ _ Herror).
  - exact (Hr l e after code text Hrest Herror).
Qed.

Lemma stops_last (before : list event) (x : event) (r : run unit) :
  Forall answered before ->
  calls r = [] ->
  (forall code text, ev_error x = Some (ClientError code text) -> value r = Returns tt) ->
  stops_at_refusal (after (before ++ [x]) [] r).
Proof.
  intros Hbefore Hquiet Hvalue before' e after' code text Hsplit Herror.
  rewrite calls_after, Hquiet, app_nil_r in Hsplit. rewrite value_after.
  destruct (split_in_app _ _ _ _ _ Hsplit) as [(l & Hin & _)|(l & -> & Hrest)].
  - pose proof (member_satisfies _ _ _ _ _ Hbefore Hin) as Hok.
    contradiction (refused_not_answered _ _ Herror).
  - destruct l as [|y l]; cbn in Hrest.
    + injection Hrest as -> <-. split; [reflexivity|]. exact (Hvalue code text Herror).
    + injection Hrest as _ Hrest. destruct l; discriminate Hrest.
Qed.

(** How a loop over pages ends: every deletion was answered, or the last
    one was refused and its exception is what the loop hands on. *)
Lemma delete_pages_exit {A} (self : QDeveloper3PCleanup) (batch_of : A -> list object_id)
      (body : A -> nat -> M nat) :
  (forall page n s,
     body page n s =
     match batch_of page with
     | [] => Run (Returns n) s [] []
     | batch =>
         match respond (DeleteObjects (bucket_name self) batch) s with
         | (inl e, s') =>
             Run (Raises e) s'
                 [Invoked (DeleteObjects (bucket_name self) batch) (inl e)] []
         | (inr done, s') =>
             Run (Returns (n + length batch)) s'
                 [Invoked (DeleteObjects (bucket_name self) batch) (inr done)] []
         end
     end) ->
  forall (it : paged A) (n : nat) (s : account),
  exists n' exit s' cs,
    for_each_page_with it body n s = Run (Returns (n', exit)) s' cs [] /\
    (Forall answered cs \/
     exists before x e,
       cs = before ++ [x] /\ Forall answered before /\
       ev_error x = Some e /\ exit = Some e).
Proof.
  intros Hbody it.
  assert (Hloop : forall batches n s, exists n' exit s' cs,
             for_each_with batches body n s = Run (Returns (n', exit)) s' cs [] /\
             (Forall answered cs /\ exit = None \/
              exists before x e,
                cs = before ++ [x] /\ Forall answered before /\
                ev_error x = Some e /\ exit = Some e)).
  { intros batches. induction batches as [|page batches IH]; intros n s.
    - exists n, None, s, []. split; [reflexivity|]. left. split; [constructor|reflexivity].
    - rewrite for_each_with_step, Hbody.
      destruct (batch_of page) as [|entry batch].
      + destruct (IH n s) as (n' & exit & s' & cs & -> & Hexit).
        exists n', exit, s', cs. split; [reflexivity|exact Hexit].
      + cbn zeta.
        destruct (respond (DeleteObjects (bucket_name self) (entry :: batch)) s)
          as [[e|[]] s1].
        * eexists n, (Some e), s1, _. split; [reflexivity|]. right.
          eexists [], _, e. split; [reflexivity|]. split; [constructor|].
          split; reflexivity.
        * destruct (IH (n + length (entry :: batch)) s1)
            as (n' & exit & s' & cs & -> & Hexit).
          eexists n', exit, s', _. split; [reflexivity|]. cbn [app].
          destruct Hexit as [[Hall ->]|(before & x & e & -> & Hbefore & Hx & ->)].
          -- left. split; [|reflexivity]. constructor; [reflexivity|exact Hall].
          -- right. eexists (_ :: before), x, e. split; [reflexivity|].
             split; [constructor; [reflexivity|exact Hbefore]|]. split; [exact Hx|reflexivity]. }
  intros n s. destruct (Hloop (pages it) n s) as (n' & exit & s' & cs & Hrun & Hexit).
  unfold for_each_page_with, bind. rewrite Hrun.
  destruct Hexit as [[Hall ->]|(before & x & e & -> & Hbefore & Hx & ->)];
    unfold ret; simpl_run; rewrite app_nil_r;
    eexists _, _, _, _; (split; [reflexivity|]).
  - left. exact Hall.
  - right. exists before, x, e. auto.
Qed.

Lemma versions_part_exit (self : QDeveloper3PCleanup) (n : nat) (s : account) :
  exists r s' cs,
    try_except
      (bind (invoke (ListObjectVersions (bucket_name self)))
            (fun pages => for_each_page_with pages (delete_object_versions self) n))
      (fun e => ret (n, Some e)) s
    = Run (Returns r) s' cs [] /\
    (Forall answered cs \/
     exists before x e,
       cs = before ++ [x] /\ Forall answered before /\
       ev_error x = Some e /\ snd r = Some e).
Proof.
  unfold try_except, bind at 1, invoke.
  destruct (respond (ListObjectVersions (bucket_name self)) s) as [[e|it] s1];
    simpl_run.
  - unfold ret. simpl_run.
    eexists _, _, _. split; [reflexivity|]. right.
    eexists [], _, e. split; [reflexivity|]. split; [constructor|]. split; reflexivity.
  - destruct (delete_pages_exit self version_batch (delete_object_versions self)
                (delete_object_versions_run self) it n s1)
      as (n1 & exit1 & s2 & cs1 & -> & Hexit).
    simpl_run.
    eexists _, _, _. split; [reflexivity|].
    destruct Hexit as [Hall|(before & x & e & -> & Hbefore & Hx & ->)].
    + left. constructor; [reflexivity|exact Hall].
    + right. eexists (_ :: before), x, e. split; [reflexivity|].
      split; [constructor; [reflexivity|exact Hbefore]|]. split; [exact Hx|reflexivity].
Qed.

(** A call of the emptying that was refused with a [ClientError] is its
    last call, and the emptying then returns. *)
Lemma emptying_stops_at_refusal (self : QDeveloper3PCleanup) (s : account) :
  stops_at_refusal (empty_s3_bucket self s).
Proof.
  unfold empty_s3_bucket.
  match goal with
  | |- context [try_except _ ?handler] =>
      assert (Hquiet : forall e s', calls (handler e s') = []);
      [|assert (Hreturns : forall code text s',
                   value (handler (ClientError code text) s') = Returns tt);
        [|generalize dependent handler]]
  end.
  { intros [code text|cls text] s'; unfold print, raise;
      [destruct (String.eqb code "404")|]; reflexivity. }
  { intros code text s'. unfold print. destruct (String.eqb code "404"); reflexivity. }
  intros h Hquiet Hreturns.
  assert (Hfailed : forall before x e s' (r : run unit),
             Forall answered before -> ev_error x = Some e ->
             r = h e s' ->
             stops_at_refusal (after (before ++ [x]) [] r)).
  { intros before x e s' r Hbefore Hx ->. apply stops_last; [exact Hbefore|apply Hquiet|].
    intros code text Hrefused. rewrite Hx in Hrefused. injection Hrefused as ->.
    apply Hreturns. }
  destruct (respond (HeadBucket (bucket_name self)) s) as [[e|[]] s1] eqn:Hprobe.
  { rewrite (try_except_bind_raises _ _ _ _ e);
      rewrite (invoke_answer _ _ _ _ Hprobe); [|reflexivity].
    simpl_run. apply (Hfailed [] _ e s1); [constructor|reflexivity|reflexivity]. }
  rewrite (try_except_bind_returns _ _ _ _ tt);
    rewrite (invoke_answer _ _ _ _ Hprobe); [|reflexivity].
  simpl_run. apply stops_after; [repeat constructor|].
  destruct (respond (ListObjectsV2 (bucket_name self)) s1) as [[e|it] s2] eqn:Hlisting.
  { rewrite (try_except_bind_raises _ _ _ _ e);
      rewrite (invoke_answer _ _ _ _ Hlisting); [|reflexivity].
    simpl_run. apply (Hfailed [] _ e s2); [constructor|reflexivity|reflexivity]. }
  rewrite (try_except_bind_returns _ _ _ _ it);
    rewrite (invoke_answer _ _ _ _ Hlisting); [|reflexivity].
  simpl_run. apply stops_after; [repeat constructor|].
  destruct (delete_pages_exit self current_batch (delete_current_objects self)
              (delete_current_objects_run self) it 0 s2)
    as (n1 & exit1 & s3 & cs1 & Hloop & Hexit1).
  rewrite (try_except_bind_returns _ _ _ _ (n1, exit1)); rewrite Hloop; [|reflexivity].
  simpl_run.
  destruct Hexit1 as [Hall1|(before & x & e & -> & Hbefore & Hx & ->)].
  2: { cbn [snd fst].
       rewrite (try_except_bind_raises _ _ _ _ e); [|reflexivity].
       change (reraise (Some e) s3) with (@Run _ unit (Raises e) s3 [] []). simpl_run.
       apply (Hfailed before x e s3); [exact Hbefore|exact Hx|].
       destruct (h e s3); reflexivity. }
  apply stops_after; [exact Hall1|].
  destruct exit1 as [e|]; cbn [snd fst].
  { rewrite (try_except_bind_raises _ _ _ _ e); [|reflexivity].
    change (reraise (Some e) s3) with (@Run _ unit (Raises e) s3 [] []). simpl_run.
    apply stops_quiet. rewrite calls_after. apply Hquiet. }
  rewrite (try_except_bind_returns _ _ _ _ tt); [|reflexivity].
  change (reraise None s3) with (@Run _ unit (Returns tt) s3 [] []). simpl_run.
  apply stops_after; [constructor|].
  destruct (versions_part_exit self n1 s3) as (r & s4 & cs2 & Hversions & Hexit2).
  rewrite (try_except_bind_returns _ _ _ _ r); rewrite Hversions; [|reflexivity].
  simpl_run.
  assert (Hend : forall (rest : run unit),
             rest = try_except
                      (bind match snd r with
                            | Some (OtherError cls text) => raise (OtherError cls text)
                            | _ => ret tt
                            end
                            (fun _ => print ("Emptied S3 bucket "
                                               +:+ py_str (bucket_name self) +:+ " ("
                                               +:+ pretty (fst r) +:+ " objects deleted)")))
                      h s4 ->
             calls rest = [] /\
             (forall code text, snd r = Some (ClientError code text) ->
                                value rest = Returns tt)).
  { intros rest ->. unfold try_except, bind, print, ret, raise.
    destruct (snd r) as [[code text|cls text]|]; simpl_run.
    - split; [reflexivity|]. intros; reflexivity.
    - rewrite calls_after, Hquiet. split; [reflexivity|]. discriminate.
    - split; [reflexivity|]. discriminate. }
  destruct (Hend _ eq_refl) as [Hcalls Hvalue].
  destruct Hexit2 as [Hall2|(before & x & e & -> & Hbefore & Hx & Hexit)].
  - apply stops_after; [exact Hall2|]. apply stops_quiet. exact Hcalls.
  - apply stops_last; [exact Hbefore|exact Hcalls|].
    intros code text Hrefused. rewrite Hx in Hrefused. injection Hrefused as ->.
    apply (Hvalue code text). exact Hexit.
Qed.

End Refusals.

(** ** The whole run *)

Section WholeRun.
Context `{Provider} `{Runtime}.
Import Cleanup.

Ltac onward :=
  rewrite ?calls_print_then;
  match goal with
  | |- context [calls (bind ?m ?k ?s)] =>
      let a := fresh "a" in
      let Hcalls := fresh "Hcalls" in
      destruct (calls_bind_cases m k s) as [Hcalls|[a Hcalls]];
      rewrite Hcalls; clear Hcalls; cbn beta
  end.

(** The calls of a run: those of the steps before the emptying, none of
    them on S3; then, if the run got that far, the emptying and, when that
    returned, [delete_bucket]. *)
Lemma run_cleanup_parts (self : QDeveloper3PCleanup) (s : account) :
  exists earlier,
    Forall (fun x => client_of (ev_call x) <> S3Client) earlier /\
    (calls (run_cleanup self s) = earlier \/
     exists s' last,
       calls (run_cleanup self s) = earlier ++ calls (empty_s3_bucket self s') ++ last /\
       (last = [] \/ exists answer, last = [Invoked (DeleteBucket (bucket_name self)) answer]) /\
       (forall done, value (empty_s3_bucket self s') = Returns done ->
                     exists answer,
                       last = [Invoked (DeleteBucket (bucket_name self)) answer])).
Proof.
  pose proof (fun s => not_s3 _ _ s (rules_client self) ltac:(discriminate)) as Hrules.
  pose proof (fun s => not_s3 _ _ s (functions_client self) ltac:(discriminate))
    as Hfunctions.
  pose proof (fun s => not_s3 _ _ s (roles_client self) ltac:(discriminate)) as Hroles.
  pose proof (fun s => not_s3 _ _ s (trail_client self) ltac:(discriminate)) as Htrail.
  unfold run_cleanup.
  onward.
  { eexists. split; [|left; reflexivity]. auto. }
  onward.
  { eexists. split; [|left; reflexivity]. repeat (apply Forall_app; split); auto. }
  onward.
  { eexists. split; [|left; reflexivity]. repeat (apply Forall_app; split); auto. }
  onward.
  { eexists. split; [|left; reflexivity]. repeat (apply Forall_app; split); auto. }
  rewrite ?calls_print_then.
  match goal with
  | |- context [calls (bind (empty_s3_bucket self) ?k ?s')] =>
      rewrite (calls_bind (empty_s3_bucket self) k s');
      exists (calls (delete_eventbridge_rules self s)
              ++ calls (delete_lambda_functions self (final (delete_eventbridge_rules self s)))
              ++ calls (delete_iam_roles_and_policies self
                          (final (delete_lambda_functions self
                                    (final (delete_eventbridge_rules self s)))))
              ++ calls (delete_cloudtrail self
                          (final (delete_iam_roles_and_policies self
                                    (final (delete_lambda_functions self
                                              (final (delete_eventbridge_rules self s))))))));
      split; [repeat (apply Forall_app; split); auto|];
      right; exists s'
  end.
  eexists. split; [rewrite <- !app_assoc; reflexivity|].
  destruct (value (empty_s3_bucket self _)) as [done|e|].
  - rewrite calls_print_then.
    match goal with
    | |- context [calls (bind (delete_s3_bucket self) ?k ?s'')] =>
        assert (Hlast : calls (bind (delete_s3_bucket self) k s'')
                        = calls (delete_s3_bucket self s''));
        [rewrite calls_bind; destruct (value _); rewrite ?app_nil_r; reflexivity|];
        rewrite Hlast;
        destruct (delete_s3_bucket_calls self s'') as [answer ->]
    end.
    split; [right; exists answer; reflexivity|].
    intros _ _. exists answer. reflexivity.
  - split; [left; reflexivity|discriminate].
  - split; [left; reflexivity|discriminate].
Qed.

End WholeRun.

(** ** The order of a teardown (C3) *)

Section CallOrder.
Context `{Provider} `{Runtime}.
Import Cleanup.

(** C3, as it holds in every run: [delete_rule] comes only after the targets
    of that rule were listed and, where there were any, removed by a call
    that succeeded; [delete_role] comes only after a [delete_role_policy] on
    that role; and [delete_bucket] is the last call, issued after the
    emptying, which deletes the current objects page by page and, exactly
    when none of these calls failed, goes on to the versions and delete
    markers.  When no call of the emptying fails, every listed batch is
    deleted before [delete_bucket].  A call of the emptying that is refused
    with a [ClientError] is the last call of the emptying, and
    [delete_bucket] is still issued right after it.  No [ClientError] leaves
    the run: it returns, and then [delete_bucket] was its last call, or an
    exception of another class leaves it. *)
Theorem teardown_call_order (self : QDeveloper3PCleanup) (s : account) :
  targets_before_rule (calls (run_cleanup self s)) /\
  policy_before_role (calls (run_cleanup self s)) /\
  emptied_before_bucket (bucket_name self) (calls (run_cleanup self s)) /\
  match value (run_cleanup self s) with
  | Returns _ => ends_with_delete_bucket (bucket_name self) (calls (run_cleanup self s))
  | Raises (ClientError _ _) => False
  | Raises (OtherError _ _) => True
  | Timeout => False
  end /\
  delete_bucket_follows_refusal (bucket_name self) (calls (run_cleanup self s)).
Proof.
  split; [apply run_cleanup_targets_first|].
  split; [apply run_cleanup_policies_first|].
  split; [|split].
  - destruct (run_cleanup_trace self s)
      as (others & emptying & last & -> & Hothers & Hemptying & Hlast).
    intros before e after Hsplit Hcall.
    destruct (split_in_app _ _ _ _ _ Hsplit) as [(l & Hin & _)|(l & -> & Hrest)].
    { pose proof (member_satisfies _ _ _ _ _ Hothers Hin) as He. cbn in He.
      rewrite Hcall in He. contradiction He. reflexivity. }
    destruct (split_in_app _ _ _ _ _ Hrest) as [(l' & Hin & _)|(l' & -> & Hend)].
    { pose proof (member_satisfies _ _ _ _ _ Hemptying Hin) as He. cbn in He.
      contradiction (He _ Hcall). }
    destruct Hlast as [->|[Hrun [answer ->]]].
    { destruct l'; discriminate Hend. }
    destruct l' as [|x [|y l']]; cbn in Hend; try discriminate Hend.
    injection Hend as _ <-.
    split; [reflexivity|].
    exists others, emptying. rewrite app_nil_r.
    split; [reflexivity|]. split; [exact Hothers|exact Hrun].
  - pose proof (run_cleanup_sturdy self s) as Hsturdy.
    pose proof (run_cleanup_ends self s) as Hends.
    destruct (value (run_cleanup self s)) as [done|[code text|cls text]|];
      try exact Hsturdy.
    apply (Hends done). reflexivity.
  - intros before e after code text Hsplit Herror Hclient Hother.
    destruct (run_cleanup_parts self s) as (earlier & Hearlier & Hparts).
    destruct Hparts as [Hcalls|(s' & last & Hcalls & Hlast & Hreturned)];
      rewrite Hcalls in Hsplit.
    { pose proof (member_satisfies _ _ _ _ _ Hearlier Hsplit) as He.
      contradiction. }
    destruct (split_in_app _ _ _ _ _ Hsplit) as [(l & Hin & _)|(l & -> & Hrest)].
    { pose proof (member_satisfies _ _ _ _ _ Hearlier Hin) as He. contradiction. }
    destruct (split_in_app _ _ _ _ _ Hrest) as [(l' & Hin & ->)|(l' & _ & Hend)].
    + destruct (emptying_stops_at_refusal self s' l e l' code text Hin Herror)
        as [-> Hvalue].
      destruct (Hreturned tt Hvalue) as [answer ->]. exists answer. reflexivity.
    + destruct Hlast as [->|[answer ->]].
      * destruct l'; discriminate Hend.
      * destruct l' as [|x [|y l']]; cbn in Hend; try discriminate Hend.
        injection Hend as <- _. contradiction (Hother (bucket_name self)). reflexivity.
Qed.

End CallOrder.

(** On a bucket with current objects, a version and a delete marker, where
    every call succeeds, the S3 client is used for exactly these calls, and
    the run ends with [delete_bucket]. *)
Lemma teardown_call_order_witness :
  map ev_call
      (List.filter uses_s3
         (calls (@Cleanup.run_cleanup stocked_bucket sample_runtime sample_cleanup tt)))
  = [ HeadBucket (PStr "q-logs");
      ListObjectsV2 (PStr "q-logs");
      DeleteObjects (PStr "q-logs")
                    [ {| oid_Key := "file1.txt"; oid_VersionId := None |};
                      {| oid_Key := "file2.txt"; oid_VersionId := None |} ];
      ListObjectVersions (PStr "q-logs");
      DeleteObjects (PStr "q-logs")
                    [ {| oid_Key := "file1.txt"; oid_VersionId := Some "v1" |};
                      {| oid_Key := "old.txt"; oid_VersionId := Some "v7" |} ];
      DeleteBucket (PStr "q-logs") ] /\
  targets_before_rule
    (calls (@Cleanup.run_cleanup stocked_bucket sample_runtime sample_cleanup tt)) /\
  policy_before_role
    (calls (@Cleanup.run_cleanup stocked_bucket sample_runtime sample_cleanup tt)) /\
  emptied_before_bucket (PStr "q-logs")
    (calls (@Cleanup.run_cleanup stocked_bucket sample_runtime sample_cleanup tt)) /\
  ends_with_delete_bucket (PStr "q-logs")
    (calls (@Cleanup.run_cleanup stocked_bucket sample_runtime sample_cleanup tt)) /\
  delete_bucket_follows_refusal (PStr "q-logs")
    (calls (@Cleanup.run_cleanup stocked_bucket sample_runtime sample_cleanup tt)).
Proof.
  split; [vm_compute; reflexivity|].
  destruct (@teardown_call_order stocked_bucket sample_runtime sample_cleanup tt)
    as (Hrules & Hroles & Hbucket & Hends & Hrefusal).
  split; [exact Hrules|]. split; [exact Hroles|]. split; [exact Hbucket|].
  split; [exact Hends|exact Hrefusal].
Defined.

(** C3 as stated fails: the two current objects are listed, their deletion
    is refused, the handler of the emptying reports the error, and
    delete_bucket is issued all the same, on a bucket that was not emptied. *)
Lemma delete_bucket_follows_failed_emptying :
  List.filter uses_s3
    (calls (@Cleanup.run_cleanup deletion_refused sample_runtime sample_cleanup tt))
  = [ Invoked (HeadBucket (PStr "q-logs")) (inr tt);
      Invoked (ListObjectsV2 (PStr "q-logs"))
              (inr {| pages := [ {| Contents := Some [ {| Key := "file1.txt" |};
                                                       {| Key := "file2.txt" |} ] |} ];
                      failure := None |});
      Invoked (DeleteObjects (PStr "q-logs")
                             [ {| oid_Key := "file1.txt"; oid_VersionId := None |};
                               {| oid_Key := "file2.txt"; oid_VersionId := None |} ])
              (inl (ClientError "AccessDenied" "Access Denied"));
      Invoked (DeleteBucket (PStr "q-logs"))
              (inl (ClientError "BucketNotEmpty"
                                "The bucket you tried to delete is not empty")) ].
Proof. vm_compute. reflexivity. Qed.
